(* ===== verification/_CoqProject ===== *)
-Q . S2P
Prelude.v
JsString.v
Json.v
Cache.v
CacheKey.v
Gateway.v
Accessors.v
Mutations.v
SerialIndex.v
SerialProps.v
Cli.v
CliCommands.v
Client.v
Interleave.v
Readme.v
