(* ===== verification/Prelude.v ===== *)
(** * The inFlow inventory plugin: a verification development

    The program (repository sources under [src/]):
    - [src/scripts/mcp-client.ts]: the class [InFlowMCPClient].  It holds a
      connection to an MCP server (the inFlow tools), a process-wide cache
      [cache] of the package [@local/plugin-cache] and a flag
      [cacheDisabled].  [connect] checks the credentials
      [INFLOW_API_KEY] and [INFLOW_COMPANY_ID] (config env over process
      env) and starts the transport.  [callTool] sends one tool call and
      normalises the answer: error text raised, JSON parsed, raw text or
      content otherwise.  About thirty read methods each compute a key
      with [createCacheKey] and go through [cache.getOrFetch] with a TTL
      tier and [bypassCache: this.cacheDisabled].  Eight write methods call
      the server and then purge key prefixes with
      [cache.invalidatePattern].  The serial-number search builds an index
      by paging through every fulfilled sales order ([buildSerialIndex]) or
      every inventory line ([buildSerialIndexFromProducts]) and caches it.
    - [src/scripts/cli.ts]: the command table of the [inflow-cli] tool.
      Each handler calls client methods.  Three read-modify-write commands
      bracket their read with [disableCache]/[enableCache].
    - [src/unnamed/part_000]: the README.  Its Features list, its table of
      Available Commands and its Usage Examples document commands and
      their options; the rest is prose.
    - [src/agents/*.md]: the agent description, prose only.

    The files, in dependency order:
    - [Prelude] (this file): errors, the result type [res], the state and
      error monad [st W A] (a JS exception keeps the mutations made before
      it), its notation in [inflow_scope], the hint databases [inflow] and
      [inflow_rw], prefix matching [starts_with] (the regular expressions
      [/^p/]), and lemmas on lists, maps and results.
    - [JsString]: [String.prototype.trim] and [toUpperCase] on ASCII text,
      with idempotence and commutation.
    - [Json]: JS values [jsval], truthiness, [||], property access that
      throws on [undefined]/[null], [?.], iteration of [x || []], plain
      objects as insertion-ordered association lists, and the own-key order
      of [Object.keys]/[Object.values] (array indices first).
    - [Cache] (module [Cache]): the store of [@local/plugin-cache], a
      library the sources only call; its contract is modelled from the
      specification and is not part of the code the development maps.  It has
      entries with an expiry, lazy eviction on read, hit and miss counters,
      pattern purge, the enable switch and [getOrFetch] over any host world
      (the class [CacheHost] with its laws [CacheHostLaws]).  It proves the
      TTL window, error transparency, exact pattern purge and the
      monotonicity of the counters along the step relation [step].
    - [CacheKey]: [createCacheKey] and the TTL tiers, also from the
      specification.  It proves independence from parameter order and from
      [undefined] parameters.
    - [Gateway] (module [Gateway]): the client state [world] (cache, flag,
      connection, transport state, configuration, environment, clock and a
      log of the calls sent).  It models [connect], [disconnect],
      [listTools], [callTool] with its [normalize], and the cache control
      methods.  The transport is the class [Remote] and [JSON.parse] the
      class [JsonParse]; theorems are proved for every instance.
      [Gateway.Fixture] is a scripted server for concrete runs.
    - [Accessors]: every cached read method (lines 190-883, 1153-1209,
      1311-1359, 1426-1437, 1638-1646), the read interface [read_op] with
      [run_read] and its [read_plan], and frame lemmas on [callTool].
    - [Mutations]: the eight write methods with their purges, the write
      interface [write_op], and the documented [@invalidates] contract.
    - [SerialIndex]: [buildSerialIndex] (paging loop and one-pass index),
      its two-phase reference, [searchSerial], [listSerials], the
      product-based index and search, and the serials of one order.
    - [SerialProps] (module [SerialProps]): the well-formedness of the
      serial indexes (every key normalised, every entry a record with a
      normalised serial) and the answers of [searchSerial] through the
      cached index.
    - [Cli]: the command handlers of [cli.ts] that have logic of their
      own: the [disableCache]/[enableCache] bracket, update commands, mode
      checks and the report of [build-serial-index].
    - [CliCommands] (module [CliCommands]): the remaining handlers of
      [cli.ts] (argument splitting, the create commands with their body
      construction, list commands with their filters) and the whole
      command table as the inductive [command] with [run_command], the
      dispatcher of [cli.ts] lines 11-725.
    - [Client] (module [Client]): the client as a step relation: one
      step runs one public method or one CLI command ([client_op]) on the
      world, or advances the clock.  The invariant [client_inv] (the
      cache switch agrees with [cacheDisabled], credentials are checked
      before a connection exists) holds in every reachable state.
    - [Interleave] (module [Interleave]): calls of several callers
      interleaved at their awaits (section 5 of the specification).  A
      cached read or a write suspends at [await this.client.connect]
      inside [connect] and at [await this.client.callTool] inside
      [callTool].  [start_read] and [start_write] run the code before the
      first await (key, lookup, miss count, the guard and checks of
      [connect]); [resume] runs the code after an await (the connection
      and the request, or [normalize] then the store of [getOrFetch] or
      the write's purges).  [cstep] starts a call, resumes any pending
      one, or runs a [Client.step].
    - [Readme] (module [Readme]): the commands, options and example
      command lines of the README as data, and [cli_schema], the key and
      the [z.object] fields (required or optional) of every entry of
      [commands] in [cli.ts]; [command_name] is the key of each
      [command].

    What the theorems show:
    - reads ([Accessors]): with the cache disabled a read is its server
      call and leaves the store alone; a fresh entry is served with no I/O;
      a stored answer is served for exactly its TTL; two reads that give
      the key builder the same operation name and parameter values send
      the same request with the same TTL, so a cached answer always
      belongs to the request its key stands for, provided include lists
      hold non-empty, comma-free names ([include_join_collision] shows
      two include lists that share a key but not a request);
    - writes ([Mutations]): a failed write leaves the cache as it was; a
      successful one removes exactly the keys its prefixes match; every
      documented read family is purged; the serial views never are;
    - the serial index ([SerialIndex]): the one-pass loop equals the
      reference; every serial maps to its first occurrence and earlier
      orders win; with a cap the loop terminates, without one it can run
      forever; a short first page escapes the cap; search depends only on
      the normalised query; the product index keeps the last occurrence;
      [getSalesOrderSerials] groups the occurrences of an order by the
      raw serial value, so spellings that normalise alike are reported
      apart;
    - the gateway ([Gateway]): connection is idempotent; missing
      credentials fail before I/O; the shape of [callTool]'s answers;
      [callTool] makes a single attempt, so a transport failure comes
      back as it is: no code of the repository retries, and the
      README's automatic retries could only come from [@local/cli-utils]
      or the server, neither of which is modelled;
    - the CLI ([Cli], [CliCommands]): a failing read inside the bracket
      leaves the cache disabled; the bracket reads from the server; mode
      checks reject before I/O; an [--items] argument that is not JSON is
      rejected before I/O, by [create-purchase-order] with its own
      message and by the receive commands with the [SyntaxError] of
      [JSON.parse]; [build-serial-index] stores nothing in the
      cache; every query command is exactly its cached read (a refinement
      onto [run_read]); splitting an [--include] list and joining it back
      gives the argument;
    - the indexes ([SerialProps]): every index built is well formed; a
      search for an indexed serial finds its record through the cache;
    - bounds ([SerialIndex]): a capped scan returns fewer than
      [cap + 100] orders; [listSerials] returns at most [limit] entries;
    - the client ([Client]): the invariant holds in every reachable state
      and the hit and miss counters never decrease along any run;
    - interleavings ([Interleave]): a call resumed as soon as it suspends
      is the atomic method (so [Client] is the interleaving with no
      overlap); the invariant holds in every interleaving; two concurrent
      misses on one key both reach the server; a read in flight across a
      successful write stores its pre-write answer after the write's
      purge, so the purged family serves stale data for that read's TTL;
      two first calls on a fresh client both pass the guard of [connect]
      and the server is connected to twice;
    - the documentation ([Readme]): a check by evaluation that every
      command the README names is a key of [commands] and every option
      it documents a field of that command's schema, required exactly
      when the README says so.  It reads a README flag such as
      [--category-id] as the field [categoryId], the translation that
      [@local/cli-utils] is assumed to make.

    Bounds and fuel.  Numbers are JS numbers restricted to integers ([Z]).
    No arithmetic of the source can overflow a double at the sizes
    involved: page offsets grow by 100, counts are list lengths.  The
    [while (true)] paging loop of [buildSerialIndex] is [fetch_pages],
    with one unit of fuel per page; running out of fuel is the error
    [Diverged].  [fetch_pages_capped_terminates] shows that with a cap [m]
    a fuel of [f + 1] pages with [m <= 100 f] (from an empty
    accumulator) already gives the final result, so larger fuel changes
    nothing.  [fetch_pages_diverges_uncapped] shows
    that without a cap no fuel suffices against a server that always
    answers full pages.  The cached lookups take the same fuel argument.

    Not modelled: the MCP SDK transport and the inFlow server (the
    [Remote] interface stands for them); reading [config.json] (the
    configuration is a field of [world]); the CLI framework
    [@local/cli-utils] with its Zod validation (handlers take validated
    arguments); JS number parsing ([parseFloat] is a variable of
    [Cli.UpdatePurchaseOrder]); Unicode case mapping beyond ASCII
    ([JsString.toUpperCase]); the suspensions inside the paging loop of
    the serial index and inside the CLI's read-modify-write commands
    (those run as atomic operations in [Interleave]); the commands that
    [cacheCommands()] of [@local/cli-utils] adds to the table; the text
    the CLI prints (its output formatting is I/O); the translation of
    command-line flags into schema fields, done by [@local/cli-utils]
    (the [Readme] theorem assumes the camelCase reading, see
    [Readme.flag_field]); the prose of the README (installation,
    troubleshooting) and of the agent description, which hold no
    code. *)

From Stdlib Require Export ZArith Lia String Ascii.
From stdpp Require Export base strings gmap list.

Declare Scope inflow_scope.
Delimit Scope inflow_scope with inflow.

Create HintDb inflow discriminated.
Create Rewrite HintDb inflow_rw.

(** ** Errors *)

(** The source throws [new Error(msg)] everywhere; the constructor records
    where the error comes from, the message is kept verbatim. [TypeError]
    stands for the errors the JS runtime raises (property access on
    [undefined], calling [trim] on a non-string, iterating a non-iterable),
    [RangeError] for an invalid array length, [SyntaxError] for a failing
    [JSON.parse] that nobody catches.  [Diverged] is not a JS error: it is
    the outcome of a loop model whose fuel ran out, a JS loop still
    running; the theorems on each loop say when it cannot happen. *)
Inductive error :=
| ValidationError (msg : string)
| ConfigurationError (msg : string)
| OperationError (msg : string)
| TypeError (msg : string)
| RangeError (msg : string)
| SyntaxError (msg : string)
| Diverged.

Inductive res (A : Type) : Type :=
| Ok (a : A)
| Err (e : error).
Arguments Ok {A} a.
Arguments Err {A} e.

Definition is_ok {A} (r : res A) : bool :=
  match r with Ok _ => true | Err _ => false end.

Definition res_map {A B} (f : A -> B) (r : res A) : res B :=
  match r with Ok a => Ok (f a) | Err e => Err e end.

(** A left fold that stops at the first error: a [for] loop whose body
    may throw. *)
Fixpoint fold_res {A B} (f : A -> B -> res A) (a : A) (l : list B) : res A :=
  match l with
  | [] => Ok a
  | x :: l' => match f a x with Ok a' => fold_res f a' l' | Err e => Err e end
  end.

(** Run a list of fallible producers left to right and concatenate. *)
Fixpoint concat_res {A} (l : list (res (list A))) : res (list A) :=
  match l with
  | [] => Ok []
  | r :: l' =>
      match r with
      | Ok xs => match concat_res l' with Ok ys => Ok (xs ++ ys) | Err e => Err e end
      | Err e => Err e
      end
  end.

(** A loop that threads an accumulator through fallible steps is the
    fold of its successful outputs: the optimised interleaving of reading
    and inserting equals reading everything first and inserting after. *)
Lemma fold_res_concat {A B X} (f : A -> B -> res A) (g : B -> res (list X))
    (ins : A -> X -> A) (a : A) (l : list B) :
  (forall a x, f a x = res_map (fun xs => fold_left ins xs a) (g x)) ->
  fold_res f a l = res_map (fun xs => fold_left ins xs a) (concat_res (map g l)).
Proof.
  intros Hf. revert a. induction l as [|x l IH]; intros a; [done|]. simpl.
  rewrite Hf. destruct (g x) as [xs|e]; simpl; [|done].
  rewrite IH. destruct (concat_res (map g l)) as [ys|e]; simpl; [|done].
  by rewrite fold_left_app.
Qed.

Lemma find_app {A} (f : A -> bool) l1 l2 :
  List.find f (l1 ++ l2) = match List.find f l1 with Some x => Some x | None => List.find f l2 end.
Proof. induction l1 as [|a l1 IH]; simpl; [done|]. by destruct (f a). Qed.

(** ** The state/error monad *)

Definition st (W A : Type) : Type := W -> W * res A.

Definition ret {W A} (a : A) : st W A := fun w => (w, Ok a).

Definition bind {W A B} (m : st W A) (k : A -> st W B) : st W B :=
  fun w =>
    match m w with
    | (w', Ok a) => k a w'
    | (w', Err e) => (w', Err e)
    end.

Definition throw {W A} (e : error) : st W A := fun w => (w, Err e).

Definition gets {W A} (f : W -> A) : st W A := fun w => (w, Ok (f w)).

Definition modify {W} (f : W -> W) : st W unit := fun w => (f w, Ok tt).

(** [lift_res r] raises the error of a pure computation. *)
Definition lift_res {W A} (r : res A) : st W A :=
  match r with Ok a => ret a | Err e => throw e end.

Notation "x <- m ;; k" := (bind m (fun x => k))
  (at level 100, m at level 99, right associativity) : inflow_scope.
Notation "m ;; k" := (bind m (fun _ : unit => k))
  (at level 100, right associativity) : inflow_scope.

Open Scope inflow_scope.

(** Sequencing of a pure [res] with a continuation. *)
Definition res_bind {A B} (r : res A) (k : A -> res B) : res B :=
  match r with Ok a => k a | Err e => Err e end.

(** ** Monad laws *)

Lemma bind_ret_l {W A B} (a : A) (k : A -> st W B) w :
  bind (ret a) k w = k a w.
Proof. reflexivity. Qed.

Lemma bind_ret_r {W A} (m : st W A) w : bind m ret w = m w.
Proof. unfold bind, ret. destruct (m w) as [w' [a|e]]; reflexivity. Qed.

Lemma bind_assoc {W A B C} (m : st W A) (k : A -> st W B) (h : B -> st W C) w :
  bind (bind m k) h w = bind m (fun a => bind (k a) h) w.
Proof. unfold bind. destruct (m w) as [w' [a|e]]; reflexivity. Qed.

Lemma bind_throw {W A B} (e : error) (k : A -> st W B) w :
  bind (throw e) k w = (w, Err e).
Proof. reflexivity. Qed.

Lemma bind_of_ok {W A B} (m : st W A) (k : A -> st W B) w w' a :
  m w = (w', Ok a) -> bind m k w = k a w'.
Proof. intros H. unfold bind. by rewrite H. Qed.

Lemma bind_of_err {W A B} (m : st W A) (k : A -> st W B) w w' e :
  m w = (w', Err e) -> bind m k w = (w', Err e).
Proof. intros H. unfold bind. by rewrite H. Qed.

#[export] Hint Rewrite @bind_ret_l @bind_throw : inflow_rw.

(** [st_unfold] computes through the monad's combinators. *)
Ltac st_unfold :=
  unfold bind, ret, throw, gets, modify, lift_res in *; simpl in *.

(** ** Prefix tests: the regular expressions [/^p/] of the source *)

(** [cache.invalidatePattern(/^stock/)] tests every key with a regular
    expression anchored at the start and without metacharacters: it is the
    prefix test. *)
Fixpoint starts_with (p s : string) : bool :=
  match p with
  | EmptyString => true
  | String c p' =>
      match s with
      | EmptyString => false
      | String d s' => Ascii.eqb c d && starts_with p' s'
      end
  end.

Lemma starts_with_app p s : starts_with p (p ++ s) = true.
Proof. induction p as [|c p IH]; simpl; [done|]. by rewrite Ascii.eqb_refl. Qed.

Lemma starts_with_app_inv p s :
  starts_with p s = true -> exists t, s = (p ++ t)%string.
Proof.
  revert s. induction p as [|c p IH]; intros s H.
  - by exists s.
  - destruct s as [|d s]; [done|]. simpl in H.
    apply andb_true_iff in H as [Hc H]. apply Ascii.eqb_eq in Hc as ->.
    destruct (IH s H) as [t ->]. by exists t.
Qed.

Lemma string_app_assoc (a b c : string) :
  (a ++ (b ++ c))%string = ((a ++ b) ++ c)%string.
Proof. induction a as [|x a IH]; [reflexivity|exact (f_equal (String x) IH)]. Qed.

Lemma starts_with_trans p q s :
  starts_with p q = true -> starts_with q s = true -> starts_with p s = true.
Proof.
  intros [t ->]%starts_with_app_inv [u ->]%starts_with_app_inv.
  rewrite <- string_app_assoc. apply starts_with_app.
Qed.

(** Two prefixes of one string are comparable. *)
Lemma starts_with_comparable p q s :
  starts_with p s = true -> starts_with q s = true ->
  starts_with p q = true \/ starts_with q p = true.
Proof.
  revert q s. induction p as [|c p IH]; intros q s Hp Hq; [by left|].
  destruct q as [|d q]; [by right|]. destruct s as [|e s]; simpl in *; [done|].
  apply andb_true_iff in Hp as [Hc Hp], Hq as [Hd Hq].
  apply Ascii.eqb_eq in Hc as ->. apply Ascii.eqb_eq in Hd as ->.
  rewrite Ascii.eqb_refl. simpl. by apply (IH q s).
Qed.

(** A string starting with [q] does not start with a [p] that is not
    comparable with [q]. *)
Lemma starts_with_incomparable p q s :
  starts_with p q = false -> starts_with q p = false ->
  starts_with q s = true -> starts_with p s = false.
Proof.
  intros H1 H2 Hq. destruct (starts_with p s) eqn:Hp; [|done].
  destruct (starts_with_comparable p q s Hp Hq) as [H|H]; congruence.
Qed.

#[export] Hint Resolve starts_with_app : inflow.

(** ** Finite maps *)

(** [filter] on a [gmap] read at one key, with the test as a boolean. *)
Lemma lookup_filter_bool {A} (P : string * A -> Prop) `{forall x, Decision (P x)}
    (m : gmap string A) k :
  filter P m !! k =
    match m !! k with
    | Some x => if bool_decide (P (k, x)) then Some x else None
    | None => None
    end.
Proof.
  rewrite map_lookup_filter. destruct (m !! k) as [x|]; [|done].
  apply option_guard_bool_decide.
Qed.

Lemma lookup_filter_None {A} (P : string * A -> Prop) `{forall x, Decision (P x)}
    (m : gmap string A) k :
  m !! k = None -> filter P m !! k = None.
Proof. intros Hk. by rewrite lookup_filter_bool, Hk. Qed.

(** Filtering splits a map in two: what the test keeps and what it drops. *)
Lemma size_filter_complement {A} (P : string * A -> Prop) `{forall x, Decision (P x)}
    (m : gmap string A) :
  size (filter P m) + size (filter (fun kv => ~ P kv) m) = size m.
Proof.
  induction m as [|i x m Hi IH] using map_ind.
  - by rewrite !map_filter_empty, map_size_empty.
  - rewrite map_size_insert_None by done.
    destruct (decide (P (i, x))) as [HP|HP].
    + rewrite map_filter_insert_True by done.
      rewrite (map_filter_insert_False (fun kv => ~ P kv)) by naive_solver.
      rewrite delete_id by done.
      rewrite map_size_insert_None by (by apply lookup_filter_None). lia.
    + rewrite map_filter_insert_False by done.
      rewrite (map_filter_insert_True (fun kv => ~ P kv)) by done.
      rewrite delete_id by done.
      rewrite map_size_insert_None by (by apply lookup_filter_None). lia.
Qed.

(** ** Lists *)

(** An invariant of the accumulator survives a loop that may throw. *)
Lemma fold_res_inv {A B} (P : A -> Prop) (f : A -> B -> res A) (a : A) (l : list B) (a' : A) :
  (forall a x a', P a -> f a x = Ok a' -> P a') ->
  P a -> fold_res f a l = Ok a' -> P a'.
Proof.
  intros Hf. revert a. induction l as [|x l IH]; intros a Ha; simpl; [by intros [= <-]|].
  destruct (f a x) as [a1|e] eqn:E; [|done]. apply IH. exact (Hf _ _ _ Ha E).
Qed.

Lemma list_find_app {A} (f : A -> bool) (l1 l2 : list A) :
  List.find f (l1 ++ l2) = match List.find f l1 with Some x => Some x | None => List.find f l2 end.
Proof. induction l1 as [|x l1 IH]; simpl; [done|]. by destruct (f x). Qed.

(** [Array.prototype.slice(0, n)] *)
Lemma length_take_le {A} (l : list A) n : length (take n l) <= length l.
Proof. rewrite length_take. lia. Qed.
