(* ===== verification/JsString.v ===== *)
(** * JsString: the JS string built-ins the client calls

    [String.prototype.trim] and [String.prototype.toUpperCase], on strings
    whose code units are the 8-bit characters of [Ascii.ascii] (code units
    0-255).  [trim] removes the code units JS counts as white space or line
    terminators in that range (TAB, LF, VT, FF, CR, SPACE and NO-BREAK
    SPACE 0xA0) from both ends.  [toUpperCase] maps the ASCII letters a-z to
    A-Z and leaves every other code unit unchanged: the Latin-1 letters
    0xB5, 0xDF, 0xE0-0xFE and 0xFF, which JS also upper-cases, are outside
    the model (serial numbers are ASCII).

    The theorems show that trimming and upper-casing commute and are
    idempotent, which is what makes the serial normalisation of the client
    a projection. *)

From S2P Require Import Prelude.

Module JsString.

(** ** Characters *)

Definition code (c : ascii) : nat := Ascii.nat_of_ascii c.

Definition ws_code (n : nat) : bool :=
  match n with
  | 9 | 10 | 11 | 12 | 13 | 32 | 160 => true
  | _ => false
  end.

Definition is_ws (c : ascii) : bool := ws_code (code c).

Definition is_lower (c : ascii) : bool :=
  (97 <=? code c) && (code c <=? 122).

Definition upper_char (c : ascii) : ascii :=
  if is_lower c then Ascii.ascii_of_nat (code c - 32) else c.

(** ** Strings as lists of code units *)

Fixpoint drop_ws (l : list ascii) : list ascii :=
  match l with
  | [] => []
  | c :: l' => if is_ws c then drop_ws l' else l
  end.

Definition trim_list (l : list ascii) : list ascii :=
  rev (drop_ws (rev (drop_ws l))).

(** [s.trim()] *)
Definition trim (s : string) : string :=
  string_of_list_ascii (trim_list (list_ascii_of_string s)).

(** [s.toUpperCase()] *)
Definition toUpperCase (s : string) : string :=
  string_of_list_ascii (map upper_char (list_ascii_of_string s)).

(** ** Character lemmas *)

Lemma upper_char_code c :
  code (upper_char c) = if is_lower c then code c - 32 else code c.
Proof.
  unfold upper_char. destruct (is_lower c) eqn:E; [|done].
  unfold code. rewrite Ascii.nat_ascii_embedding; [done|].
  unfold is_lower, code in E. apply andb_true_iff in E as [_ E].
  apply Nat.leb_le in E. lia.
Qed.

(** No lower-case letter is white space, before or after upper-casing:
    checked on the 26 code units by computation. *)
Lemma ws_code_lower k : 97 <= k <= 122 -> ws_code (k - 32) = ws_code k.
Proof.
  intros Hk.
  assert (Hall : forallb (fun k => Bool.eqb (ws_code (k - 32)) (ws_code k))
                   (seq 97 26) = true) by reflexivity.
  rewrite forallb_forall in Hall.
  apply Bool.eqb_prop, Hall, in_seq. lia.
Qed.

Lemma is_ws_upper c : is_ws (upper_char c) = is_ws c.
Proof.
  unfold is_ws. rewrite upper_char_code.
  destruct (is_lower c) eqn:E; [|done].
  unfold is_lower in E. apply andb_true_iff in E as [E1 E2].
  apply Nat.leb_le in E1, E2. apply ws_code_lower. lia.
Qed.

Lemma upper_char_idem c : upper_char (upper_char c) = upper_char c.
Proof.
  unfold upper_char at 1. destruct (is_lower (upper_char c)) eqn:E; [|done].
  exfalso. revert E. unfold is_lower at 1. rewrite upper_char_code.
  unfold is_lower.
  destruct (Nat.leb_spec 97 (code c)), (Nat.leb_spec (code c) 122);
    cbn [andb]; rewrite andb_true_iff, !Nat.leb_le; lia.
Qed.

Lemma is_lower_upper c : is_lower (upper_char c) = false.
Proof.
  destruct (is_lower (upper_char c)) eqn:E; [|done].
  pose proof (upper_char_idem c) as Hi. unfold upper_char at 1 in Hi. rewrite E in Hi.
  apply (f_equal code) in Hi. unfold code at 1 in Hi.
  rewrite Ascii.nat_ascii_embedding in Hi.
  - unfold is_lower in E. apply andb_true_iff in E as [E1 _]. apply Nat.leb_le in E1.
    fold (code (upper_char c)) in Hi. lia.
  - unfold is_lower in E. apply andb_true_iff in E as [_ E2]. apply Nat.leb_le in E2.
    fold (code (upper_char c)). lia.
Qed.

(** ** List lemmas *)

Lemma drop_ws_idem l : drop_ws (drop_ws l) = drop_ws l.
Proof.
  induction l as [|c l IH]; simpl; [done|].
  destruct (is_ws c) eqn:E; [done|]. simpl. by rewrite E.
Qed.

Lemma drop_ws_map_upper l :
  drop_ws (map upper_char l) = map upper_char (drop_ws l).
Proof.
  induction l as [|c l IH]; simpl; [done|].
  rewrite is_ws_upper. by destruct (is_ws c).
Qed.

(** [drop_ws] removes a prefix, and what it leaves starts with a
    non-space. *)
Lemma drop_ws_suffix l : exists p, l = p ++ drop_ws l.
Proof.
  induction l as [|c l [p Hp]]; simpl; [by exists []|].
  destruct (is_ws c); [exists (c :: p); simpl; by f_equal|by exists []].
Qed.

Lemma drop_ws_head l c l' : drop_ws l = c :: l' -> is_ws c = false.
Proof.
  induction l as [|d l IH]; simpl; [done|].
  destruct (is_ws d) eqn:E; [done|]. by intros [= -> _].
Qed.

Lemma drop_ws_prefix_fixed l x q :
  (forall c l', l = c :: l' -> is_ws c = false) -> l = x ++ q -> drop_ws x = x.
Proof.
  intros Hl ->. destruct x as [|c x]; [done|]. simpl.
  by rewrite (Hl c (x ++ q) eq_refl).
Qed.

Lemma trim_list_idem l : trim_list (trim_list l) = trim_list l.
Proof.
  unfold trim_list at 2 3. set (z := drop_ws (rev (drop_ws l))).
  assert (Hz : drop_ws (rev z) = rev z).
  { destruct (drop_ws_suffix (rev (drop_ws l))) as [p Hp].
    apply (f_equal (@rev ascii)) in Hp. rewrite rev_involutive, rev_app_distr in Hp.
    eapply drop_ws_prefix_fixed; [apply drop_ws_head|exact Hp]. }
  unfold trim_list. rewrite Hz, rev_involutive. subst z. by rewrite drop_ws_idem.
Qed.

Lemma trim_list_map_upper l :
  trim_list (map upper_char l) = map upper_char (trim_list l).
Proof.
  unfold trim_list.
  by rewrite drop_ws_map_upper, <- map_rev, drop_ws_map_upper, map_rev.
Qed.

Lemma map_upper_idem l : map upper_char (map upper_char l) = map upper_char l.
Proof. rewrite map_map. apply map_ext, upper_char_idem. Qed.

(** ** String lemmas *)

Lemma trim_idem s : trim (trim s) = trim s.
Proof. unfold trim. by rewrite list_ascii_of_string_of_list_ascii, trim_list_idem. Qed.

Lemma toUpperCase_idem s : toUpperCase (toUpperCase s) = toUpperCase s.
Proof. unfold toUpperCase. by rewrite list_ascii_of_string_of_list_ascii, map_upper_idem. Qed.

Lemma trim_toUpperCase s : trim (toUpperCase s) = toUpperCase (trim s).
Proof.
  unfold trim, toUpperCase.
  by rewrite !list_ascii_of_string_of_list_ascii, trim_list_map_upper.
Qed.

(** No code unit of an upper-cased string is a lower-case ASCII letter. *)
Lemma toUpperCase_no_lower s c :
  In c (list_ascii_of_string (toUpperCase s)) -> is_lower c = false.
Proof.
  unfold toUpperCase. rewrite list_ascii_of_string_of_list_ascii.
  intros (c' & <- & _)%in_map_iff. apply is_lower_upper.
Qed.

End JsString.
