(* ===== verification/Json.v ===== *)
(** * Json: the JS values the client passes around

    The remote service answers with JSON; the client reads it with JS
    property access, optional chaining [?.], the [||] operator and
    [for ... of] loops.  [jsval] is that value space (numbers are the
    integers the client compares and counts), [jsobj] a plain JS object as
    the list of its own properties in insertion order, which is the order
    [Object.keys]/[Object.values] report for non-index keys.

    The operations are the JS semantics the source relies on:
    - [truthy]: [undefined], [null], [false], [0] and [""] are falsy;
    - [prop]: [v.k], a [TypeError] on [undefined]/[null];
    - [oprop]: [v?.k], [undefined] on [undefined]/[null];
    - [js_or]: [a || b];
    - [iter_or_empty]: the list a [for (const x of v || [])] loop visits,
      a [TypeError] when [v] is truthy and not iterable;
    - [obj_set]: the assignment [o[k] = v] (an existing key keeps its
      position, a new key is appended). *)

From S2P Require Import Prelude.

Module Json.

#[warnings="-register-all"]
Inductive jsval :=
| JUndef
| JNull
| JBool (b : bool)
| JNum (n : Z)
| JStr (s : string)
| JArr (xs : list jsval)
| JObj (fields : list (string * jsval)).

Definition jsobj : Type := list (string * jsval).

Definition truthy (v : jsval) : bool :=
  match v with
  | JUndef | JNull => false
  | JBool b => b
  | JNum n => negb (Z.eqb n 0)
  | JStr s => negb (String.eqb s "")
  | JArr _ | JObj _ => true
  end.

(** [a || b] *)
Definition js_or (a b : jsval) : jsval := if truthy a then a else b.

(** Own property lookup on a plain object. *)
Fixpoint obj_get (o : jsobj) (k : string) : jsval :=
  match o with
  | [] => JUndef
  | (k', v) :: o' => if String.eqb k k' then v else obj_get o' k
  end.

(** [o[k] = v] *)
Fixpoint obj_set (o : jsobj) (k : string) (v : jsval) : jsobj :=
  match o with
  | [] => [(k, v)]
  | (k', v') :: o' =>
      if String.eqb k k' then (k', v) :: o' else (k', v') :: obj_set o' k v
  end.

Definition obj_keys (o : jsobj) : list string := map fst o.
Definition obj_values (o : jsobj) : list jsval := map snd o.

(** [v.k]: properties of arrays, strings, numbers and booleans that the
    client never reads are [undefined] here. *)
Definition prop (v : jsval) (k : string) : res jsval :=
  match v with
  | JUndef => Err (TypeError ("Cannot read properties of undefined (reading '" ++ k ++ "')"))
  | JNull => Err (TypeError ("Cannot read properties of null (reading '" ++ k ++ "')"))
  | JObj o => Ok (obj_get o k)
  | _ => Ok JUndef
  end.

(** [v?.k] *)
Definition oprop (v : jsval) (k : string) : jsval :=
  match v with
  | JObj o => obj_get o k
  | _ => JUndef
  end.

Definition is_array (v : jsval) : bool :=
  match v with JArr _ => true | _ => false end.

(** The elements [for (const x of v || [])] visits: a string is iterated
    by code unit, a truthy non-iterable value throws. *)
Definition iter_or_empty (v : jsval) : res (list jsval) :=
  if negb (truthy v) then Ok []
  else match v with
       | JArr xs => Ok xs
       | JStr s => Ok (map (fun c => JStr (String c EmptyString)) (list_ascii_of_string s))
       | _ => Err (TypeError "object is not iterable")
       end.

(** ** Lemmas *)

Lemma obj_get_set_eq o k v : obj_get (obj_set o k v) k = v.
Proof.
  induction o as [|[k' v'] o IH]; simpl.
  - by rewrite String.eqb_refl.
  - destruct (String.eqb_spec k k') as [->|Hne]; simpl.
    + by rewrite String.eqb_refl.
    + rewrite (proj2 (String.eqb_neq k k') Hne). exact IH.
Qed.

Lemma obj_get_set_ne o k k2 v : k2 <> k -> obj_get (obj_set o k v) k2 = obj_get o k2.
Proof.
  intros Hne. induction o as [|[k' v'] o IH]; simpl.
  - by rewrite (proj2 (String.eqb_neq k2 k) Hne).
  - destruct (String.eqb_spec k k') as [->|Hk]; simpl.
    + by rewrite (proj2 (String.eqb_neq k2 k') Hne).
    + by rewrite IH.
Qed.

Lemma obj_keys_set_in o k v : In k (obj_keys o) -> obj_keys (obj_set o k v) = obj_keys o.
Proof.
  induction o as [|[k' v'] o IH]; simpl; [done|].
  destruct (String.eqb_spec k k') as [->|Hk]; simpl; [done|].
  intros [->|Hin]; [done|]. by rewrite IH.
Qed.

Lemma obj_keys_set_notin o k v :
  ~ In k (obj_keys o) -> obj_keys (obj_set o k v) = obj_keys o ++ [k].
Proof.
  induction o as [|[k' v'] o IH]; simpl; [done|].
  intros Hnin. destruct (String.eqb_spec k k') as [->|Hk]; simpl.
  - exfalso. by apply Hnin; left.
  - rewrite IH; [done|]. intros Hin. by apply Hnin; right.
Qed.

Lemma obj_get_notin o k : ~ In k (obj_keys o) -> obj_get o k = JUndef.
Proof.
  induction o as [|[k' v'] o IH]; simpl; [done|].
  intros Hnin. destruct (String.eqb_spec k k') as [->|Hk].
  - exfalso. by apply Hnin; left.
  - apply IH. intros Hin. by apply Hnin; right.
Qed.

Lemma obj_set_Forall (P : string * jsval -> Prop) o k v :
  Forall P o -> P (k, v) -> Forall P (obj_set o k v).
Proof.
  induction o as [|[k' v'] o IH]; intros Ho Hkv; simpl; [by constructor|].
  apply Forall_cons in Ho as [Hk' Ho].
  destruct (String.eqb_spec k k') as [<-|]; constructor; auto.
Qed.

Lemma obj_set_nodup o k v : NoDup (obj_keys o) -> NoDup (obj_keys (obj_set o k v)).
Proof.
  intros Hnd. destruct (in_dec string_dec k (obj_keys o)) as [Hin|Hnin].
  - by rewrite obj_keys_set_in.
  - rewrite obj_keys_set_notin by done.
    apply NoDup_app. split; [done|]. split; [|apply NoDup_singleton].
    intros x Hx ->%list_elem_of_singleton. by apply Hnin, list_elem_of_In.
Qed.

(** ** Own-key order of plain objects

    [Object.keys] and [Object.values] list the array-index keys first, in
    ascending numeric order, then the other string keys in insertion
    order.  An array index is the canonical decimal text of an integer
    from 0 to 2^32 - 2. *)

Definition digit_val (c : ascii) : option N :=
  let n := Ascii.nat_of_ascii c in
  if (48 <=? n) && (n <=? 57) then Some (N.of_nat (n - 48)) else None.

Fixpoint digits_val (acc : N) (l : list ascii) : option N :=
  match l with
  | [] => Some acc
  | c :: l' => match digit_val c with
               | Some d => digits_val (10 * acc + d)%N l'
               | None => None
               end
  end.

Definition array_index (k : string) : option N :=
  match list_ascii_of_string k with
  | [] => None
  | c :: l =>
      if Ascii.eqb c "0"%char && negb (Nat.eqb (length l) 0) then None
      else match digits_val 0 (c :: l) with
           | Some v => if (v <=? 4294967294)%N then Some v else None
           | None => None
           end
  end.

Fixpoint insert_by_index (x : N * (string * jsval)) (l : list (N * (string * jsval))) :=
  match l with
  | [] => [x]
  | y :: l' => if (x.1 <=? y.1)%N then x :: l else y :: insert_by_index x l'
  end.

Definition index_props (o : jsobj) : list (string * jsval) :=
  map snd (fold_right insert_by_index []
             (omap (fun kv => match array_index kv.1 with
                              | Some v => Some (v, kv)
                              | None => None
                              end) o)).

Definition string_props (o : jsobj) : list (string * jsval) :=
  List.filter (fun kv => match array_index kv.1 with Some _ => false | None => true end) o.

Definition own_props (o : jsobj) : list (string * jsval) := index_props o ++ string_props o.

(** [Object.values(o)] *)
Definition object_values (o : jsobj) : list jsval := map snd (own_props o).

(** [Object.keys(o)] *)
Definition object_keys (o : jsobj) : list string := map fst (own_props o).

Lemma insert_by_index_perm x l : Permutation (insert_by_index x l) (x :: l).
Proof.
  induction l as [|y l IH]; simpl; [done|].
  destruct (x.1 <=? y.1)%N; [done|]. rewrite IH. apply perm_swap.
Qed.

Lemma fold_insert_by_index_perm l : Permutation (fold_right insert_by_index [] l) l.
Proof.
  induction l as [|x l IH]; simpl; [done|]. rewrite insert_by_index_perm. by rewrite IH.
Qed.

(** The own properties are a reordering of the object's properties. *)
Lemma own_props_perm o : Permutation (own_props o) o.
Proof.
  unfold own_props, index_props, string_props.
  rewrite fold_insert_by_index_perm.
  induction o as [|[k v] o IH]; simpl; [done|].
  destruct (array_index k); simpl; [by rewrite IH|].
  rewrite <- Permutation_middle. by rewrite IH.
Qed.

End Json.
