(* ===== verification/Cache.v ===== *)
(** * Cache: the namespaced TTL cache ([PluginCache] of [@local/plugin-cache])

    The package [@local/plugin-cache] is not part of the repository: the
    client only calls it ([src/scripts/mcp-client.ts] lines 14 and 27-32).
    Its store is modelled from the specification (section 4.1):
    - the state is the record [cache]: the namespace, the default TTL, the
      entries (a [gmap] from key to value and expiry time), the hit and
      miss counters and the enable switch;
    - [lookup] is the lazy expiry check: an entry is visible while
      [now < expiresAt], an expired entry is evicted when it is read;
    - [set], [invalidate], [invalidatePattern], [clear], [enable],
      [disable] and [getStats] are the store's operations;
    - [getOrFetch] runs in the state/error monad over a world [W] that holds
      the cache and the clock, reached through the interface [CacheHost]:
      the producer runs in the same world and may change it (call the
      remote service, advance the clock, use the cache itself), and the
      value it returns is stored in the cache of the world it leaves.

    Time is an integer number of seconds, the unit of the TTL tiers
    (section 6: 300, 900, 3600).

    The abstract specification is [view c now], the finite map of the
    entries a reader can see; the lemmas [view_*] show that every
    operation acts on the view as the corresponding map operation
    (functional refinement), and the [getOrFetch_*] lemmas give the
    behaviour of [getOrFetch] on every branch. *)

From S2P Require Import Prelude.

Module Cache.

Section Store.
Context {V : Type}.

Record entry := mkEntry {
  value : V;
  expiresAt : Z
}.

Record cache := mkCache {
  namespace : string;
  defaultTTL : Z;
  entries : gmap string entry;
  hits : nat;
  misses : nat;
  enabled : bool
}.

Record stats := mkStats {
  st_hits : nat;
  st_misses : nat;
  st_size : nat
}.

(** [new PluginCache({namespace, defaultTTL})] *)
Definition create (ns : string) (ttl : Z) : cache :=
  mkCache ns ttl ∅ 0 0 true.

Definition with_entries (c : cache) (es : gmap string entry) : cache :=
  mkCache (namespace c) (defaultTTL c) es (hits c) (misses c) (enabled c).

Definition fresh (now : Z) (e : entry) : bool := Z.ltb now (expiresAt e).

(** The read path: a fresh entry is returned, an expired one evicted. *)
Definition lookup (c : cache) (key : string) (now : Z) : option V * cache :=
  match entries c !! key with
  | Some e =>
      if fresh now e then (Some (value e), c)
      else (None, with_entries c (delete key (entries c)))
  | None => (None, c)
  end.

(** [set(key, value, ttl)]: the entry expires [ttl] seconds from now. *)
Definition set (c : cache) (key : string) (v : V) (ttl : option Z) (now : Z) : cache :=
  let t := match ttl with Some t => t | None => defaultTTL c end in
  with_entries c (<[key := mkEntry v (now + t)]> (entries c)).

(** [invalidate(key)]: whether an entry was stored under the key. *)
Definition invalidate (c : cache) (key : string) : bool * cache :=
  (bool_decide (is_Some (entries c !! key)), with_entries c (delete key (entries c))).

Definition key_matches (p : string -> bool) (ke : string * entry) : Prop := p ke.1 = true.

#[global] Instance key_matches_dec p ke : Decision (key_matches p ke).
Proof. unfold key_matches. apply _. Defined.

(** [invalidatePattern(regex)]: remove every key the pattern matches and
    return how many were removed. *)
Definition invalidatePattern (c : cache) (p : string -> bool) : nat * cache :=
  (size (filter (key_matches p) (entries c)),
   with_entries c (filter (fun ke => ~ key_matches p ke) (entries c))).

(** [clear()]: empty the store; the counters are kept. *)
Definition clear (c : cache) : nat * cache :=
  (size (entries c), with_entries c ∅).

Definition enable (c : cache) : cache :=
  mkCache (namespace c) (defaultTTL c) (entries c) (hits c) (misses c) true.

Definition disable (c : cache) : cache :=
  mkCache (namespace c) (defaultTTL c) (entries c) (hits c) (misses c) false.

Definition getStats (c : cache) : stats :=
  mkStats (hits c) (misses c) (size (entries c)).

Definition count_hit (c : cache) : cache :=
  mkCache (namespace c) (defaultTTL c) (entries c) (S (hits c)) (misses c) (enabled c).

Definition count_miss (c : cache) : cache :=
  mkCache (namespace c) (defaultTTL c) (entries c) (hits c) (S (misses c)) (enabled c).

(** ** The abstract view: what a reader sees at time [now] *)

Definition view (c : cache) (now : Z) : gmap string V :=
  value <$> filter (fun ke => fresh now ke.2 = true) (entries c).

End Store.

Arguments entry : clear implicits.
Arguments cache : clear implicits.



(** ** The store refines its view *)

Section StoreLemmas.
Context {V : Type}.
Implicit Types (c : cache V) (now : Z) (k : string).

Lemma view_lookup c now k :
  view c now !! k =
    match entries c !! k with
    | Some e => if fresh now e then Some (value e) else None
    | None => None
    end.
Proof.
  unfold view. rewrite lookup_fmap, lookup_filter_bool.
  destruct (entries c !! k) as [e|]; [|done]. simpl.
  by destruct (fresh now e).
Qed.

Lemma view_with_entries c es now :
  view (with_entries c es) now = value <$> filter (fun ke => fresh now ke.2 = true) es.
Proof. reflexivity. Qed.

(** The read path returns what the view holds, and its eviction is
    invisible in the view. *)
Lemma lookup_result c k now : (lookup c k now).1 = view c now !! k.
Proof.
  rewrite view_lookup. unfold lookup.
  destruct (entries c !! k) as [e|]; [|done]. by destruct (fresh now e).
Qed.

Lemma lookup_view c k now : view (lookup c k now).2 now = view c now.
Proof.
  unfold lookup. destruct (entries c !! k) as [e|] eqn:Hk; [|done].
  destruct (fresh now e) eqn:Hf; [done|]. simpl.
  apply map_eq. intros k'. rewrite !view_lookup. simpl.
  destruct (decide (k = k')) as [->|Hne].
  - by rewrite lookup_delete_eq, Hk, Hf.
  - by rewrite lookup_delete_ne.
Qed.

Lemma lookup_counters c k now :
  hits (lookup c k now).2 = hits c /\ misses (lookup c k now).2 = misses c /\
  enabled (lookup c k now).2 = enabled c.
Proof.
  unfold lookup. destruct (entries c !! k) as [e|]; [|done].
  by destruct (fresh now e).
Qed.

Definition ttl_of c (ttl : option Z) : Z :=
  match ttl with Some t => t | None => defaultTTL c end.

Lemma view_set c k v ttl t0 now :
  view (set c k v ttl t0) now =
    if Z.ltb now (t0 + ttl_of c ttl) then <[k := v]> (view c now)
    else delete k (view c now).
Proof.
  apply map_eq. intros k'. rewrite view_lookup. unfold set. simpl.
  destruct (decide (k = k')) as [->|Hne].
  - rewrite lookup_insert_eq. unfold fresh. simpl. fold (ttl_of c ttl).
    destruct (Z.ltb now (t0 + ttl_of c ttl)).
    + by rewrite lookup_insert_eq.
    + by rewrite lookup_delete_eq.
  - rewrite lookup_insert_ne by done.
    destruct (Z.ltb now (t0 + ttl_of c ttl));
      [rewrite lookup_insert_ne by done|rewrite lookup_delete_ne by done];
      by rewrite view_lookup.
Qed.

Lemma view_invalidate c k now : view (invalidate c k).2 now = delete k (view c now).
Proof.
  apply map_eq. intros k'. rewrite view_lookup. simpl.
  destruct (decide (k = k')) as [->|Hne].
  - by rewrite !lookup_delete_eq.
  - rewrite !lookup_delete_ne by done. by rewrite view_lookup.
Qed.

Lemma view_invalidatePattern c p now :
  view (invalidatePattern c p).2 now = filter (fun kv => p kv.1 = false) (view c now).
Proof.
  apply map_eq. intros k'. rewrite view_lookup, lookup_filter_bool, view_lookup. simpl.
  rewrite lookup_filter_bool. destruct (entries c !! k') as [e|]; [|done].
  destruct (fresh now e) eqn:Hf; simpl; repeat case_bool_decide;
    unfold key_matches in *; simpl in *; rewrite ?Hf; try done;
    destruct (p k'); naive_solver.
Qed.

Lemma view_clear c now : view (clear c).2 now = ∅.
Proof. unfold view. simpl. by rewrite map_filter_empty, fmap_empty. Qed.

(** Expiry only removes entries from the view. *)
Lemma view_antitone c (t1 t2 : Z) k v :
  (t1 <= t2)%Z -> view c t2 !! k = Some v -> view c t1 !! k = Some v.
Proof.
  rewrite !view_lookup. intros Ht.
  destruct (entries c !! k) as [e|]; [|done]. unfold fresh.
  destruct (Z.ltb_spec t2 (expiresAt e)); [|done].
  destruct (Z.ltb_spec t1 (expiresAt e)); [done|lia].
Qed.

End StoreLemmas.

(** ** The host interface: where the cache and the clock live *)

Class CacheHost (W V : Type) := {
  host_cache : W -> cache V;
  host_set_cache : cache V -> W -> W;
  host_now : W -> Z
}.

Class CacheHostLaws (W V : Type) `{CacheHost W V} := {
  host_get_set c w : host_cache (host_set_cache c w) = c;
  host_set_get w : host_set_cache (host_cache w) w = w;
  host_set_set c c' w : host_set_cache c (host_set_cache c' w) = host_set_cache c w;
  host_now_set c w : host_now (host_set_cache c w) = host_now w
}.

Section GetOrFetch.
Context {W V : Type} `{CacheHost W V}.

Definition update_cache (f : cache V -> cache V) (w : W) : W :=
  host_set_cache (f (host_cache w)) w.

(** [getOrFetch(key, fetcher, {ttl, bypassCache})] *)
Definition getOrFetch (key : string) (fetcher : st W V) (ttl : option Z)
    (bypassCache : bool) : st W V :=
  fun w =>
    let c := host_cache w in
    if negb (enabled c) || bypassCache then fetcher w
    else
      match lookup c key (host_now w) with
      | (Some v, c') => (host_set_cache (count_hit c') w, Ok v)
      | (None, c') =>
          match fetcher (host_set_cache (count_miss c') w) with
          | (w2, Ok v) =>
              (update_cache (fun c2 => set c2 key v ttl (host_now w2)) w2, Ok v)
          | (w2, Err e) => (w2, Err e)
          end
      end.

End GetOrFetch.

Section GetOrFetchLemmas.
Context {W V : Type} `{HL : CacheHostLaws W V}.
Implicit Types (w : W) (key : string).

Lemma lookup_hit (c : cache V) k now v :
  view c now !! k = Some v -> lookup c k now = (Some v, c).
Proof.
  rewrite view_lookup. unfold lookup.
  destruct (entries c !! k) as [e|]; [|done].
  destruct (fresh now e); [by intros [= ->]|done].
Qed.

Lemma lookup_miss (c : cache V) k now :
  view c now !! k = None -> (lookup c k now).1 = None.
Proof. by rewrite lookup_result. Qed.

Lemma update_cache_now f w : host_now (update_cache f w) = host_now w.
Proof. apply host_now_set. Qed.

Lemma update_cache_cache f w : host_cache (update_cache f w) = f (host_cache w).
Proof. apply host_get_set. Qed.

(** The world the producer starts from after a miss. *)
Definition miss_world key w : W :=
  host_set_cache (count_miss (lookup (host_cache w) key (host_now w)).2) w.

Lemma getOrFetch_bypass key (f : st W V) ttl bypass w :
  negb (enabled (host_cache w)) || bypass = true ->
  getOrFetch key f ttl bypass w = f w.
Proof. intros Hb. unfold getOrFetch. by rewrite Hb. Qed.

Lemma getOrFetch_hit_eq key (f : st W V) ttl w v :
  enabled (host_cache w) = true ->
  view (host_cache w) (host_now w) !! key = Some v ->
  getOrFetch key f ttl false w = (update_cache count_hit w, Ok v).
Proof.
  intros He Hv. unfold getOrFetch. rewrite He. simpl.
  by rewrite (lookup_hit _ _ _ _ Hv).
Qed.

Lemma getOrFetch_miss_eq key (f : st W V) ttl w :
  enabled (host_cache w) = true ->
  view (host_cache w) (host_now w) !! key = None ->
  getOrFetch key f ttl false w =
    match f (miss_world key w) with
    | (w2, Ok v) => (update_cache (fun c2 => set c2 key v ttl (host_now w2)) w2, Ok v)
    | (w2, Err e) => (w2, Err e)
    end.
Proof.
  intros He Hv. unfold getOrFetch, miss_world. rewrite He. simpl.
  pose proof (lookup_miss _ _ _ Hv) as Hm.
  by destruct (lookup (host_cache w) key (host_now w)) as [[v|] c']; simpl in *.
Qed.

(** A value stored under [key] with a positive TTL is visible at the time
    it was stored. *)
Lemma view_after_store key v ttl w2 :
  (0 < ttl_of (host_cache w2) ttl)%Z ->
  let w' := update_cache (fun c2 => set c2 key v ttl (host_now w2)) w2 in
  view (host_cache w') (host_now w') !! key = Some v.
Proof.
  intros Ht w'. subst w'. rewrite update_cache_cache, update_cache_now, view_set.
  destruct (Z.ltb_spec (host_now w2) (host_now w2 + ttl_of (host_cache w2) ttl)); [|lia].
  apply lookup_insert_eq.
Qed.

End GetOrFetchLemmas.

Section CacheTheorems.
Context {W V : Type} `{HL : CacheHostLaws W V}.

(** A cached value: the miss that stores it and the world it leaves. *)
Lemma getOrFetch_miss_ok_inv key (f : st W V) ttl w w1 v :
  enabled (host_cache w) = true ->
  view (host_cache w) (host_now w) !! key = None ->
  getOrFetch key f ttl false w = (w1, Ok v) ->
  exists w2, f (miss_world key w) = (w2, Ok v) /\
    host_cache w1 = set (host_cache w2) key v ttl (host_now w2) /\
    host_now w1 = host_now w2.
Proof.
  intros He Hv. rewrite getOrFetch_miss_eq by done.
  destruct (f (miss_world key w)) as [w2 [v'|e]]; [|done].
  intros [= <- ->]. exists w2. split; [done|].
  by rewrite update_cache_cache, update_cache_now.
Qed.

(** [getOrFetch_ttl_window]: after a miss that stores [v] with TTL
    [ttl], a later call with the same key, in a world whose cache is the
    one the first call left, returns [v] from the cache without running
    its producer while less than [ttl] seconds have passed, and finds the
    entry gone once [ttl] seconds have passed. *)
Theorem getOrFetch_ttl_window key (f g : st W V) ttl ttl' w w1 w2 v :
  enabled (host_cache w) = true ->
  view (host_cache w) (host_now w) !! key = None ->
  getOrFetch key f (Some ttl) false w = (w1, Ok v) ->
  host_cache w2 = host_cache w1 ->
  ((host_now w2 < host_now w1 + ttl)%Z ->
     enabled (host_cache w1) = true ->
     getOrFetch key g ttl' false w2 = (update_cache count_hit w2, Ok v)) /\
  ((host_now w1 + ttl <= host_now w2)%Z ->
     view (host_cache w2) (host_now w2) !! key = None).
Proof.
  intros He Hv Hr Hc.
  destruct (getOrFetch_miss_ok_inv _ _ _ _ _ _ He Hv Hr) as (w3 & _ & Hc1 & Hn1).
  assert (Hview : view (host_cache w2) (host_now w2) =
    if Z.ltb (host_now w2) (host_now w1 + ttl)
    then <[key := v]> (view (host_cache w3) (host_now w2))
    else delete key (view (host_cache w3) (host_now w2))).
  { by rewrite Hc, Hc1, view_set, Hn1. }
  split.
  - intros Ht He1. apply getOrFetch_hit_eq; [by rewrite Hc|].
    rewrite Hview. destruct (Z.ltb_spec (host_now w2) (host_now w1 + ttl)); [|lia].
    apply lookup_insert_eq.
  - intros Ht. rewrite Hview.
    destruct (Z.ltb_spec (host_now w2) (host_now w1 + ttl)); [lia|].
    apply lookup_delete_eq.
Qed.

(** [getOrFetch_error]: when the producer of a miss throws, the error
    reaches the caller unchanged and nothing is stored: the world is the
    one the producer left. *)
Theorem getOrFetch_error key (f : st W V) ttl w w2 e :
  enabled (host_cache w) = true ->
  view (host_cache w) (host_now w) !! key = None ->
  f (miss_world key w) = (w2, Err e) ->
  getOrFetch key f ttl false w = (w2, Err e).
Proof. intros He Hv Hf. rewrite getOrFetch_miss_eq by done. by rewrite Hf. Qed.

End CacheTheorems.

(** ** Pattern invalidation *)

Section PatternTheorems.
Context {V : Type}.

(** [invalidatePattern_exact]: [invalidatePattern] removes all and only
    the keys the pattern matches, whatever their expiry, and returns how
    many it removed: the store shrinks by exactly that count. *)
Theorem invalidatePattern_exact (c : cache V) (p : string -> bool) k :
  entries (invalidatePattern c p).2 !! k = (if p k then None else entries c !! k) /\
  (invalidatePattern c p).1 + size (entries (invalidatePattern c p).2) = size (entries c).
Proof.
  split.
  - simpl. rewrite lookup_filter_bool.
    destruct (entries c !! k) as [e|]; [|by destruct (p k)].
    case_bool_decide as Hm; unfold key_matches in Hm; simpl in Hm;
      destruct (p k); naive_solver.
  - apply size_filter_complement.
Qed.

End PatternTheorems.

(** ** The store as a transition system *)

Section StoreSteps.
Context {V : Type}.

(** Every operation the store offers, the read path and the counter
    updates of [getOrFetch] included. *)
Inductive step : cache V -> cache V -> Prop :=
| step_lookup c k now : step c (lookup c k now).2
| step_hit c : step c (count_hit c)
| step_miss c : step c (count_miss c)
| step_set c k v ttl now : step c (set c k v ttl now)
| step_invalidate c k : step c (invalidate c k).2
| step_pattern c p : step c (invalidatePattern c p).2
| step_clear c : step c (clear c).2
| step_enable c : step c (enable c)
| step_disable c : step c (disable c).

Lemma step_counters c c' :
  step c c' ->
  hits c <= hits c' /\ misses c <= misses c' /\
  namespace c' = namespace c /\ defaultTTL c' = defaultTTL c.
Proof.
  destruct 1; simpl; try (repeat split; lia).
  unfold lookup. destruct (entries c !! k) as [e|]; [destruct (fresh now e)|];
    simpl; repeat split; lia.
Qed.

(** [counters_monotone]: along any sequence of store operations
    ([clear] included) the hit and miss counters never decrease, and the
    namespace and default TTL never change. *)
Theorem counters_monotone c c' :
  rtc step c c' ->
  hits c <= hits c' /\ misses c <= misses c' /\
  namespace c' = namespace c /\ defaultTTL c' = defaultTTL c.
Proof.
  induction 1 as [c|c1 c2 c3 Hs _ IH]; [done|].
  destruct (step_counters _ _ Hs) as (? & ? & ? & ?).
  destruct IH as (? & ? & ? & ?). repeat split; congruence || lia.
Qed.

End StoreSteps.

(** ** Concrete runs: a cache paired with a clock *)

#[global] Instance pair_host {V} : CacheHost (cache V * Z) V := {
  host_cache := fst;
  host_set_cache c w := (c, w.2);
  host_now := snd
}.

#[global] Instance pair_host_laws {V} : CacheHostLaws (cache V * Z) V.
Proof. split; intros; try destruct w; reflexivity. Qed.

Definition const_fetch {V} (v : V) : st (cache V * Z) V := fun w => (w, Ok v).

Definition fail_fetch {V} (msg : string) : st (cache V * Z) V :=
  fun w => (w, Err (OperationError msg)).

Definition start : cache nat * Z := (create "inflow-inventory-manager" 300, 0%Z).

(** Section 8 of the specification: [getOrFetch("p1", fetchA, {ttl: 300})]
    returns V1 with stats {hits: 0, misses: 1}; an immediate second call
    with [fetchB] returns V1 with stats {hits: 1, misses: 1}. *)
Example getOrFetch_scenario :
  let '(w1, r1) := getOrFetch "p1" (const_fetch 1) (Some 300%Z) false start in
  let '(w2, r2) := getOrFetch "p1" (const_fetch 2) (Some 300%Z) false w1 in
  r1 = Ok 1 /\ getStats w1.1 = mkStats 0 1 1 /\
  r2 = Ok 1 /\ getStats w2.1 = mkStats 1 1 1.
Proof. vm_compute. repeat split. Qed.

Lemma getOrFetch_ttl_window_witness :
  let w1 := (getOrFetch "p1" (const_fetch 1) (Some 300%Z) false start).1 in
  getOrFetch "p1" (const_fetch 2) (Some 300%Z) false (w1.1, 299%Z) =
    (update_cache count_hit (w1.1, 299%Z), Ok 1) /\
  view (w1.1, 300%Z).1 300%Z !! "p1" = None.
Proof.
  intros w1. split.
  - refine (proj1 (getOrFetch_ttl_window (W := cache nat * Z) "p1" (const_fetch 1)
                    (const_fetch 2) 300 (Some 300%Z) start w1 (w1.1, 299%Z) 1 _ _ _ _) _ _);
      reflexivity.
  - refine (proj2 (getOrFetch_ttl_window (W := cache nat * Z) "p1" (const_fetch 1)
                    (const_fetch 2) 300 (Some 300%Z) start w1 (w1.1, 300%Z) 1 _ _ _ _) _);
      reflexivity.
Defined.

Lemma getOrFetch_error_witness :
  getOrFetch "p1" (fail_fetch "down") (Some 300%Z) false start =
    (miss_world "p1" start, Err (OperationError "down")).
Proof. apply (getOrFetch_error (W := cache nat * Z)); reflexivity. Defined.

Lemma counters_monotone_witness :
  let c1 := count_miss (create (V := nat) "inflow-inventory-manager" 300) in
  let c2 := (clear c1).2 in
  rtc step (create "inflow-inventory-manager" 300) c2 /\
  (hits (create (V := nat) "inflow-inventory-manager" 300) <= hits c2 /\
   misses (create (V := nat) "inflow-inventory-manager" 300) <= misses c2 /\
   namespace c2 = namespace (create (V := nat) "inflow-inventory-manager" 300) /\
   defaultTTL c2 = defaultTTL (create (V := nat) "inflow-inventory-manager" 300)).
Proof.
  intros c1 c2.
  assert (H : rtc step (create "inflow-inventory-manager" 300) c2).
  { eapply rtc_l; [apply step_miss|]. eapply rtc_l; [apply step_clear|]. apply rtc_refl. }
  split; [exact H|]. exact (counters_monotone _ _ H).
Defined.

End Cache.
