(* ===== verification/CacheKey.v ===== *)
(** * CacheKey: [createCacheKey] and the TTL tiers of [@local/plugin-cache]

    Like the store, these come from the package [@local/plugin-cache],
    which is not in the repository: they are modelled from the
    specification (sections 4.2 and 6).
    - [createCacheKey name params] is the operation name, a colon, and the
      defined parameters in a canonical order.  The parameters arrive as a
      JS object literal, the list of its properties in the order they are
      written; a property whose value is [undefined] is dropped.  The
      canonical order is that of a [gmap], whose [map_to_list] depends only
      on the map's content.  The colon after the name is what the patterns
      [/^product:/] and [/^purchase_order:/] of the client expect.
    - [TTL_FIVE_MINUTES], [TTL_FIFTEEN_MINUTES] and [TTL_HOUR] are the three
      tiers, in seconds.

    The theorems show that the key ignores the order in which the
    parameters are written and the parameters that are [undefined], and
    that every key starts with its operation name and a colon. *)

From S2P Require Import Prelude Json.
From stdpp Require Import pretty.
Import Json.

Module CacheKey.

(** ** TTL tiers, in seconds *)

Definition TTL_FIVE_MINUTES : Z := 300.
Definition TTL_FIFTEEN_MINUTES : Z := 900.
Definition TTL_HOUR : Z := 3600.

(** ** Key derivation *)

(** The text a parameter value contributes: the client passes strings,
    integers and booleans (arrays are joined with [","] before). *)
Definition param_str (v : jsval) : string :=
  match v with
  | JStr s => s
  | JNum n => pretty n
  | JBool b => if b then "true" else "false"
  | JNull => "null"
  | _ => ""
  end.

(** One property of the literal, assigned in order: [undefined] removes the
    key, any other value sets it. *)
Definition pstep (m : gmap string string) (kv : string * jsval) : gmap string string :=
  match kv.2 with
  | JUndef => delete kv.1 m
  | v => <[kv.1 := param_str v]> m
  end.

Definition params_map (params : list (string * jsval)) : gmap string string :=
  foldl pstep ∅ params.

Definition render (m : gmap string string) : string :=
  String.concat "," (map (fun kv => (kv.1 ++ "=" ++ kv.2)%string) (map_to_list m)).

(** [createCacheKey(name, params)] *)
Definition createCacheKey (name : string) (params : list (string * jsval)) : string :=
  (name ++ ":" ++ render (params_map params))%string.

(** ** Lemmas *)

Lemma pstep_comm m a b : a.1 <> b.1 -> pstep (pstep m a) b = pstep (pstep m b) a.
Proof.
  intros Hne. destruct a as [ka va], b as [kb vb]. unfold pstep. simpl in *.
  destruct va, vb;
    first [ by apply delete_delete
          | by apply delete_insert_ne
          | by symmetry; apply delete_insert_ne
          | by apply insert_insert_ne ].
Qed.

Lemma foldl_pstep_perm l1 l2 m :
  Permutation l1 l2 -> NoDup (map fst l1) -> foldl pstep m l1 = foldl pstep m l2.
Proof.
  intros Hp. revert m. induction Hp as [|x l1 l2 _ IH|x y l|l1 l2 l3 H12 IH12 _ IH23];
    intros m Hnd; simpl in *.
  - done.
  - apply IH. by apply NoDup_cons in Hnd as [_ Hnd].
  - rewrite pstep_comm; [done|]. intros Heq.
    apply NoDup_cons in Hnd as [Hnin _]. apply Hnin. rewrite Heq. set_solver.
  - rewrite IH12 by done. apply IH23.
    by rewrite <- (Permutation_map fst H12).
Qed.

Lemma foldl_pstep_notin l m k : ~ In k (map fst l) -> foldl pstep m l !! k = m !! k.
Proof.
  revert m. induction l as [|[k' v] l IH]; intros m Hk; simpl in *; [done|].
  rewrite IH by naive_solver. unfold pstep. simpl.
  destruct v; first [by rewrite lookup_delete_ne by naive_solver
                    | by rewrite lookup_insert_ne by naive_solver].
Qed.

Lemma createCacheKey_prefix name params :
  starts_with (name ++ ":") (createCacheKey name params) = true.
Proof. unfold createCacheKey. rewrite string_app_assoc. apply starts_with_app. Qed.

(** [createCacheKey_order_independent]: two literals that list the same
    properties in different orders give the same key. *)
Theorem createCacheKey_order_independent name l1 l2 :
  NoDup (map fst l1) -> Permutation l1 l2 -> createCacheKey name l1 = createCacheKey name l2.
Proof. intros Hnd Hp. unfold createCacheKey, params_map. by rewrite (foldl_pstep_perm l1 l2). Qed.

(** [createCacheKey_undefined_irrelevant]: a property whose value is
    [undefined], wherever it is written, gives the same key as leaving it
    out. *)
Theorem createCacheKey_undefined_irrelevant name l1 l2 k :
  NoDup (map fst (l1 ++ (k, JUndef) :: l2)) ->
  createCacheKey name (l1 ++ (k, JUndef) :: l2) = createCacheKey name (l1 ++ l2).
Proof.
  intros Hnd. unfold createCacheKey, params_map.
  rewrite (foldl_pstep_perm _ ((l1 ++ l2) ++ [(k, JUndef)])); cycle 1.
  { rewrite <- app_assoc. apply Permutation_app_head. simpl.
    apply Permutation_cons_append. }
  { done. }
  rewrite foldl_app. simpl. unfold pstep at 1. simpl.
  rewrite delete_id; [done|].
  rewrite foldl_pstep_notin; [done|].
  rewrite map_app in Hnd. simpl in Hnd.
  apply NoDup_app in Hnd as (_ & Hdis & Hnd2). apply NoDup_cons in Hnd2 as [Hk2 _].
  rewrite map_app. intros [Hin|Hin]%in_app_or; apply list_elem_of_In in Hin.
  - by apply (Hdis k); [|left].
  - done.
Qed.

(** Section 8 of the specification: [createCacheKey("x", {a:1, b:2})]
    equals [createCacheKey("x", {b:2, a:1})], and
    [createCacheKey("x", {a:1, b:undefined})] equals
    [createCacheKey("x", {a:1})]. *)
Lemma createCacheKey_order_independent_witness :
  NoDup (map fst [("a", JNum 1); ("b", JNum 2)]) /\
  Permutation [("a", JNum 1); ("b", JNum 2)] [("b", JNum 2); ("a", JNum 1)] /\
  createCacheKey "x" [("a", JNum 1); ("b", JNum 2)] =
    createCacheKey "x" [("b", JNum 2); ("a", JNum 1)].
Proof.
  assert (Hnd : NoDup (map fst [("a", JNum 1); ("b", JNum 2)])) by (apply (bool_decide_unpack _); reflexivity).
  assert (Hp : Permutation [("a", JNum 1); ("b", JNum 2)] [("b", JNum 2); ("a", JNum 1)])
    by apply perm_swap.
  split; [exact Hnd|]. split; [exact Hp|].
  exact (createCacheKey_order_independent "x" _ _ Hnd Hp).
Defined.

Lemma createCacheKey_undefined_irrelevant_witness :
  NoDup (map fst ([("a", JNum 1)] ++ ("b", JUndef) :: [])) /\
  createCacheKey "x" ([("a", JNum 1)] ++ ("b", JUndef) :: []) =
    createCacheKey "x" ([("a", JNum 1)] ++ []).
Proof.
  assert (Hnd : NoDup (map fst ([("a", JNum 1)] ++ ("b", JUndef) :: [])))
    by (apply (bool_decide_unpack _); reflexivity).
  split; [exact Hnd|].
  exact (createCacheKey_undefined_irrelevant "x" [("a", JNum 1)] [] "b" Hnd).
Defined.

End CacheKey.
