(* ===== verification/Gateway.v ===== *)
(** * Gateway: the client's state, connection and [callTool]

    [src/scripts/mcp-client.ts], class [InFlowMCPClient], lines 19-184.

    The world [world] holds everything the client's methods read or change:
    the module-level [cache] (line 29), the fields [cacheDisabled] and
    [connected] of the client object, the remote service's state, the
    configuration and the process environment, the clock the cache reads
    and a log of the tool calls sent to the remote service (the client's
    only I/O).

    The remote MCP server and its SDK are an interface, the class [Remote]:
    connecting, listing tools, calling a tool and closing.  [JSON.parse] is
    the interface [JsonParse].  Neither is code of the repository.

    The operations are the methods of lines 54-184: [disableCache],
    [enableCache], [getCacheStats], [clearCache], [invalidateCacheKey],
    [connect], [disconnect], [listTools] and [callTool].  The theorems show
    that [connect] is idempotent and fails on missing credentials before
    any I/O, how [callTool] normalises every shape of answer, and that
    [callTool] sends a request at most once: a transport failure is
    returned as it is, with no retry. *)

From S2P Require Import Prelude Json Cache CacheKey.
Import Json.

Module Gateway.

(** ** The remote service *)

Record contentItem := mkContent {
  ctype : string;
  ctext : option string
}.

Record toolResult := mkToolResult {
  isError : bool;
  content : list contentItem
}.

Class Remote := {
  rstate : Type;
  r_connect : rstate -> rstate * res unit;
  r_listTools : rstate -> rstate * res (list jsval);
  r_callTool : rstate -> string -> jsobj -> rstate * res toolResult;
  r_close : rstate -> rstate
}.

Class JsonParse := {
  json_parse : string -> option jsval
}.

(** [config.json]: [mcpServer.command], [mcpServer.args], [mcpServer.env]. *)
Record config := mkConfig {
  mcp_command : string;
  mcp_args : list string;
  mcp_env : list (string * string)
}.

Section World.
Context `{Remote}.

Record world := mkWorld {
  w_cache : Cache.cache jsval;
  cacheDisabled : bool;
  connected : bool;
  w_remote : rstate;
  w_config : config;
  w_process_env : list (string * string);
  clock : Z;
  w_log : list (string * jsobj)
}.

Definition set_cache (c : Cache.cache jsval) (w : world) : world :=
  mkWorld c (cacheDisabled w) (connected w) (w_remote w) (w_config w)
    (w_process_env w) (clock w) (w_log w).

Definition set_cacheDisabled (b : bool) (w : world) : world :=
  mkWorld (w_cache w) b (connected w) (w_remote w) (w_config w)
    (w_process_env w) (clock w) (w_log w).

Definition set_connected (b : bool) (w : world) : world :=
  mkWorld (w_cache w) (cacheDisabled w) b (w_remote w) (w_config w)
    (w_process_env w) (clock w) (w_log w).

Definition set_remote (r : rstate) (w : world) : world :=
  mkWorld (w_cache w) (cacheDisabled w) (connected w) r (w_config w)
    (w_process_env w) (clock w) (w_log w).

Definition log_call (name : string) (args : jsobj) (w : world) : world :=
  mkWorld (w_cache w) (cacheDisabled w) (connected w) (w_remote w) (w_config w)
    (w_process_env w) (clock w) (w_log w ++ [(name, args)]).

Definition advance (d : Z) (w : world) : world :=
  mkWorld (w_cache w) (cacheDisabled w) (connected w) (w_remote w) (w_config w)
    (w_process_env w) (clock w + d) (w_log w).

#[global] Instance world_cache_host : Cache.CacheHost world jsval := {
  Cache.host_cache := w_cache;
  Cache.host_set_cache := set_cache;
  Cache.host_now := clock
}.

#[global] Instance world_cache_host_laws : Cache.CacheHostLaws world jsval.
Proof. split; intros; try destruct w; reflexivity. Qed.

(** ** Cache control (lines 54-89) *)

Definition disableCache : st world unit :=
  modify (fun w => set_cache (Cache.disable (w_cache w)) (set_cacheDisabled true w)).

Definition enableCache : st world unit :=
  modify (fun w => set_cache (Cache.enable (w_cache w)) (set_cacheDisabled false w)).

Definition getCacheStats : st world Cache.stats :=
  gets (fun w => Cache.getStats (w_cache w)).

Definition clearCache : st world nat :=
  fun w => let '(n, c) := Cache.clear (w_cache w) in (set_cache c w, Ok n).

Definition invalidateCacheKey (key : string) : st world bool :=
  fun w => let '(b, c) := Cache.invalidate (w_cache w) key in (set_cache c w, Ok b).

(** The purge the write methods run after a successful write:
    [cache.invalidatePattern(/^p/)]. *)
Definition invalidatePrefix (p : string) : st world unit :=
  fun w => (set_cache (Cache.invalidatePattern (w_cache w) (starts_with p)).2 w, Ok tt).

(** ** Connection management (lines 99-154) *)

Fixpoint assoc (k : string) (l : list (string * string)) : option string :=
  match l with
  | [] => None
  | (k', v) :: l' => if String.eqb k k' then Some v else assoc k l'
  end.

(** [{...process.env, ...this.config.mcpServer.env}][k]: the configuration
    overrides the process environment. *)
Definition env_lookup (w : world) (k : string) : option string :=
  match assoc k (mcp_env (w_config w)) with
  | Some v => Some v
  | None => assoc k (w_process_env w)
  end.

(** [!env.k]: undefined or empty. *)
Definition env_missing (w : world) (k : string) : bool :=
  match env_lookup w k with
  | Some v => String.eqb v ""
  | None => true
  end.

Definition msg_no_api_key : string :=
  "INFLOW_API_KEY environment variable is not set. Please export it in your shell or add it to ~/.bashrc".
Definition msg_no_company_id : string :=
  "INFLOW_COMPANY_ID environment variable is not set. Please export it in your shell or add it to ~/.bashrc".

Definition connect : st world unit :=
  fun w =>
    if connected w then (w, Ok tt)
    else if env_missing w "INFLOW_API_KEY" then (w, Err (ConfigurationError msg_no_api_key))
    else if env_missing w "INFLOW_COMPANY_ID" then (w, Err (ConfigurationError msg_no_company_id))
    else
      let '(r, out) := r_connect (w_remote w) in
      match out with
      | Ok _ => (set_connected true (set_remote r w), Ok tt)
      | Err e => (set_remote r w, Err e)
      end.

Definition disconnect : st world unit :=
  fun w =>
    if connected w then (set_connected false (set_remote (r_close (w_remote w)) w), Ok tt)
    else (w, Ok tt).

Definition listTools : st world (list jsval) :=
  connect ;;
  fun w => let '(r, out) := r_listTools (w_remote w) in (set_remote r w, out).

(** ** [callTool] (lines 163-184) *)

Context `{JsonParse}.

(** The raw [content] array, returned when no text part carries text. *)
Definition content_json (cs : list contentItem) : jsval :=
  JArr (map (fun c => JObj (("type", JStr (ctype c)) ::
                            match ctext c with Some t => [("text", JStr t)] | None => [] end)) cs).

(** [content.find((c) => c.type === "text")] *)
Definition find_text (cs : list contentItem) : option contentItem :=
  List.find (fun c => String.eqb (ctype c) "text") cs.

(** [c?.text] when it is a non-empty string. *)
Definition text_of (c : option contentItem) : option string :=
  match c with
  | Some {| ctext := Some t |} => if String.eqb t "" then None else Some t
  | _ => None
  end.

(** The transport call, recorded in the log. *)
Definition send (name : string) (args : jsobj) : st world toolResult :=
  fun w =>
    let '(r, out) := r_callTool (w_remote w) name args in
    (set_remote r (log_call name args w), out).

(** What [callTool] makes of the server's answer. *)
Definition normalize (r : toolResult) : res jsval :=
  if isError r then
    Err (OperationError (match text_of (find_text (content r)) with
                         | Some t => t
                         | None => "Tool call failed"
                         end))
  else
    match text_of (find_text (content r)) with
    | Some t => match json_parse t with Some v => Ok v | None => Ok (JStr t) end
    | None => Ok (content_json (content r))
    end.

Definition callTool (name : string) (args : jsobj) : st world jsval :=
  connect ;;
  r <- send name args ;;
  lift_res (normalize r).

End World.

Arguments world : clear implicits.

(** ** Theorems *)

Section GatewayTheorems.
Context `{Remote} `{JsonParse}.

Lemma connect_connected w : connected w = true -> connect w = (w, Ok tt).
Proof. intros Hc. unfold connect. by rewrite Hc. Qed.

(** [connect_idempotent]: a successful [connect] leaves the client
    connected, and every later [connect] does nothing. *)
Theorem connect_idempotent w w' :
  connect w = (w', Ok tt) -> connected w' = true /\ connect w' = (w', Ok tt).
Proof.
  unfold connect. destruct (connected w) eqn:Hc.
  - intros [= <-]. by rewrite Hc.
  - destruct (env_missing w "INFLOW_API_KEY"); [done|].
    destruct (env_missing w "INFLOW_COMPANY_ID"); [done|].
    destruct (r_connect (w_remote w)) as [r [u|e]]; [|done].
    intros [= <-]. done.
Qed.

(** C17 [connect_missing_credentials]: a client that is not connected and
    has no API key, or no company id, in the merged environment fails with
    a [ConfigurationError] naming the missing variable, before any I/O:
    the world is unchanged. *)
Theorem connect_missing_credentials w :
  connected w = false ->
  (env_missing w "INFLOW_API_KEY" = true ->
     connect w = (w, Err (ConfigurationError msg_no_api_key))) /\
  (env_missing w "INFLOW_API_KEY" = false -> env_missing w "INFLOW_COMPANY_ID" = true ->
     connect w = (w, Err (ConfigurationError msg_no_company_id))).
Proof.
  intros Hc. unfold connect. rewrite Hc.
  split; [by intros ->|]. by intros -> ->.
Qed.

(** The world after a transport call on a connected client. *)
Lemma callTool_connected name args w r out :
  connected w = true ->
  r_callTool (w_remote w) name args = (r, out) ->
  callTool name args w =
    (set_remote r (log_call name args w),
     match out with Ok t => normalize t | Err e => Err e end).
Proof.
  intros Hc Hr. unfold callTool, bind. rewrite connect_connected by done.
  unfold send. rewrite Hr. destruct out as [t|e]; [|done].
  unfold lift_res. by destruct (normalize t).
Qed.

(** C18 [callTool_answers]: on a connected client, an answer that the
    server flags as an error raises an [OperationError] carrying the text
    of its first text part, or ["Tool call failed"] when that text is
    missing or empty; any other answer is returned and never raises: the
    parsed JSON of its first non-empty text part, that text itself when it
    is not JSON, or the raw content otherwise. *)
Theorem callTool_answers name args w r t :
  connected w = true ->
  r_callTool (w_remote w) name args = (r, Ok t) ->
  let w' := set_remote r (log_call name args w) in
  (isError t = true ->
     callTool name args w =
       (w', Err (OperationError (default "Tool call failed" (text_of (find_text (content t))))))) /\
  (isError t = false ->
     callTool name args w =
       (w', Ok (match text_of (find_text (content t)) with
                | Some s => default (JStr s) (json_parse s)
                | None => content_json (content t)
                end))).
Proof.
  intros Hc Hr w'. rewrite (callTool_connected _ _ _ _ _ Hc Hr). unfold normalize.
  split; intros ->; [by destruct (text_of _)|].
  destruct (text_of _) as [s|]; [|done]. by destruct (json_parse s).
Qed.

(** C19 [callTool_sends_once]: [callTool] makes at most one attempt.
    Either the connection fails before anything is sent (the log is
    unchanged and the call fails), or exactly one request [(name, args)] is
    sent; and when that request fails in transport the failure is returned
    as it is, without a second attempt. *)
Theorem callTool_sends_once name args w :
  let '(w', out) := callTool name args w in
  ((w_log w' = w_log w /\ connected w = false /\ exists e, out = Err e) \/
   w_log w' = w_log w ++ [(name, args)]) /\
  (forall r e, connected w = true -> r_callTool (w_remote w) name args = (r, Err e) -> out = Err e).
Proof.
  destruct (callTool name args w) as [w' out] eqn:Ecall. split.
  - revert Ecall. unfold callTool, bind, connect.
    destruct (connected w) eqn:Hc; [|destruct (env_missing w "INFLOW_API_KEY");
      [|destruct (env_missing w "INFLOW_COMPANY_ID");
        [|destruct (r_connect (w_remote w)) as [r0 [u|e0]]]]];
      try (intros [= <- <-]; left; eauto; fail);
      unfold send; destruct (r_callTool _ name args) as [r [t|e]];
      unfold lift_res; try destruct (normalize t); intros [= <- <-]; right; reflexivity.
  - intros r e Hc Hr. revert Ecall. unfold callTool, bind. rewrite connect_connected by done.
    unfold send. rewrite Hr. by intros [= _ <-].
Qed.

End GatewayTheorems.

(** ** A scripted remote service, for concrete runs

    The server answers the tool calls from a queue of prepared answers and
    [JSON.parse] reads a table of known texts: the witnesses of the
    theorems run the client against them. *)

Module Fixture.

#[global] Instance scripted : Remote := {|
  rstate := list (res toolResult);
  r_connect r := (r, Ok tt);
  r_listTools r := (r, Ok []);
  r_callTool r _ _ :=
    match r with
    | [] => ([], Err (OperationError "no answer"))
    | a :: r' => (r', a)
    end;
  r_close r := r
|}.

Definition table_parser (tbl : list (string * jsval)) : JsonParse :=
  {| json_parse s := option_map snd (List.find (fun kv => String.eqb kv.1 s) tbl) |}.

Definition good_env : list (string * string) :=
  [("INFLOW_API_KEY", "key"); ("INFLOW_COMPANY_ID", "company")].

Definition world0 (answers : list (res toolResult)) (env : list (string * string)) :
    world scripted :=
  mkWorld (Cache.create "inflow-inventory-manager" CacheKey.TTL_FIVE_MINUTES) false false answers
    (mkConfig "inflow-mcp" [] []) env 0 [].

(** A successful answer whose single text part is [t]. *)
Definition text_answer (t : string) : res toolResult :=
  Ok (mkToolResult false [mkContent "text" (Some t)]).

Definition error_answer (t : string) : res toolResult :=
  Ok (mkToolResult true [mkContent "text" (Some t)]).

End Fixture.

Import Fixture.

Lemma connect_idempotent_witness :
  let w1 := set_connected true (world0 [] good_env) in
  connect (world0 [] good_env) = (w1, Ok tt) /\
  (connected w1 = true /\ connect w1 = (w1, Ok tt)).
Proof.
  intros w1. split; [reflexivity|]. apply (connect_idempotent (world0 [] good_env)). reflexivity.
Defined.

Lemma connect_missing_credentials_witness :
  connected (world0 [] []) = false /\
  connect (world0 [] []) = (world0 [] [], Err (ConfigurationError msg_no_api_key)).
Proof.
  split; [reflexivity|].
  apply (proj1 (connect_missing_credentials (world0 [] []) eq_refl)). reflexivity.
Defined.

Lemma callTool_answers_witness :
  let w := set_connected true (world0 [text_answer "not json"] good_env) in
  let _ : JsonParse := table_parser [] in
  callTool "list_locations" [] w =
    (set_remote [] (log_call "list_locations" [] w), Ok (JStr "not json")).
Proof.
  intros w jp.
  etransitivity; [apply (proj2 (callTool_answers "list_locations" [] w [] _ eq_refl eq_refl) eq_refl)|].
  reflexivity.
Defined.

(** The transport fails on the only request: one entry in the log, and the
    failure comes back unchanged. *)
Lemma callTool_sends_once_witness :
  let _ : JsonParse := table_parser [] in
  let w := set_connected true (world0 [Err (OperationError "socket hang up")] good_env) in
  r_callTool (w_remote w) "list_products" [] = ([], Err (OperationError "socket hang up")) /\
  (callTool "list_products" [] w).2 = Err (OperationError "socket hang up").
Proof.
  intros jp w. split; [reflexivity|].
  pose proof (callTool_sends_once "list_products" [] w) as H.
  destruct (callTool "list_products" [] w) as [w' out]. simpl.
  exact (proj2 H [] _ eq_refl eq_refl).
Defined.

End Gateway.
