(* ===== verification/Accessors.v ===== *)
(** * Accessors: the cached read methods of [InFlowMCPClient]

    [src/scripts/mcp-client.ts] lines 190-883 and 1153-1209, 1311-1359,
    1426-1437, 1638-1646.  Every read method builds a key with
    [createCacheKey] from the operation name and its own parameters, builds
    the tool arguments (an option is passed on only when it is truthy), and
    delegates to [cache.getOrFetch] with its TTL tier and
    [bypassCache: this.cacheDisabled].  [getStockLevels] validates its
    identifier first; [getVendor] is not cached; [getStockByLocation] and
    [getCompanyInfo] always throw.

    [read_op] enumerates the read interface, [run_read] runs one read and
    [read_plan] gives its cache key, tool, arguments and TTL.  The theorems
    show that a read with the cache disabled goes to the server and leaves
    the store untouched, that a fresh entry is served without any I/O,
    that a stored answer is served for exactly its TTL, and that the
    identifier check of [getStockLevels] fails before any I/O, and that
    two reads presenting the same key name and parameter values send the
    same request, so the cache never answers one request with another's
    result (include lists excepted when their names contain commas or
    are empty, see [include_join_collision]).  The frame
    lemmas [callTool_frame] say what a server call can change. *)

From S2P Require Import Prelude Json Cache CacheKey Gateway.
Import Json CacheKey Gateway.

Module Accessors.

(** ** JS helpers *)

Definition num_opt (o : option Z) : jsval :=
  match o with Some n => JNum n | None => JUndef end.

Definition str_opt (o : option string) : jsval :=
  match o with Some s => JStr s | None => JUndef end.

Definition bool_opt (o : option bool) : jsval :=
  match o with Some b => JBool b | None => JUndef end.

(** [options?.include?.join(",")] *)
Definition join_opt (o : option (list string)) : jsval :=
  match o with Some l => JStr (String.concat "," l) | None => JUndef end.

(** [options?.include] passed on as an array. *)
Definition arr_opt (o : option (list string)) : jsval :=
  match o with Some l => JArr (map JStr l) | None => JUndef end.

(** [if (v) args.k = v;] *)
Definition set_if (k : string) (v : jsval) (args : jsobj) : jsobj :=
  if truthy v then obj_set args k v else args.

Section Reads.
Context `{Remote} `{JsonParse}.

(** [cache.getOrFetch(key, fetcher, {ttl, bypassCache: this.cacheDisabled})] *)
Definition cached (key : string) (fetch : st (world _) jsval) (ttl : Z) : st (world _) jsval :=
  fun w => Cache.getOrFetch key fetch (Some ttl) (cacheDisabled w) w.

(** ** Products (lines 190-347) *)

Record listProductsOpts := mkListProductsOpts {
  lp_limit : option Z; lp_skip : option Z; lp_filter : option string;
  lp_categoryId : option string; lp_categoryName : option string
}.

Definition listProducts_params (o : listProductsOpts) : list (string * jsval) :=
  [("limit", num_opt (lp_limit o)); ("skip", num_opt (lp_skip o));
   ("filter", str_opt (lp_filter o)); ("categoryId", str_opt (lp_categoryId o));
   ("categoryName", str_opt (lp_categoryName o))].

Definition listProducts_key (o : listProductsOpts) : string :=
  createCacheKey "products" (listProducts_params o).

Definition listProducts_args (o : listProductsOpts) : jsobj :=
  set_if "categoryName" (str_opt (lp_categoryName o))
    (set_if "categoryId" (str_opt (lp_categoryId o))
      (set_if "smart" (str_opt (lp_filter o))
        (set_if "skip" (num_opt (lp_skip o))
          (set_if "count" (num_opt (lp_limit o)) [])))).

Definition listProducts (o : listProductsOpts) : st (world _) jsval :=
  cached (listProducts_key o) (callTool "list_products" (listProducts_args o))
    TTL_FIFTEEN_MINUTES.

Definition getProduct_params (productId : string) (include : option (list string)) :
    list (string * jsval) :=
  [("id", JStr productId); ("include", join_opt include)].

Definition getProduct_key (productId : string) (include : option (list string)) : string :=
  createCacheKey "product" (getProduct_params productId include).

Definition getProduct (productId : string) (include : option (list string)) : st (world _) jsval :=
  cached (getProduct_key productId include)
    (callTool "get_product" (set_if "include" (arr_opt include) [("productId", JStr productId)]))
    TTL_FIFTEEN_MINUTES.

Definition searchProducts (query : string) : st (world _) jsval :=
  cached (createCacheKey "products_search" [("query", JStr query)])
    (callTool "list_products" [("smart", JStr query)]) TTL_FIFTEEN_MINUTES.

Definition getBillOfMaterials (productId : string) : st (world _) jsval :=
  cached (createCacheKey "bom" [("productId", JStr productId)])
    (callTool "get_bill_of_materials" [("productId", JStr productId)]) TTL_HOUR.

Definition listCategories : st (world _) jsval :=
  cached "categories" (callTool "list_categories" [("count", JNum 100)]) TTL_HOUR.

Definition getProductWithBom (productId : string) : st (world _) jsval :=
  cached (createCacheKey "product_bom" [("productId", JStr productId)])
    (callTool "get_product" [("productId", JStr productId); ("include", JArr [JStr "itemBoms"])])
    TTL_FIFTEEN_MINUTES.

(** ** Stock (lines 353-387) *)

Definition msg_stock_requires_product : string :=
  "productId is required for get_inventory_summary. Use list-products first to get product IDs.".

Definition getStockLevels (productId : option string) : st (world _) jsval :=
  if negb (truthy (str_opt productId)) then throw (ValidationError msg_stock_requires_product)
  else
    let p := default "" productId in
    cached (createCacheKey "stock" [("productId", JStr p)])
      (callTool "get_inventory_summary" [("productId", JStr p)]) TTL_FIVE_MINUTES.

Definition getStockByLocation (locationId : option string) : st (world _) jsval :=
  throw (ValidationError "Stock by location requires listing products first, then calling get-stock-levels for each. This command is not directly supported.").

(** ** Stock adjustments, transfers and counts (lines 393-682) *)

Definition listStockAdjustments (limit : option Z) : st (world _) jsval :=
  cached (createCacheKey "stock_adjustments" [("limit", num_opt limit)])
    (callTool "list_stock_adjustments" (set_if "limit" (num_opt limit) [])) TTL_FIVE_MINUTES.

Definition getStockAdjustment (adjustmentId : string) : st (world _) jsval :=
  cached (createCacheKey "stock_adjustment" [("id", JStr adjustmentId)])
    (callTool "get_stock_adjustment" [("adjustmentId", JStr adjustmentId)]) TTL_FIVE_MINUTES.

Record listStockTransfersOpts := mkListStockTransfersOpts {
  lt_limit : option Z; lt_status : option string;
  lt_fromLocationId : option string; lt_toLocationId : option string
}.

Definition listStockTransfers (o : listStockTransfersOpts) : st (world _) jsval :=
  cached (createCacheKey "stock_transfers"
            [("limit", num_opt (lt_limit o)); ("status", str_opt (lt_status o));
             ("fromLocationId", str_opt (lt_fromLocationId o));
             ("toLocationId", str_opt (lt_toLocationId o))])
    (callTool "list_stock_transfers"
       (set_if "toLocationId" (str_opt (lt_toLocationId o))
         (set_if "fromLocationId" (str_opt (lt_fromLocationId o))
           (set_if "status" (str_opt (lt_status o))
             (set_if "count" (num_opt (lt_limit o)) [])))))
    TTL_FIVE_MINUTES.

Definition getStockTransfer (transferId : string) : st (world _) jsval :=
  cached (createCacheKey "stock_transfer" [("id", JStr transferId)])
    (callTool "get_stock_transfer" [("transferId", JStr transferId)]) TTL_FIVE_MINUTES.

Record listStockCountsOpts := mkListStockCountsOpts {
  lc_limit : option Z; lc_status : option string; lc_locationId : option string
}.

Definition listStockCounts (o : listStockCountsOpts) : st (world _) jsval :=
  cached (createCacheKey "stock_counts"
            [("limit", num_opt (lc_limit o)); ("status", str_opt (lc_status o));
             ("locationId", str_opt (lc_locationId o))])
    (callTool "list_stock_counts"
       (set_if "locationId" (str_opt (lc_locationId o))
         (set_if "status" (str_opt (lc_status o))
           (set_if "count" (num_opt (lc_limit o)) []))))
    TTL_FIVE_MINUTES.

Definition getStockCount (stockCountId : string) : st (world _) jsval :=
  cached (createCacheKey "stock_count" [("id", JStr stockCountId)])
    (callTool "get_stock_count" [("stockCountId", JStr stockCountId)]) TTL_FIVE_MINUTES.

Definition listAdjustmentReasons : st (world _) jsval :=
  cached "adjustment_reasons" (callTool "list_adjustment_reasons" []) TTL_HOUR.

(** ** Sales and purchase orders (lines 688-846) *)

Record listOrdersOpts := mkListOrdersOpts {
  lo_limit : option Z; lo_skip : option Z; lo_status : option string;
  lo_include : option (list string)
}.

Definition listOrders_args (o : listOrdersOpts) : jsobj :=
  set_if "include" (arr_opt (lo_include o))
    (set_if "status" (str_opt (lo_status o))
      (set_if "skip" (num_opt (lo_skip o))
        (set_if "count" (num_opt (lo_limit o)) []))).

Definition listOrders_params (o : listOrdersOpts) : list (string * jsval) :=
  [("limit", num_opt (lo_limit o)); ("skip", num_opt (lo_skip o));
   ("status", str_opt (lo_status o)); ("include", join_opt (lo_include o))].

Definition listSalesOrders (o : listOrdersOpts) : st (world _) jsval :=
  cached (createCacheKey "sales_orders" (listOrders_params o))
    (callTool "list_sales_orders" (listOrders_args o)) TTL_FIVE_MINUTES.

Definition getSalesOrder (orderId : string) (include : option (list string)) : st (world _) jsval :=
  cached (createCacheKey "sales_order" [("id", JStr orderId); ("include", join_opt include)])
    (callTool "get_sales_order" (set_if "include" (arr_opt include) [("salesOrderId", JStr orderId)]))
    TTL_FIVE_MINUTES.

Definition searchSalesOrders (query : string) : st (world _) jsval :=
  cached (createCacheKey "sales_orders_search" [("query", JStr query)])
    (callTool "list_sales_orders" [("smart", JStr query)]) TTL_FIVE_MINUTES.

Definition listPurchaseOrders (o : listOrdersOpts) : st (world _) jsval :=
  cached (createCacheKey "purchase_orders" (listOrders_params o))
    (callTool "list_purchase_orders" (listOrders_args o)) TTL_FIVE_MINUTES.

Definition getPurchaseOrder (orderId : string) (include : option (list string)) : st (world _) jsval :=
  cached (createCacheKey "purchase_order" [("id", JStr orderId); ("include", join_opt include)])
    (callTool "get_purchase_order"
       (set_if "include" (arr_opt include) [("purchaseOrderId", JStr orderId)]))
    TTL_FIVE_MINUTES.

(** ** Locations (lines 852-883) *)

Definition listLocations : st (world _) jsval :=
  cached "locations" (callTool "list_locations" []) TTL_HOUR.

Definition getLocation (locationId : string) : st (world _) jsval :=
  cached (createCacheKey "location" [("id", JStr locationId)])
    (callTool "get_location" [("locationId", JStr locationId)]) TTL_HOUR.

(** ** Product-based serial lookups (lines 1153-1209) *)

Definition getProductSerials (productId : string) : st (world _) jsval :=
  cached (createCacheKey "product_serials" [("productId", JStr productId)])
    (callTool "get_product_serials" [("productId", JStr productId)]) TTL_FIFTEEN_MINUTES.

Definition listAllSerials (maxProducts : option Z) (inStockOnly : option bool) : st (world _) jsval :=
  cached (createCacheKey "all_serials"
            [("maxProducts", num_opt maxProducts); ("inStockOnly", bool_opt inStockOnly)])
    (callTool "list_all_serials"
       (set_if "inStockOnly" (bool_opt inStockOnly)
         (set_if "maxProducts" (num_opt maxProducts) [])))
    TTL_FIFTEEN_MINUTES.

(** ** Customers, vendors, company (lines 1311-1359, 1426-1437, 1638-1646) *)

Definition listCustomers (limit : option Z) : st (world _) jsval :=
  cached (createCacheKey "customers" [("limit", num_opt limit)])
    (callTool "list_customers" (set_if "limit" (num_opt limit) [])) TTL_FIFTEEN_MINUTES.

Definition listVendors (limit : option Z) : st (world _) jsval :=
  cached (createCacheKey "vendors" [("limit", num_opt limit)])
    (callTool "list_vendors" (set_if "limit" (num_opt limit) [])) TTL_FIFTEEN_MINUTES.

(** Never cached: the update flows need a fresh optimistic-locking
    timestamp. *)
Definition getVendor (vendorId : string) : st (world _) jsval :=
  callTool "get_vendor" [("vendorId", JStr vendorId)].

Definition getCompanyInfo : st (world _) jsval :=
  throw (ValidationError "Company info endpoint is not available via MCP. Company ID is set via INFLOW_COMPANY_ID environment variable.").

End Reads.

(** ** The read interface *)

Inductive read_op :=
| RListProducts (o : listProductsOpts)
| RGetProduct (productId : string) (include : option (list string))
| RSearchProducts (query : string)
| RGetBillOfMaterials (productId : string)
| RListCategories
| RGetProductWithBom (productId : string)
| RGetStockLevels (productId : option string)
| RListStockAdjustments (limit : option Z)
| RGetStockAdjustment (adjustmentId : string)
| RListStockTransfers (o : listStockTransfersOpts)
| RGetStockTransfer (transferId : string)
| RListStockCounts (o : listStockCountsOpts)
| RGetStockCount (stockCountId : string)
| RListAdjustmentReasons
| RListSalesOrders (o : listOrdersOpts)
| RGetSalesOrder (orderId : string) (include : option (list string))
| RSearchSalesOrders (query : string)
| RListPurchaseOrders (o : listOrdersOpts)
| RGetPurchaseOrder (orderId : string) (include : option (list string))
| RListLocations
| RGetLocation (locationId : string)
| RGetProductSerials (productId : string)
| RListAllSerials (maxProducts : option Z) (inStockOnly : option bool)
| RListCustomers (limit : option Z)
| RListVendors (limit : option Z).

Section ReadInterface.
Context `{Remote} `{JsonParse}.

Definition run_read (r : read_op) : st (world _) jsval :=
  match r with
  | RListProducts o => listProducts o
  | RGetProduct p i => getProduct p i
  | RSearchProducts q => searchProducts q
  | RGetBillOfMaterials p => getBillOfMaterials p
  | RListCategories => listCategories
  | RGetProductWithBom p => getProductWithBom p
  | RGetStockLevels p => getStockLevels p
  | RListStockAdjustments l => listStockAdjustments l
  | RGetStockAdjustment a => getStockAdjustment a
  | RListStockTransfers o => listStockTransfers o
  | RGetStockTransfer t => getStockTransfer t
  | RListStockCounts o => listStockCounts o
  | RGetStockCount c => getStockCount c
  | RListAdjustmentReasons => listAdjustmentReasons
  | RListSalesOrders o => listSalesOrders o
  | RGetSalesOrder o i => getSalesOrder o i
  | RSearchSalesOrders q => searchSalesOrders q
  | RListPurchaseOrders o => listPurchaseOrders o
  | RGetPurchaseOrder o i => getPurchaseOrder o i
  | RListLocations => listLocations
  | RGetLocation l => getLocation l
  | RGetProductSerials p => getProductSerials p
  | RListAllSerials m i => listAllSerials m i
  | RListCustomers l => listCustomers l
  | RListVendors l => listVendors l
  end.

End ReadInterface.

(** What a read does: its cache key, tool, arguments and TTL, or the
    validation error it raises first.  The key is [createCacheKey] of an
    operation name and a parameter literal ([p_params = Some ps]), or a
    literal string ([p_params = None]: ["categories"], ["locations"],
    ["adjustment_reasons"]). *)
Record plan := mkPlan {
  p_name : string; p_params : option (list (string * jsval));
  p_tool : string; p_args : jsobj; p_ttl : Z }.

Definition p_key (p : plan) : string :=
  match p_params p with
  | Some ps => createCacheKey (p_name p) ps
  | None => p_name p
  end.

Definition read_plan (r : read_op) : res plan :=
  match r with
  | RListProducts o => Ok (mkPlan "products" (Some (listProducts_params o)) "list_products" (listProducts_args o) TTL_FIFTEEN_MINUTES)
  | RGetProduct p i => Ok (mkPlan "product" (Some (getProduct_params p i)) "get_product"
                             (set_if "include" (arr_opt i) [("productId", JStr p)]) TTL_FIFTEEN_MINUTES)
  | RSearchProducts q => Ok (mkPlan "products_search" (Some [("query", JStr q)])
                             "list_products" [("smart", JStr q)] TTL_FIFTEEN_MINUTES)
  | RGetBillOfMaterials p => Ok (mkPlan "bom" (Some [("productId", JStr p)])
                             "get_bill_of_materials" [("productId", JStr p)] TTL_HOUR)
  | RListCategories => Ok (mkPlan "categories" None "list_categories" [("count", JNum 100)] TTL_HOUR)
  | RGetProductWithBom p => Ok (mkPlan "product_bom" (Some [("productId", JStr p)])
                             "get_product" [("productId", JStr p); ("include", JArr [JStr "itemBoms"])]
                             TTL_FIFTEEN_MINUTES)
  | RGetStockLevels p =>
      if negb (truthy (str_opt p)) then Err (ValidationError msg_stock_requires_product)
      else Ok (mkPlan "stock" (Some [("productId", JStr (default "" p))])
                 "get_inventory_summary" [("productId", JStr (default "" p))] TTL_FIVE_MINUTES)
  | RListStockAdjustments l => Ok (mkPlan "stock_adjustments" (Some [("limit", num_opt l)])
                             "list_stock_adjustments" (set_if "limit" (num_opt l) []) TTL_FIVE_MINUTES)
  | RGetStockAdjustment a => Ok (mkPlan "stock_adjustment" (Some [("id", JStr a)])
                             "get_stock_adjustment" [("adjustmentId", JStr a)] TTL_FIVE_MINUTES)
  | RListStockTransfers o => Ok (mkPlan "stock_transfers" (Some
            [("limit", num_opt (lt_limit o)); ("status", str_opt (lt_status o));
             ("fromLocationId", str_opt (lt_fromLocationId o));
             ("toLocationId", str_opt (lt_toLocationId o))])
            "list_stock_transfers"
            (set_if "toLocationId" (str_opt (lt_toLocationId o))
              (set_if "fromLocationId" (str_opt (lt_fromLocationId o))
                (set_if "status" (str_opt (lt_status o))
                  (set_if "count" (num_opt (lt_limit o)) [])))) TTL_FIVE_MINUTES)
  | RGetStockTransfer t => Ok (mkPlan "stock_transfer" (Some [("id", JStr t)])
                             "get_stock_transfer" [("transferId", JStr t)] TTL_FIVE_MINUTES)
  | RListStockCounts o => Ok (mkPlan "stock_counts" (Some
            [("limit", num_opt (lc_limit o)); ("status", str_opt (lc_status o));
             ("locationId", str_opt (lc_locationId o))])
            "list_stock_counts"
            (set_if "locationId" (str_opt (lc_locationId o))
              (set_if "status" (str_opt (lc_status o))
                (set_if "count" (num_opt (lc_limit o)) []))) TTL_FIVE_MINUTES)
  | RGetStockCount c => Ok (mkPlan "stock_count" (Some [("id", JStr c)])
                             "get_stock_count" [("stockCountId", JStr c)] TTL_FIVE_MINUTES)
  | RListAdjustmentReasons => Ok (mkPlan "adjustment_reasons" None "list_adjustment_reasons" [] TTL_HOUR)
  | RListSalesOrders o => Ok (mkPlan "sales_orders" (Some (listOrders_params o))
                             "list_sales_orders" (listOrders_args o) TTL_FIVE_MINUTES)
  | RGetSalesOrder o i => Ok (mkPlan "sales_order" (Some [("id", JStr o); ("include", join_opt i)])
                             "get_sales_order" (set_if "include" (arr_opt i) [("salesOrderId", JStr o)])
                             TTL_FIVE_MINUTES)
  | RSearchSalesOrders q => Ok (mkPlan "sales_orders_search" (Some [("query", JStr q)])
                             "list_sales_orders" [("smart", JStr q)] TTL_FIVE_MINUTES)
  | RListPurchaseOrders o => Ok (mkPlan "purchase_orders" (Some (listOrders_params o))
                             "list_purchase_orders" (listOrders_args o) TTL_FIVE_MINUTES)
  | RGetPurchaseOrder o i => Ok (mkPlan "purchase_order" (Some [("id", JStr o); ("include", join_opt i)])
                             "get_purchase_order"
                             (set_if "include" (arr_opt i) [("purchaseOrderId", JStr o)]) TTL_FIVE_MINUTES)
  | RListLocations => Ok (mkPlan "locations" None "list_locations" [] TTL_HOUR)
  | RGetLocation l => Ok (mkPlan "location" (Some [("id", JStr l)])
                             "get_location" [("locationId", JStr l)] TTL_HOUR)
  | RGetProductSerials p => Ok (mkPlan "product_serials" (Some [("productId", JStr p)])
                             "get_product_serials" [("productId", JStr p)] TTL_FIFTEEN_MINUTES)
  | RListAllSerials m i => Ok (mkPlan "all_serials" (Some
                               [("maxProducts", num_opt m); ("inStockOnly", bool_opt i)])
                             "list_all_serials"
                             (set_if "inStockOnly" (bool_opt i) (set_if "maxProducts" (num_opt m) []))
                             TTL_FIFTEEN_MINUTES)
  | RListCustomers l => Ok (mkPlan "customers" (Some [("limit", num_opt l)])
                             "list_customers" (set_if "limit" (num_opt l) []) TTL_FIFTEEN_MINUTES)
  | RListVendors l => Ok (mkPlan "vendors" (Some [("limit", num_opt l)])
                             "list_vendors" (set_if "limit" (num_opt l) []) TTL_FIFTEEN_MINUTES)
  end.

Section ReadTheorems.
Context `{Remote} `{JsonParse}.

(** Every read is the plan it announces. *)
Lemma run_read_plan r :
  run_read r =
    match read_plan r with
    | Ok p => cached (p_key p) (callTool (p_tool p) (p_args p)) (p_ttl p)
    | Err e => throw e
    end.
Proof. destruct r; try reflexivity. simpl. unfold getStockLevels. by destruct (negb _). Qed.

(** The gateway never touches the cache. *)
(** [callTool] changes only the connection flag, the transport and the
    call log: any view of the world that ignores those is kept. *)
Section Frame.
Context {A : Type} (f : world _ -> A).
Hypothesis f_connected : forall b w, f (set_connected b w) = f w.
Hypothesis f_remote : forall r w, f (set_remote r w) = f w.
Hypothesis f_log : forall name args w, f (log_call name args w) = f w.

Lemma connect_frame w : f (connect w).1 = f w.
Proof.
  unfold connect. destruct (connected w); [done|].
  destruct (env_missing w _); [done|]. destruct (env_missing w _); [done|].
  destruct (r_connect (w_remote w)) as [r [u|e]]; simpl;
    by rewrite ?f_connected, f_remote.
Qed.

Lemma callTool_frame name args w : f (callTool name args w).1 = f w.
Proof.
  unfold callTool, bind. pose proof (connect_frame w) as Hc.
  destruct (connect w) as [w1 [u|e]]; simpl in *; [|done].
  unfold send. destruct (r_callTool (w_remote w1) name args) as [r [t|e]]; simpl;
    rewrite ?f_remote, ?f_log; [|done].
  unfold lift_res. destruct (normalize t); simpl; by rewrite f_remote, f_log.
Qed.

End Frame.

Lemma callTool_cache name args w : w_cache (callTool name args w).1 = w_cache w.
Proof. by apply (callTool_frame w_cache). Qed.

Lemma callTool_flag name args w : cacheDisabled (callTool name args w).1 = cacheDisabled w.
Proof. by apply (callTool_frame cacheDisabled). Qed.

Lemma cached_bypass key f ttl w : cacheDisabled w = true -> cached key f ttl w = f w.
Proof. intros Hd. unfold cached. apply Cache.getOrFetch_bypass. rewrite ?Hd. apply orb_true_r. Qed.

(** C3 [reads_bypass_when_disabled]: while [cacheDisabled] is set, every
    read goes to the server with its own tool and arguments, and the
    cache store, counters included, is left as it was. *)
Theorem reads_bypass_when_disabled r p w :
  cacheDisabled w = true -> read_plan r = Ok p ->
  run_read r w = callTool (p_tool p) (p_args p) w /\
  w_cache (run_read r w).1 = w_cache w.
Proof.
  intros Hd Hp. rewrite run_read_plan, Hp. unfold cached.
  rewrite Cache.getOrFetch_bypass by (rewrite ?Hd; by rewrite ?orb_true_r).
  split; [done|apply callTool_cache].
Qed.

(** C1 [reads_hit_without_io]: with the cache enabled, a read whose key
    holds a fresh entry returns the stored value, counts a hit and sends
    nothing to the server: the remote state and the call log are
    unchanged. *)
Theorem reads_hit_without_io r p w v :
  cacheDisabled w = false -> Cache.enabled (w_cache w) = true ->
  read_plan r = Ok p ->
  Cache.view (w_cache w) (clock w) !! p_key p = Some v ->
  run_read r w = (set_cache (Cache.count_hit (w_cache w)) w, Ok v).
Proof.
  intros Hd He Hp Hv. rewrite run_read_plan, Hp. unfold cached. rewrite Hd.
  by rewrite (Cache.getOrFetch_hit_eq (W := world _) _ _ _ w v).
Qed.

(** A fresh entry answers a read: the form the command and interleaving
    proofs build on. *)
Lemma run_read_hit r p w v :
  cacheDisabled w = false -> Cache.enabled (w_cache w) = true ->
  read_plan r = Ok p ->
  Cache.view (w_cache w) (clock w) !! p_key p = Some v ->
  run_read r w = (set_cache (Cache.count_hit (w_cache w)) w, Ok v).
Proof.
  intros Hd He Hp Hv. rewrite run_read_plan, Hp. unfold cached. rewrite Hd.
  by rewrite (Cache.getOrFetch_hit_eq (W := world _) _ _ _ w v).
Qed.

(** C32 [getStockLevels_requires_id]: [getStockLevels] without a product
    id, or with an empty one, fails with a [ValidationError] before any
    cache or network interaction: the world is unchanged. *)
Theorem getStockLevels_requires_id p w :
  truthy (str_opt p) = false ->
  getStockLevels p w = (w, Err (ValidationError msg_stock_requires_product)).
Proof. intros Hp. unfold getStockLevels. by rewrite Hp. Qed.

(** After a miss, the store the read leaves is still enabled: the server
    call does not touch it. *)
Lemma read_miss_enabled key f ttl w w1 v :
  (forall w', w_cache (f w').1 = w_cache w') ->
  Cache.enabled (w_cache w) = true ->
  Cache.view (w_cache w) (clock w) !! key = None ->
  Cache.getOrFetch (W := world _) key f ttl false w = (w1, Ok v) ->
  Cache.enabled (w_cache w1) = true.
Proof.
  intros Hf He Hv Hr.
  edestruct (Cache.getOrFetch_miss_ok_inv (W := world _) (V := jsval) key f ttl w w1 v)
    as (w3 & Hw3 & Hc1 & _); [exact He|exact Hv|exact Hr|].
  simpl in Hc1. rewrite Hc1. simpl.
  pose proof (Hf (Cache.miss_world key w)) as Hc3. rewrite Hw3 in Hc3. simpl in Hc3.
  rewrite Hc3. simpl. by destruct (Cache.lookup_counters (w_cache w) key (clock w)) as (_ & _ & ->).
Qed.

(** C2 [read_ttl_window]: a read that misses and succeeds with [v] is
    answered from the cache, without any I/O, by every repeat of the same
    read over the store it left while less than its TTL has passed; once
    the TTL has passed the entry is gone and the repeat goes to the
    server. *)
Theorem read_ttl_window r p w w1 w2 v :
  cacheDisabled w = false -> Cache.enabled (w_cache w) = true ->
  read_plan r = Ok p ->
  Cache.view (w_cache w) (clock w) !! p_key p = None ->
  run_read r w = (w1, Ok v) ->
  w_cache w2 = w_cache w1 -> cacheDisabled w2 = false ->
  ((clock w2 < clock w1 + p_ttl p)%Z ->
     run_read r w2 = (set_cache (Cache.count_hit (w_cache w2)) w2, Ok v)) /\
  ((clock w1 + p_ttl p <= clock w2)%Z ->
     Cache.view (w_cache w2) (clock w2) !! p_key p = None).
Proof.
  intros Hd He Hp Hv Hr Hc Hd2.
  rewrite run_read_plan, Hp in Hr. unfold cached in Hr. rewrite Hd in Hr.
  edestruct (Cache.getOrFetch_ttl_window (W := world _) (V := jsval) (p_key p)
              (callTool (p_tool p) (p_args p)) (callTool (p_tool p) (p_args p))
              (p_ttl p) (Some (p_ttl p)) w w1 w2 v) as [Hwin Hexp];
    [exact He|exact Hv|exact Hr|exact Hc|].
  split; [|exact Hexp].
  intros Ht. rewrite run_read_plan, Hp. unfold cached. rewrite Hd2.
  apply Hwin; [done|].
  eapply read_miss_enabled; [apply callTool_cache|exact He|exact Hv|exact Hr].
Qed.

End ReadTheorems.

(** ** The key determines the request

    [createCacheKey] sees the operation name and the parameter literal of
    a read.  [param_value] is what the literal gives one parameter: the
    last property written wins and [undefined] is the same as absent, the
    only distinction the specification lets a key make (section 4.2).
    A cache is sound only if reads that present the same name and the same
    parameter values send the same request: the key must carry every
    argument that reaches the server.  The include lists are the
    exception: [include.join(",")] forgets where the elements were cut,
    so they must be non-empty and free of commas. *)

Definition param_value (ps : list (string * jsval)) (k : string) : jsval :=
  match List.find (fun kv => String.eqb kv.1 k) (rev ps) with
  | Some (_, v) => v
  | None => JUndef
  end.

Definition same_key_params (o1 o2 : option (list (string * jsval))) : Prop :=
  match o1, o2 with
  | Some ps1, Some ps2 => forall k, param_value ps1 k = param_value ps2 k
  | None, None => True
  | _, _ => False
  end.

Definition comma_free (s : string) : Prop := ~ In ","%char (list_ascii_of_string s).

Definition include_ok (i : option (list string)) : Prop :=
  match i with
  | Some l => Forall (fun s => s <> "" /\ comma_free s) l
  | None => True
  end.

(** The include list a read carries, if any. *)
Definition read_include (r : read_op) : option (list string) :=
  match r with
  | RGetProduct _ i | RGetSalesOrder _ i | RGetPurchaseOrder _ i => i
  | RListSalesOrders o | RListPurchaseOrders o => lo_include o
  | _ => None
  end.

Lemma comma_split a b r1 r2 :
  comma_free a -> comma_free b ->
  (a ++ String "," r1)%string = (b ++ String "," r2)%string -> a = b /\ r1 = r2.
Proof.
  unfold comma_free. revert b. induction a as [|c a IH]; intros [|c' b] Ha Hb; simpl; intros Heq.
  - by injection Heq.
  - injection Heq as <- _. simpl in Hb. tauto.
  - injection Heq as -> _. simpl in Ha. tauto.
  - injection Heq as <- Heq. simpl in Ha, Hb.
    destruct (IH b) as [-> ->]; [tauto|tauto|done|done].
Qed.

Lemma comma_free_not_split a b r :
  comma_free a -> a <> (b ++ String "," r)%string.
Proof.
  unfold comma_free. intros Ha ->. apply Ha. clear Ha.
  induction b as [|c b IH]; simpl; [by left|by right].
Qed.

Lemma concat_nonempty x xs : x <> "" -> String.concat "," (x :: xs) <> "".
Proof. destruct xs; simpl; [done|]. by destruct x. Qed.

(** [join(",")] is injective on lists of non-empty, comma-free strings. *)
Lemma join_inj l1 l2 :
  include_ok (Some l1) -> include_ok (Some l2) ->
  String.concat "," l1 = String.concat "," l2 -> l1 = l2.
Proof.
  simpl. revert l2. induction l1 as [|x l1 IH]; intros l2 H1 H2 Heq.
  - destruct l2 as [|y l2]; [done|]. apply Forall_cons in H2 as [[Hy _] _].
    exfalso. by apply (concat_nonempty y l2).
  - destruct l2 as [|y l2].
    + apply Forall_cons in H1 as [[Hx _] _]. exfalso. by apply (concat_nonempty x l1).
    + apply Forall_cons in H1 as [[_ Hx] H1]. apply Forall_cons in H2 as [[_ Hy] H2].
      destruct l1 as [|x' l1], l2 as [|y' l2]; simpl in Heq.
      * by subst.
      * by apply comma_free_not_split in Heq.
      * symmetry in Heq. by apply comma_free_not_split in Heq.
      * apply comma_split in Heq as [-> Heq]; [|done|done].
        f_equal. by apply IH.
Qed.

Lemma join_opt_inj i1 i2 :
  include_ok i1 -> include_ok i2 -> join_opt i1 = join_opt i2 -> i1 = i2.
Proof.
  destruct i1 as [l1|], i2 as [l2|]; simpl; try discriminate; [|done].
  intros H1 H2 [= Heq]. f_equal. by apply join_inj.
Qed.

(** Equal parameter values, position by position, for two literals with
    the same distinct names. *)
Lemma param_value_cons ps k v k' :
  k' <> k -> param_value ((k, v) :: ps) k' = param_value ps k'.
Proof.
  intros Hne. unfold param_value. simpl. rewrite find_app. simpl.
  destruct (List.find _ (rev ps)) as [[]|]; [done|].
  by destruct (String.eqb_spec k k').
Qed.

Lemma param_value_head ps k v :
  ~ In k (map fst ps) -> param_value ((k, v) :: ps) k = v.
Proof.
  intros Hk. unfold param_value. simpl. rewrite find_app.
  destruct (List.find (fun kv => String.eqb kv.1 k) (rev ps)) as [[k' v']|] eqn:Hf.
  - apply find_some in Hf as [Hin Heq]. apply String.eqb_eq in Heq. simpl in Heq. subst.
    apply in_rev in Hin. destruct Hk. by apply (in_map fst) in Hin.
  - simpl. by rewrite String.eqb_refl.
Qed.

Lemma param_value_notin ps k : ~ In k (map fst ps) -> param_value ps k = JUndef.
Proof.
  intros Hk. unfold param_value.
  destruct (List.find (fun kv => String.eqb kv.1 k) (rev ps)) as [[k' v']|] eqn:Hf; [|done].
  apply find_some in Hf as [Hin Heq]. apply String.eqb_eq in Heq. simpl in Heq. subst.
  apply in_rev in Hin. destruct Hk. by apply (in_map fst) in Hin.
Qed.

Lemma same_params_values ps1 ps2 :
  map fst ps1 = map fst ps2 -> NoDup (map fst ps1) ->
  (forall k, param_value ps1 k = param_value ps2 k) -> map snd ps1 = map snd ps2.
Proof.
  revert ps2. induction ps1 as [|[k v] ps1 IH]; intros [|[k' v'] ps2]; simpl;
    try discriminate; [done|].
  intros [= <- Hks] Hnd Hv. apply NoDup_cons in Hnd as [Hk Hnd].
  rewrite list_elem_of_In in Hk.
  f_equal.
  - specialize (Hv k). rewrite !param_value_head in Hv; [done| |done]. by rewrite <- Hks.
  - apply IH; [done|done|]. intros k''. destruct (String.eqb_spec k'' k) as [->|Hne].
    + rewrite !param_value_notin; [done| |done]. by rewrite <- Hks.
    + specialize (Hv k''). by rewrite !param_value_cons in Hv.
Qed.

(** A read's plan, once it is known to succeed. *)
Ltac read_plan_ok Hp :=
  simpl in Hp;
  repeat match type of Hp with context [if ?c then _ else _] => destruct c end;
  try discriminate Hp; injection Hp as <-.

(** From equal parameter values to equal arguments: the include lists
    through [join_opt_inj], every other value by rewriting. *)
Ltac same_request :=
  repeat match goal with
  | E : join_opt _ = join_opt _ |- _ =>
      apply join_opt_inj in E; [rewrite E; clear E|assumption|assumption]
  | E : _ = _ |- _ => progress rewrite E; clear E
  end.

(** C4 [read_key_determines_request]: two reads that present the key
    builder with the same operation name and the same parameter values
    send the same tool call, with the same arguments, and store the
    answer for the same TTL, provided their include lists hold non-empty,
    comma-free names.  So a fresh entry found under a read's key is the
    answer to the request that read would have sent: no accessor leaves
    an argument out of its key. *)
Theorem read_key_determines_request r1 r2 p1 p2 :
  read_plan r1 = Ok p1 -> read_plan r2 = Ok p2 ->
  include_ok (read_include r1) -> include_ok (read_include r2) ->
  p_name p1 = p_name p2 -> same_key_params (p_params p1) (p_params p2) ->
  p_tool p1 = p_tool p2 /\ p_args p1 = p_args p2 /\ p_ttl p1 = p_ttl p2.
Proof.
  intros Hp1 Hp2 Hi1 Hi2 Hn Hs.
  destruct r1; read_plan_ok Hp1; destruct r2; read_plan_ok Hp2;
    simpl in Hn; try discriminate Hn; simpl in Hs, Hi1, Hi2 |- *;
    unfold listProducts_params, getProduct_params, listOrders_params,
      listProducts_args, listOrders_args in *;
    try (apply same_params_values in Hs;
         [simpl in Hs; injection Hs; intros|reflexivity|apply (bool_decide_unpack _); reflexivity]);
    same_request; auto.
Qed.

(** Server calls leave the cache and its switch alone. *)
#[export] Hint Rewrite @callTool_cache @callTool_flag : inflow_rw.

(** ** Concrete runs *)

Section Witnesses.
Import Gateway.Fixture.
#[local] Instance fixture_parser : JsonParse := table_parser [("[]", JArr [])].

Definition locations_plan : plan := mkPlan "locations" None "list_locations" [] TTL_HOUR.

Lemma reads_bypass_when_disabled_witness :
  let w := set_cacheDisabled true (world0 [text_answer "[]"] good_env) in
  run_read RListLocations w = callTool "list_locations" [] w /\
  w_cache (run_read RListLocations w).1 = w_cache w.
Proof. intros w. exact (reads_bypass_when_disabled RListLocations locations_plan w eq_refl eq_refl). Defined.

Lemma reads_hit_without_io_witness :
  let w := set_cache (Cache.set (Cache.create "inflow-inventory-manager" TTL_FIVE_MINUTES)
                        "locations" (JArr []) (Some TTL_HOUR) 0) (world0 [] good_env) in
  run_read RListLocations w = (set_cache (Cache.count_hit (w_cache w)) w, Ok (JArr [])).
Proof. intros w. apply (reads_hit_without_io RListLocations locations_plan); reflexivity. Defined.

Lemma getStockLevels_requires_id_witness :
  getStockLevels None (world0 [] good_env) =
    (world0 [] good_env, Err (ValidationError msg_stock_requires_product)).
Proof. apply getStockLevels_requires_id. reflexivity. Defined.

Lemma read_ttl_window_witness :
  let w := world0 [text_answer "[]"] good_env in
  let w1 := (run_read RListLocations w).1 in
  let w2 := advance 3599 w1 in
  run_read RListLocations w2 = (set_cache (Cache.count_hit (w_cache w2)) w2, Ok (JArr [])).
Proof.
  intros w w1 w2.
  refine (proj1 (read_ttl_window RListLocations locations_plan w w1 w2 (JArr [])
                   _ _ _ _ _ _ _) _); reflexivity.
Defined.

(** Two calls of [getSalesOrder("SO-1", {include: ["lines", "packLines"]})]. *)
Lemma read_key_determines_request_witness :
  exists p, read_plan (RGetSalesOrder "SO-1" (Some ["lines"; "packLines"])) = Ok p /\
    p_tool p = "get_sales_order" /\ p_args p = p_args p /\ p_ttl p = TTL_FIVE_MINUTES.
Proof.
  eexists. split; [reflexivity|]. split; [reflexivity|].
  apply (read_key_determines_request (RGetSalesOrder "SO-1" (Some ["lines"; "packLines"]))
           (RGetSalesOrder "SO-1" (Some ["lines"; "packLines"]))); try reflexivity.
  1,2: simpl; repeat (apply List.Forall_cons; [split; [discriminate|]|]);
       [..|apply List.Forall_nil];
       unfold comma_free; simpl; intuition discriminate.
  simpl. intros k. reflexivity.
Defined.

(** Without the proviso on include lists the key loses the request:
    [["lines,packLines"]] and [["lines", "packLines"]] join to the same
    string, so both calls share one cache entry although they send
    different [include] arrays. *)
Lemma include_join_collision :
  exists p1 p2,
    read_plan (RGetSalesOrder "SO-1" (Some ["lines,packLines"])) = Ok p1 /\
    read_plan (RGetSalesOrder "SO-1" (Some ["lines"; "packLines"])) = Ok p2 /\
    p_key p1 = p_key p2 /\ p_args p1 <> p_args p2.
Proof.
  do 2 eexists. split; [reflexivity|]. split; [reflexivity|].
  split; [vm_compute; reflexivity|vm_compute; discriminate].
Qed.

End Witnesses.

End Accessors.
