(* ===== verification/Mutations.v ===== *)
(** * Mutations: the write methods of [InFlowMCPClient] and their purges

    [src/scripts/mcp-client.ts] lines 441-458, 567-584, 654-663,
    1395-1420, 1469-1499, 1533-1568, 1584-1600 and 1622-1636.  Every write
    awaits the remote write first and, only when it returns, runs
    [cache.invalidatePattern(/^p/)] for each prefix [p] of its family;
    [unreceivePurchaseOrder] skips the purge when [data.dryRun] is truthy.

    [write_op] enumerates the writes, [write_prefixes] the prefixes each
    one purges (read off the source).  The theorems show that a failed
    write leaves the cache as it was, that a successful write removes
    exactly the keys its prefixes match, that every read the method's
    [@invalidates] documentation names is purged, and which derived views
    survive a write. *)

From S2P Require Import Prelude Json Cache CacheKey Gateway Accessors.
Import Json CacheKey Gateway Accessors.

Module Mutations.

Section Writes.
Context `{Remote} `{JsonParse}.

(** The purges of one write, in source order. *)
Fixpoint purge (ps : list string) : st (world _) unit :=
  match ps with
  | [] => ret tt
  | p :: ps' => invalidatePrefix p ;; purge ps'
  end.

(** Lines 441-458 *)
Definition createStockAdjustment (data : jsobj) : st (world _) jsval :=
  result <- callTool "upsert_stock_adjustment" data ;;
  invalidatePrefix "stock" ;;
  ret result.

(** Lines 567-584 *)
Definition createStockTransfer (data : jsobj) : st (world _) jsval :=
  result <- callTool "upsert_stock_transfer" data ;;
  invalidatePrefix "stock" ;;
  ret result.

(** Lines 654-663 *)
Definition createStockCount (data : jsobj) : st (world _) jsval :=
  result <- callTool "upsert_stock_count" data ;;
  invalidatePrefix "stock" ;;
  ret result.

(** Lines 1395-1420 *)
Definition upsertProduct (data : jsobj) : st (world _) jsval :=
  result <- callTool "upsert_product" data ;;
  invalidatePrefix "products" ;;
  invalidatePrefix "product:" ;;
  invalidatePrefix "products_search" ;;
  invalidatePrefix "product_bom" ;;
  invalidatePrefix "bom" ;;
  ret result.

(** Lines 1469-1499 *)
Definition upsertVendor (data : jsobj) : st (world _) jsval :=
  result <- callTool "upsert_vendor" data ;;
  invalidatePrefix "vendors" ;;
  ret result.

(** Lines 1533-1568 *)
Definition upsertPurchaseOrder (data : jsobj) : st (world _) jsval :=
  result <- callTool "upsert_purchase_order" data ;;
  invalidatePrefix "purchase_orders" ;;
  invalidatePrefix "purchase_order:" ;;
  ret result.

(** Lines 1584-1600 *)
Definition receivePurchaseOrder (data : jsobj) : st (world _) jsval :=
  result <- callTool "receive_purchase_order" data ;;
  invalidatePrefix "purchase_orders" ;;
  invalidatePrefix "purchase_order:" ;;
  invalidatePrefix "stock" ;;
  ret result.

(** Lines 1622-1636 *)
Definition unreceivePurchaseOrder (data : jsobj) : st (world _) jsval :=
  result <- callTool "unreceive_purchase_order" data ;;
  (if negb (truthy (obj_get data "dryRun")) then
     invalidatePrefix "purchase_orders" ;;
     invalidatePrefix "purchase_order:" ;;
     invalidatePrefix "stock"
   else ret tt) ;;
  ret result.

End Writes.

(** ** The write interface *)

Inductive write_op :=
| WCreateStockAdjustment (data : jsobj)
| WCreateStockTransfer (data : jsobj)
| WCreateStockCount (data : jsobj)
| WUpsertProduct (data : jsobj)
| WUpsertVendor (data : jsobj)
| WUpsertPurchaseOrder (data : jsobj)
| WReceivePurchaseOrder (data : jsobj)
| WUnreceivePurchaseOrder (data : jsobj).

Section WriteInterface.
Context `{Remote} `{JsonParse}.

Definition run_write (op : write_op) : st (world _) jsval :=
  match op with
  | WCreateStockAdjustment d => createStockAdjustment d
  | WCreateStockTransfer d => createStockTransfer d
  | WCreateStockCount d => createStockCount d
  | WUpsertProduct d => upsertProduct d
  | WUpsertVendor d => upsertVendor d
  | WUpsertPurchaseOrder d => upsertPurchaseOrder d
  | WReceivePurchaseOrder d => receivePurchaseOrder d
  | WUnreceivePurchaseOrder d => unreceivePurchaseOrder d
  end.

End WriteInterface.

Definition write_tool (op : write_op) : string * jsobj :=
  match op with
  | WCreateStockAdjustment d => ("upsert_stock_adjustment", d)
  | WCreateStockTransfer d => ("upsert_stock_transfer", d)
  | WCreateStockCount d => ("upsert_stock_count", d)
  | WUpsertProduct d => ("upsert_product", d)
  | WUpsertVendor d => ("upsert_vendor", d)
  | WUpsertPurchaseOrder d => ("upsert_purchase_order", d)
  | WReceivePurchaseOrder d => ("receive_purchase_order", d)
  | WUnreceivePurchaseOrder d => ("unreceive_purchase_order", d)
  end.

Definition write_prefixes (op : write_op) : list string :=
  match op with
  | WCreateStockAdjustment _ | WCreateStockTransfer _ | WCreateStockCount _ => ["stock"]
  | WUpsertProduct _ => ["products"; "product:"; "products_search"; "product_bom"; "bom"]
  | WUpsertVendor _ => ["vendors"]
  | WUpsertPurchaseOrder _ => ["purchase_orders"; "purchase_order:"]
  | WReceivePurchaseOrder _ => ["purchase_orders"; "purchase_order:"; "stock"]
  | WUnreceivePurchaseOrder d =>
      if truthy (obj_get d "dryRun") then [] else ["purchase_orders"; "purchase_order:"; "stock"]
  end.

(** ** Purging *)

Definition purge_cache (ps : list string) (c : Cache.cache jsval) : Cache.cache jsval :=
  fold_left (fun c p => (Cache.invalidatePattern c (starts_with p)).2) ps c.

Definition purged (ps : list string) (k : string) : bool :=
  existsb (fun p => starts_with p k) ps.

(** No prefix of the list is comparable with [s], so no key starting with
    [s] is purged. *)
Lemma purged_incomparable ps s k :
  forallb (fun q => negb (starts_with q s) && negb (starts_with s q)) ps = true ->
  starts_with s k = true -> purged ps k = false.
Proof.
  induction ps as [|q ps IH]; simpl; [done|].
  intros [[H1 H2]%andb_true_iff H]%andb_true_iff Hk.
  apply negb_true_iff in H1, H2.
  by rewrite (starts_with_incomparable q s k), IH.
Qed.

Lemma purge_cache_entries ps c k :
  Cache.entries (purge_cache ps c) !! k =
    if purged ps k then None else Cache.entries c !! k.
Proof.
  revert c. induction ps as [|p ps IH]; intros c; cbn [fold_left purge_cache]; [done|].
  fold (purge_cache ps (Cache.invalidatePattern c (starts_with p)).2).
  rewrite IH. destruct (Cache.invalidatePattern_exact c (starts_with p) k) as [-> _].
  unfold purged. simpl. by destruct (starts_with p k), (existsb _ ps).
Qed.

Lemma purge_cache_counters ps c :
  Cache.hits (purge_cache ps c) = Cache.hits c /\
  Cache.misses (purge_cache ps c) = Cache.misses c /\
  Cache.enabled (purge_cache ps c) = Cache.enabled c.
Proof.
  revert c. induction ps as [|p ps IH]; intros c; cbn [fold_left purge_cache]; [done|].
  fold (purge_cache ps (Cache.invalidatePattern c (starts_with p)).2).
  by destruct (IH (Cache.invalidatePattern c (starts_with p)).2) as (-> & -> & ->).
Qed.

Section WriteLemmas.
Context `{Remote} `{JsonParse}.

Lemma purge_run ps (w : world _) : purge ps w = (set_cache (purge_cache ps (w_cache w)) w, Ok tt).
Proof.
  revert w. induction ps as [|p ps IH]; intros w; simpl.
  - by destruct w.
  - unfold bind, invalidatePrefix. rewrite IH. reflexivity.
Qed.

(** Every write is its remote call followed by its purges. *)
Lemma run_write_eq op (w : world _) :
  run_write op w =
    match callTool (write_tool op).1 (write_tool op).2 w with
    | (w1, Ok v) => (set_cache (purge_cache (write_prefixes op) (w_cache w1)) w1, Ok v)
    | (w1, Err e) => (w1, Err e)
    end.
Proof.
  destruct op; simpl; unfold createStockAdjustment, createStockTransfer, createStockCount,
    upsertProduct, upsertVendor, upsertPurchaseOrder, receivePurchaseOrder,
    unreceivePurchaseOrder, bind;
    destruct (callTool _ _ w) as [w1 [v|e]]; try reflexivity.
  simpl. destruct (truthy (obj_get data "dryRun")); simpl; [by destruct w1|reflexivity].
Qed.

(** C6 [write_failure_keeps_cache]: when the remote write fails, the
    error propagates and no invalidation runs: the cache, entries and
    counters, is exactly what it was before the write. *)
Theorem write_failure_keeps_cache op (w w' : world _) e :
  run_write op w = (w', Err e) -> w_cache w' = w_cache w.
Proof.
  destruct op; simpl; unfold createStockAdjustment, createStockTransfer, createStockCount,
    upsertProduct, upsertVendor, upsertPurchaseOrder, receivePurchaseOrder,
    unreceivePurchaseOrder, bind;
  match goal with |- context [callTool ?n ?a w] =>
    pose proof (callTool_cache n a w) as Hc; destruct (callTool n a w) as [w1 [v|e']];
    [simpl; try destruct (truthy _); simpl; discriminate|intros [= <- _]; exact Hc]
  end.
Qed.

(** A successful write leaves the cache purged of its prefixes. *)
Lemma write_ok_cache op (w w' : world _) v :
  run_write op w = (w', Ok v) -> w_cache w' = purge_cache (write_prefixes op) (w_cache w).
Proof.
  rewrite run_write_eq. pose proof (callTool_cache (write_tool op).1 (write_tool op).2 w) as Hc.
  destruct (callTool _ _ w) as [w1 [v'|e]]; [|done]. intros [= <- _]. simpl in *. by rewrite Hc.
Qed.

(** C5 [write_success_purges_exactly]: after a successful write the
    cache holds every entry it held before except those whose key starts
    with one of the write's prefixes, which are gone; the counters are
    unchanged. *)
Theorem write_success_purges_exactly op (w w' : world _) v k :
  run_write op w = (w', Ok v) ->
  Cache.entries (w_cache w') !! k =
    (if purged (write_prefixes op) k then None else Cache.entries (w_cache w) !! k) /\
  Cache.hits (w_cache w') = Cache.hits (w_cache w) /\
  Cache.misses (w_cache w') = Cache.misses (w_cache w).
Proof.
  intros Hw. rewrite (write_ok_cache op w w' v Hw), purge_cache_entries.
  by destruct (purge_cache_counters (write_prefixes op) (w_cache w)) as (-> & -> & _).
Qed.

End WriteLemmas.

(** ** The documented invalidation contract

    The [@invalidates] tag of each write names the read families it
    purges: [stock/*] for the three stock writes; [products, product:*,
    products_search, product_bom, bom] for [upsertProduct]; [vendors] for
    [upsertVendor]; [purchase_orders, purchase_order:*] for
    [upsertPurchaseOrder], plus [stock*] for [receivePurchaseOrder] and
    for [unreceivePurchaseOrder] unless [dryRun]. *)

Inductive family := FStock | FProducts | FProduct | FProductsSearch | FProductBom | FBom
                  | FVendors | FPurchaseOrders | FPurchaseOrder.

#[global] Instance family_eq_dec : EqDecision family.
Proof. solve_decision. Defined.

Definition read_family (r : read_op) : option family :=
  match r with
  | RGetStockLevels _ | RListStockAdjustments _ | RGetStockAdjustment _
  | RListStockTransfers _ | RGetStockTransfer _ | RListStockCounts _ | RGetStockCount _ => Some FStock
  | RListProducts _ => Some FProducts
  | RGetProduct _ _ => Some FProduct
  | RSearchProducts _ => Some FProductsSearch
  | RGetProductWithBom _ => Some FProductBom
  | RGetBillOfMaterials _ => Some FBom
  | RListVendors _ => Some FVendors
  | RListPurchaseOrders _ => Some FPurchaseOrders
  | RGetPurchaseOrder _ _ => Some FPurchaseOrder
  | _ => None
  end.

Definition documented_families (op : write_op) : list family :=
  match op with
  | WCreateStockAdjustment _ | WCreateStockTransfer _ | WCreateStockCount _ => [FStock]
  | WUpsertProduct _ => [FProducts; FProduct; FProductsSearch; FProductBom; FBom]
  | WUpsertVendor _ => [FVendors]
  | WUpsertPurchaseOrder _ => [FPurchaseOrders; FPurchaseOrder]
  | WReceivePurchaseOrder _ => [FPurchaseOrders; FPurchaseOrder; FStock]
  | WUnreceivePurchaseOrder d =>
      if truthy (obj_get d "dryRun") then [] else [FPurchaseOrders; FPurchaseOrder; FStock]
  end.

Definition documented (op : write_op) (r : read_op) : bool :=
  match read_family r with
  | Some f => bool_decide (f ∈ documented_families op)
  | None => false
  end.

(** The keys of the derived serial views: the order-based and
    product-based indexes and the per-product serial lists. *)
Definition serial_view_key (k : string) : bool :=
  String.eqb k "serial_index" || String.eqb k "serial_index_products" ||
  starts_with "product_serials:" k || starts_with "all_serials:" k.

Section ContractTheorems.
Context `{Remote} `{JsonParse}.

Lemma purged_write_keys op r p :
  documented op r = true -> read_plan r = Ok p -> purged (write_prefixes op) (p_key p) = true.
Proof.
  intros Hdoc Hp. unfold documented in Hdoc.
  destruct r; simpl in Hdoc; try discriminate; simpl in Hp;
    try (destruct (negb (truthy (str_opt _))); [discriminate|]);
    injection Hp as <-;
    destruct op; simpl in Hdoc |- *; try (destruct (truthy (obj_get data "dryRun")));
    first [reflexivity | vm_compute in Hdoc; discriminate].
Qed.

(** C7 [write_purges_documented_reads]: after a successful write, every
    read that the write's [@invalidates] documentation names has no entry
    left under its key, so its next call goes to the server. *)
Theorem write_purges_documented_reads op r p (w w' : world _) v :
  run_write op w = (w', Ok v) -> documented op r = true -> read_plan r = Ok p ->
  Cache.entries (w_cache w') !! p_key p = None.
Proof.
  intros Hw Hdoc Hp. rewrite (write_ok_cache op w w' v Hw), purge_cache_entries.
  by rewrite (purged_write_keys op r p Hdoc Hp).
Qed.

Lemma serial_views_not_purged op k :
  serial_view_key k = true -> purged (write_prefixes op) k = false.
Proof.
  unfold serial_view_key. intros Hk.
  apply orb_true_iff in Hk as [Hk|Hk]; [apply orb_true_iff in Hk as [Hk|Hk]|];
    [apply orb_true_iff in Hk as [Hk|Hk]| |].
  - apply String.eqb_eq in Hk as ->.
    destruct op; simpl; try destruct (truthy _); reflexivity.
  - apply String.eqb_eq in Hk as ->.
    destruct op; simpl; try destruct (truthy _); reflexivity.
  - apply (purged_incomparable _ "product_serials:"); [|exact Hk].
    destruct op; simpl; try destruct (truthy _); reflexivity.
  - apply (purged_incomparable _ "all_serials:"); [|exact Hk].
    destruct op; simpl; try destruct (truthy _); reflexivity.
Qed.

(** C22 [writes_keep_serial_views]: no write purges the derived serial
    views: the order-based index ["serial_index"], the product-based index
    ["serial_index_products"] (which carries stock status and location)
    and the [product_serials] and [all_serials] lists survive every
    successful write, stock and product writes included. *)
Theorem writes_keep_serial_views op (w w' : world _) v k :
  run_write op w = (w', Ok v) -> serial_view_key k = true ->
  Cache.entries (w_cache w') !! k = Cache.entries (w_cache w) !! k.
Proof.
  intros Hw Hk. rewrite (write_ok_cache op w w' v Hw), purge_cache_entries.
  by rewrite serial_views_not_purged.
Qed.

End ContractTheorems.

(** ** Concrete runs *)

Section Witnesses.
Import Gateway.Fixture.
#[local] Instance fixture_parser : JsonParse := table_parser [("{}", JObj [])].

(** A cache holding a product detail, the location list and the
    product-based serial index. *)
Definition seeded_cache : Cache.cache jsval :=
  let c := Cache.create "inflow-inventory-manager" TTL_FIVE_MINUTES in
  let c := Cache.set c (getProduct_key "p1" None) (JObj []) (Some TTL_FIFTEEN_MINUTES) 0 in
  let c := Cache.set c "locations" (JArr []) (Some TTL_HOUR) 0 in
  Cache.set c "serial_index_products" (JObj []) (Some TTL_FIFTEEN_MINUTES) 0.

Definition seeded (answers : list (res toolResult)) : world _ :=
  set_cache seeded_cache (world0 answers good_env).

Definition product_plan : plan :=
  mkPlan "product" (Some (getProduct_params "p1" None)) "get_product" [("productId", JStr "p1")] TTL_FIFTEEN_MINUTES.

Lemma write_failure_keeps_cache_witness :
  let w := seeded [error_answer "conflict"] in
  (run_write (WUpsertProduct []) w).2 = Err (OperationError "conflict") /\
  w_cache (run_write (WUpsertProduct []) w).1 = w_cache w.
Proof.
  intros w. split; [reflexivity|].
  apply (write_failure_keeps_cache (WUpsertProduct []) w _ (OperationError "conflict")).
  reflexivity.
Defined.

Lemma write_success_purges_exactly_witness :
  let w := seeded [text_answer "{}"] in
  let w' := (run_write (WUpsertProduct []) w).1 in
  Cache.entries (w_cache w') !! "locations" = Cache.entries (w_cache w) !! "locations" /\
  Cache.hits (w_cache w') = Cache.hits (w_cache w) /\
  Cache.misses (w_cache w') = Cache.misses (w_cache w).
Proof.
  intros w w'.
  exact (write_success_purges_exactly (WUpsertProduct []) w w' (JObj []) "locations" eq_refl).
Defined.

Lemma write_purges_documented_reads_witness :
  let w := seeded [text_answer "{}"] in
  Cache.entries (w_cache (run_write (WUpsertProduct []) w).1) !! getProduct_key "p1" None = None.
Proof.
  intros w.
  exact (write_purges_documented_reads (WUpsertProduct []) (RGetProduct "p1" None) product_plan
           w _ (JObj []) eq_refl eq_refl eq_refl).
Defined.

Lemma writes_keep_serial_views_witness :
  let w := seeded [text_answer "{}"] in
  Cache.entries (w_cache (run_write (WCreateStockAdjustment []) w).1) !! "serial_index_products" =
    Cache.entries (w_cache w) !! "serial_index_products".
Proof.
  intros w.
  exact (writes_keep_serial_views (WCreateStockAdjustment []) w _ (JObj []) "serial_index_products"
           eq_refl eq_refl).
Defined.

End Witnesses.

End Mutations.
