(* ===== verification/SerialIndex.v ===== *)
(** * SerialIndex: the serial-number index builders and lookups

    [src/scripts/mcp-client.ts] lines 885-1147 (order-based) and
    1211-1284 (product-based).

    The inFlow service cannot search by serial number, so the client builds
    an index: [buildSerialIndex] pages through the sales orders of a status
    (100 per page, [skip] growing by 100, until a short page or the
    optional cap), then walks every order's [packLines], [pickLines] and
    [lines], and every [quantity.serialNumbers] array, and records each
    trimmed, upper-cased serial under that key unless the key is already
    present (first writer wins).  [searchSerial] and [listSerials] read the
    index through the cache under the key ["serial_index"] (TTL one
    hour).  [buildSerialIndexFromProducts] asks the server for all serials
    at once and records each under its key, the last writer winning;
    [searchSerialByProduct] reads it under ["serial_index_products"].

    The index is a JS plain object: [jsobj], its keys in insertion order.

    [extractFromLines], [index_order] and [index_orders] follow the source
    loop, which reads and inserts in one pass.  [collect] and [insert_first]
    are the reference: first list every occurrence of a serial in traversal
    order, then insert them one by one keeping the first.  The theorems
    show the two agree (errors included), that the entry of every serial is
    the record of its first occurrence, that the page loop terminates
    whenever a cap is given and may run forever without one, and that the
    cap is not applied to a short last page.

    The lookups: [searchSerial] depends only on the normalised query, and
    a normalised key has no lower-case letter, so it never meets a
    property of [Object.prototype].  The product-based index keeps the
    last occurrence of a serial.  [getSalesOrderSerials] and
    [getPurchaseOrderSerials] report the serials of one order; the first
    keys its [Map] by the raw serial: [order_raw_occs] lists the
    occurrences of an order and [serial_group] the entry a string serial
    gets, and the theorem shows the reported serials are exactly those
    groups.  The
    section [Witnesses] runs the builders on scripted servers, one of
    which answers full pages forever. *)

From S2P Require Import Prelude JsString Json Cache CacheKey Gateway Accessors.
Import Json CacheKey Gateway Accessors.

Module SerialIndex.

(** ** Normalisation: [serial.trim().toUpperCase()] *)

Definition normalizeSerial (s : string) : string :=
  JsString.toUpperCase (JsString.trim s).

(** ** The order-based index, as the source builds it (lines 1027-1061) *)

(** The record stored for a serial (lines 1041-1048).  [order] and [line]
    are objects here: [order.packLines] and [line.quantity] were read from
    them without error, so [order.k] and [line.k] are [oprop]. *)
Definition serial_record (n : string) (order line : jsval) : jsval :=
  JObj [("serial", JStr n);
        ("salesOrderId", oprop order "salesOrderId");
        ("orderNumber", oprop order "orderNumber");
        ("orderDate", oprop order "orderDate");
        ("productId", oprop line "productId");
        ("shopifyOrderUrl", js_or (oprop (oprop order "customFields") "custom4") JNull)].

(** [line.quantity?.serialNumbers], when it is an array (lines 1033-1034). *)
Definition line_serials (line : jsval) : res (list jsval) :=
  res_bind (prop line "quantity") (fun q =>
    match oprop q "serialNumbers" with
    | JArr l => Ok l
    | _ => Ok []
    end).

(** The body of the inner loop (lines 1036-1049). *)
Definition add_serial (order line : jsval) (idx : jsobj) (serial : jsval) : res jsobj :=
  if negb (truthy serial) then Ok idx
  else match serial with
       | JStr s =>
           let n := normalizeSerial s in
           if truthy (obj_get idx n) then Ok idx
           else Ok (obj_set idx n (serial_record n order line))
       | _ => Err (TypeError "serial.trim is not a function")
       end.

Definition extract_line (order : jsval) (idx : jsobj) (line : jsval) : res jsobj :=
  res_bind (line_serials line) (fold_res (add_serial order line) idx).

(** [extractFromLines(lines, order)] (lines 1031-1052) *)
Definition extractFromLines (lines order : jsval) (idx : jsobj) : res jsobj :=
  res_bind (iter_or_empty lines) (fold_res (extract_line order) idx).

(** One order: pack lines, then pick lines, then order lines
    (lines 1055-1058). *)
Definition index_order (idx : jsobj) (order : jsval) : res jsobj :=
  res_bind (prop order "packLines") (fun pl =>
  res_bind (extractFromLines pl order idx) (fun idx1 =>
  res_bind (prop order "pickLines") (fun pk =>
  res_bind (extractFromLines pk order idx1) (fun idx2 =>
  res_bind (prop order "lines") (fun ln =>
  extractFromLines ln order idx2))))).

(** Lines 1028 and 1054-1061 *)
Definition index_orders (orders : list jsval) : res jsobj :=
  fold_res index_order [] orders.

(** ** The reference: occurrences first, insertion after *)

Definition occurrence : Type := string * jsval * jsval.

Definition serial_occ (order line serial : jsval) : res (list occurrence) :=
  if negb (truthy serial) then Ok []
  else match serial with
       | JStr s => Ok [(normalizeSerial s, order, line)]
       | _ => Err (TypeError "serial.trim is not a function")
       end.

Definition collect_line (order line : jsval) : res (list occurrence) :=
  res_bind (line_serials line) (fun sns => concat_res (map (serial_occ order line) sns)).

Definition collect_lines (lines order : jsval) : res (list occurrence) :=
  res_bind (iter_or_empty lines) (fun ls => concat_res (map (collect_line order) ls)).

Definition collect_order (order : jsval) : res (list occurrence) :=
  res_bind (prop order "packLines") (fun pl =>
  res_bind (collect_lines pl order) (fun a =>
  res_bind (prop order "pickLines") (fun pk =>
  res_bind (collect_lines pk order) (fun b =>
  res_bind (prop order "lines") (fun ln =>
  res_bind (collect_lines ln order) (fun c => Ok (a ++ b ++ c))))))).

Definition collect (orders : list jsval) : res (list occurrence) :=
  concat_res (map collect_order orders).

Definition insert_first (idx : jsobj) (o : occurrence) : jsobj :=
  let '(n, order, line) := o in
  if truthy (obj_get idx n) then idx else obj_set idx n (serial_record n order line).

(** The record of the first occurrence of [n], if any. *)
Definition first_record (occs : list occurrence) (n : string) : jsval :=
  match List.find (fun o => String.eqb o.1.1 n) occs with
  | Some (n', order, line) => serial_record n' order line
  | None => JUndef
  end.

(** ** Equivalence of the one-pass loop with the reference *)

Lemma add_serial_ref order line idx serial :
  add_serial order line idx serial =
    res_map (fun xs => fold_left insert_first xs idx) (serial_occ order line serial).
Proof.
  unfold add_serial, serial_occ. destruct (truthy serial); simpl; [|done].
  destruct serial; simpl; try done. by destruct (truthy (obj_get idx _)).
Qed.

Lemma extract_line_ref order idx line :
  extract_line order idx line =
    res_map (fun xs => fold_left insert_first xs idx) (collect_line order line).
Proof.
  unfold extract_line, collect_line. destruct (line_serials line) as [sns|e]; simpl; [|done].
  apply fold_res_concat, add_serial_ref.
Qed.

Lemma extractFromLines_ref lines order idx :
  extractFromLines lines order idx =
    res_map (fun xs => fold_left insert_first xs idx) (collect_lines lines order).
Proof.
  unfold extractFromLines, collect_lines. destruct (iter_or_empty lines) as [ls|e]; simpl; [|done].
  apply fold_res_concat. intros. apply extract_line_ref.
Qed.

Lemma index_order_ref idx order :
  index_order idx order =
    res_map (fun xs => fold_left insert_first xs idx) (collect_order order).
Proof.
  unfold index_order, collect_order.
  destruct (prop order "packLines") as [pl|e]; simpl; [|done].
  rewrite extractFromLines_ref. destruct (collect_lines pl order) as [a|e]; simpl; [|done].
  destruct (prop order "pickLines") as [pk|e]; simpl; [|done].
  rewrite extractFromLines_ref. destruct (collect_lines pk order) as [b|e]; simpl; [|done].
  destruct (prop order "lines") as [ln|e]; simpl; [|done].
  rewrite extractFromLines_ref. destruct (collect_lines ln order) as [c|e]; simpl; [|done].
  by rewrite !fold_left_app.
Qed.

Lemma index_orders_fold orders :
  index_orders orders = res_map (fun occs => fold_left insert_first occs []) (collect orders).
Proof. apply fold_res_concat, index_order_ref. Qed.

(** C9 [index_orders_equiv]: the source's one-pass loop, which reads
    the nested line arrays and inserts serials as it goes, computes
    exactly what listing every occurrence first and inserting after
    computes, the error it throws included. *)
Theorem index_orders_equiv orders :
  index_orders orders = res_map (fun occs => fold_left insert_first occs []) (collect orders).
Proof. apply fold_res_concat, index_order_ref. Qed.

(** ** First writer wins *)

Lemma serial_record_truthy n order line : truthy (serial_record n order line) = true.
Proof. reflexivity. Qed.

(** [first_record] finds a key exactly when some occurrence has it. *)
Lemma first_record_in occs n :
  In n (map (fun o => o.1.1) occs) ->
  exists n' order line, List.find (fun o => String.eqb o.1.1 n) occs = Some (n', order, line) /\
                        first_record occs n = serial_record n' order line.
Proof.
  intros Hin. unfold first_record.
  destruct (List.find _ occs) as [[[n' order] line]|] eqn:Hf; [by eexists _, _, _|].
  exfalso. apply in_map_iff in Hin as ([[n0 order] line] & <- & Hin).
  apply (find_none _ _ Hf) in Hin. simpl in Hin. by rewrite String.eqb_refl in Hin.
Qed.

Lemma first_record_notin occs n :
  ~ In n (map (fun o => o.1.1) occs) -> first_record occs n = JUndef.
Proof.
  intros Hnin. unfold first_record.
  destruct (List.find _ occs) as [o|] eqn:Hf; [|done].
  apply find_some in Hf as [Hin Heq]. apply String.eqb_eq in Heq. subst n.
  exfalso. apply Hnin, (in_map (fun o => o.1.1)), Hin.
Qed.

Lemma fold_insert_first_get occs idx n :
  obj_get (fold_left insert_first occs idx) n =
    if truthy (obj_get idx n) then obj_get idx n
    else match List.find (fun o => String.eqb o.1.1 n) occs with
         | Some (n', order, line) => serial_record n' order line
         | None => obj_get idx n
         end.
Proof.
  revert idx. induction occs as [|[[n0 order] line] occs IH]; intros idx; simpl.
  - by destruct (truthy (obj_get idx n)).
  - rewrite IH. destruct (String.eqb_spec n0 n) as [->|Hne].
    + destruct (truthy (obj_get idx n)) eqn:Ht; simpl; rewrite ?Ht; [done|].
      by rewrite obj_get_set_eq.
    + destruct (truthy (obj_get idx n0)); [done|].
      by rewrite obj_get_set_ne.
Qed.

Lemma fold_insert_first_nodup occs idx :
  NoDup (obj_keys idx) -> NoDup (obj_keys (fold_left insert_first occs idx)).
Proof.
  revert idx. induction occs as [|[[n0 order] line] occs IH]; intros idx Hnd; simpl; [done|].
  apply IH. destruct (truthy (obj_get idx n0)); [done|]. by apply obj_set_nodup.
Qed.

(** The index maps each key to its first occurrence; its keys are distinct. *)
Lemma index_orders_lookup orders idx :
  index_orders orders = Ok idx ->
  exists occs, collect orders = Ok occs /\
    (forall n, obj_get idx n = first_record occs n) /\ NoDup (obj_keys idx).
Proof.
  rewrite index_orders_fold. destruct (collect orders) as [occs|e]; simpl; [|done].
  intros [= <-]. exists occs. split; [done|]. split.
  - intros n. rewrite fold_insert_first_get. simpl. unfold first_record.
    by destruct (List.find (fun o => String.eqb o.1.1 n) occs) as [[[n' order] line]|].
  - apply fold_insert_first_nodup. constructor.
Qed.

(** C10 [index_orders_first_writer_wins]: when the index is built, the
    entry of every serial is the record of its first occurrence in
    traversal order (orders in page order; within an order pack lines,
    then pick lines, then order lines); a serial that never occurs has no
    entry, and no key is stored twice. *)
Theorem index_orders_first_writer_wins orders idx :
  index_orders orders = Ok idx ->
  exists occs, collect orders = Ok occs /\
    (forall n, obj_get idx n = first_record occs n) /\ NoDup (obj_keys idx).
Proof. apply index_orders_lookup. Qed.

Lemma collect_app orders1 orders2 :
  collect (orders1 ++ orders2) =
    res_bind (collect orders1) (fun a => res_map (fun b => a ++ b) (collect orders2)).
Proof.
  unfold collect. induction orders1 as [|o os IH]; simpl.
  - by destruct (concat_res (map collect_order orders2)).
  - destruct (collect_order o) as [xs|e]; simpl; [|done]. rewrite IH.
    destruct (concat_res (map collect_order os)) as [ys|e]; simpl; [|done].
    destruct (concat_res (map collect_order orders2)) as [zs|e]; simpl; [|done].
    by rewrite app_assoc.
Qed.

(** [earlier_orders_win]: a serial that occurs in the first orders of
    the list keeps the record of its first occurrence there, whatever the
    later orders contain: a later order's copy of the same serial never
    overwrites it, whatever its date. *)
Theorem earlier_orders_win orders1 orders2 occs1 idx n :
  collect orders1 = Ok occs1 -> In n (map (fun o => o.1.1) occs1) ->
  index_orders (orders1 ++ orders2) = Ok idx ->
  obj_get idx n = first_record occs1 n.
Proof.
  intros H1 Hin Hidx.
  destruct (index_orders_lookup _ _ Hidx) as (occs & Hc & Hget & _).
  rewrite Hget. rewrite collect_app, H1 in Hc. simpl in Hc.
  destruct (collect orders2) as [occs2|e]; simpl in Hc; [|done]. injection Hc as <-.
  destruct (first_record_in _ _ Hin) as (n' & order & line & Hf & ->).
  unfold first_record. by rewrite list_find_app, Hf.
Qed.

(** ** Fetching the orders (lines 995-1025) *)

Definition pageSize : Z := 100.

Definition page_args (status : string) (skip : Z) : jsobj :=
  [("status", JStr status);
   ("include", JArr [JStr "lines"; JStr "pickLines"; JStr "packLines"]);
   ("count", JNum pageSize);
   ("skip", JNum skip)].

(** [result.data || result || []], then [Array.isArray(orders) ? orders : [orders]]. *)
Definition page_orders (result : jsval) : res (list jsval) :=
  res_bind (prop result "data") (fun d =>
    match js_or (js_or d result) (JArr []) with
    | JArr l => Ok l
    | v => Ok [v]
    end).

(** [maxOrders && allOrders.length >= maxOrders] *)
Definition capped (maxOrders : option Z) (n : nat) : bool :=
  match maxOrders with
  | Some m => negb (Z.eqb m 0) && Z.geb (Z.of_nat n) m
  | None => false
  end.

(** [allOrders.length = maxOrders]: a negative length is a [RangeError]. *)
Definition truncate (m : Z) (l : list jsval) : res (list jsval) :=
  if Z.ltb m 0 then Err (RangeError "Invalid array length") else Ok (firstn (Z.to_nat m) l).

Section Pages.
Context `{Remote} `{JsonParse}.

(** The [while (true)] loop, one page per unit of fuel. *)
Fixpoint fetch_pages (fuel : nat) (status : string) (maxOrders : option Z) (skip : Z)
    (acc : list jsval) : st (world _) (list jsval) :=
  match fuel with
  | O => throw Diverged
  | S fuel' =>
      result <- callTool "list_sales_orders" (page_args status skip) ;;
      orderList <- lift_res (page_orders result) ;;
      let all := acc ++ orderList in
      if Z.ltb (Z.of_nat (length orderList)) pageSize then ret all
      else if capped maxOrders (length all) then lift_res (truncate (default 0%Z maxOrders) all)
      else fetch_pages fuel' status maxOrders (skip + pageSize) all
  end.

(** [buildSerialIndex({status, limit})] *)
Definition buildSerialIndex (fuel : nat) (status : option string) (limit : option Z) :
    st (world _) jsobj :=
  let status' := if truthy (str_opt status) then default "" status else "Fulfilled" in
  orders <- fetch_pages fuel status' limit 0 [] ;;
  lift_res (index_orders orders).

End Pages.

Section PageTheorems.
Context `{Remote} `{JsonParse}.

(** One iteration, unfolded. *)
Lemma fetch_pages_S fuel status maxOrders skip acc (w : world _) :
  fetch_pages (S fuel) status maxOrders skip acc w =
    match callTool "list_sales_orders" (page_args status skip) w with
    | (w1, Ok result) =>
        match page_orders result with
        | Ok orderList =>
            if Z.ltb (Z.of_nat (length orderList)) pageSize then (w1, Ok (acc ++ orderList))
            else if capped maxOrders (length (acc ++ orderList))
            then (w1, truncate (default 0%Z maxOrders) (acc ++ orderList))
            else fetch_pages fuel status maxOrders (skip + pageSize) (acc ++ orderList) w1
        | Err e => (w1, Err e)
        end
    | (w1, Err e) => (w1, Err e)
    end.
Proof.
  simpl. unfold bind at 1. destruct (callTool _ _ w) as [w1 [result|e]]; [|done].
  unfold bind, lift_res. destruct (page_orders result) as [l|e]; [|done].
  unfold ret. destruct (Z.ltb _ _); [done|]. destruct (capped _ _); [|done].
  by destruct (truncate _ _).
Qed.

(** C14 [fetch_pages_capped_terminates]: with a positive cap [m], the
    loop ends after at most [f + 1] pages whenever [m <= |acc| + 100 f],
    whatever the server answers: more fuel does not change the outcome,
    which is therefore the outcome of the JS loop. *)
Theorem fetch_pages_capped_terminates f k status m skip acc (w : world _) :
  (0 < m)%Z -> (Z.to_nat m <= length acc + 100 * f)%nat ->
  fetch_pages (S f + k) status (Some m) skip acc w = fetch_pages (S f) status (Some m) skip acc w.
Proof.
  revert skip acc w. induction f as [|f IH]; intros skip acc w Hm Hf.
  - simpl (S 0 + k)%nat. rewrite !fetch_pages_S.
    destruct (callTool _ _ w) as [w1 [result|e]]; [|done].
    destruct (page_orders result) as [l|e]; [|done].
    destruct (Z.ltb_spec (Z.of_nat (length l)) pageSize) as [Hs|Hs]; [done|].
    unfold capped. rewrite length_app.
    destruct (Z.eqb_spec m 0); [lia|].
    destruct (Z.geb_spec (Z.of_nat (length acc + length l)) m); [done|lia].
  - change (S (S f) + k)%nat with (S (S f + k)). rewrite !fetch_pages_S.
    destruct (callTool _ _ w) as [w1 [result|e]]; [|done].
    destruct (page_orders result) as [l|e]; [|done].
    destruct (Z.ltb_spec (Z.of_nat (length l)) pageSize) as [Hs|Hs]; [done|].
    destruct (capped _ _); [done|].
    apply IH; [done|]. unfold pageSize in Hs. rewrite length_app. lia.
Qed.

(** C15 [fetch_pages_diverges_uncapped]: without a cap, against a server
    that answers every page with at least 100 orders, the loop never ends:
    every amount of fuel runs out. *)
Theorem fetch_pages_diverges_uncapped status :
  (forall (w : world _) skip, connected w = true ->
     exists l, (callTool "list_sales_orders" (page_args status skip) w).2 = Ok (JArr l) /\
               (100 <= length l)%nat /\
               connected (callTool "list_sales_orders" (page_args status skip) w).1 = true) ->
  forall fuel skip acc (w : world _), connected w = true ->
    (fetch_pages fuel status None skip acc w).2 = Err Diverged.
Proof.
  intros Hfull fuel. induction fuel as [|fuel IH]; intros skip acc w Hc; [done|].
  rewrite fetch_pages_S. destruct (Hfull w skip Hc) as (l & Hr & Hl & Hc1).
  destruct (callTool _ _ w) as [w1 r] eqn:Hcall; simpl in Hr, Hc1. subst r.
  simpl. destruct (Z.ltb_spec (Z.of_nat (length l)) pageSize) as [Hs|Hs];
    [unfold pageSize in Hs; lia|].
  by apply IH.
Qed.

(** C21 [short_page_ignores_cap]: a first page with fewer than 100 orders
    ends the loop with all of them, before the cap is looked at: with a
    cap [m] smaller than that page, more than [m] orders are indexed. *)
Theorem short_page_ignores_cap fuel status maxOrders (w w1 : world _) l :
  callTool "list_sales_orders" (page_args status 0) w = (w1, Ok (JArr l)) ->
  (length l < 100)%nat ->
  fetch_pages (S fuel) status maxOrders 0 [] w = (w1, Ok l).
Proof.
  intros Hr Hl. rewrite fetch_pages_S, Hr. simpl.
  destruct (Z.ltb_spec (Z.of_nat (length l)) pageSize) as [Hs|Hs]; [done|].
  unfold pageSize in Hs. lia.
Qed.

(** C16 [fetch_pages_cap_bound]: with a positive [limit] [m], and fewer
    than [m] orders collected so far, the page loop returns fewer than
    [m + 100] orders: a truncated list of exactly [m], or the orders
    before a short page, which are fewer than [m] plus one page. *)
Theorem fetch_pages_cap_bound fuel status m skip acc (w w' : world _) l :
  (0 < m)%Z -> (length acc < Z.to_nat m)%nat ->
  fetch_pages fuel status (Some m) skip acc w = (w', Ok l) ->
  (length l < Z.to_nat m + 100)%nat.
Proof.
  intros Hm. revert skip acc w. induction fuel as [|fuel IH]; intros skip acc w Hacc; [done|].
  rewrite fetch_pages_S. destruct (callTool _ _ w) as [w1 [result|e]]; [|done].
  destruct (page_orders result) as [ol|e]; [|done].
  destruct (Z.ltb_spec (Z.of_nat (length ol)) pageSize) as [Hs|Hs].
  { intros [= _ <-]. rewrite length_app. unfold pageSize in Hs. lia. }
  unfold capped. destruct (Z.eqb_spec m 0) as [|_]; [lia|]. simpl.
  destruct (Z.geb_spec (Z.of_nat (length (acc ++ ol))) m) as [Hg|Hg].
  - unfold truncate. destruct (Z.ltb_spec m 0); [lia|]. intros [= _ <-].
    rewrite length_firstn. lia.
  - apply IH. lia.
Qed.

End PageTheorems.

(** ** Reading the index *)

(** [{ found: true, ...result }]: the properties of [result] copied after
    [found]. *)
Definition spread (base : jsobj) (v : jsval) : jsobj :=
  match v with
  | JObj fs => fold_left (fun o kv => obj_set o kv.1 kv.2) fs base
  | _ => base
  end.

Definition msg_not_in_orders : string :=
  "Serial number not found in fulfilled sales orders. Check Airtable for authoritative serial number data.".
Definition msg_not_in_products : string :=
  "Serial number not found in product inventory. May not exist or may be in a non-serialized product.".

(** The lookup both searches share (lines 1091-1105 and 1269-1283). *)
Definition lookup_serial (msg : string) (serial : string) (index : jsval) : res jsval :=
  let n := normalizeSerial serial in
  res_bind (prop index n) (fun result =>
    if truthy result then Ok (JObj (spread [("found", JBool true)] result))
    else Ok (JObj [("found", JBool false); ("serial", JStr n); ("message", JStr msg)])).

(** [String(v) === s] for the [productId] filter. *)
Definition is_str (v : jsval) (s : string) : bool :=
  match v with JStr s' => String.eqb s' s | _ => false end.

(** [Object.values(v)] on the cached index. *)
Definition values_of (v : jsval) : res (list jsval) :=
  match v with
  | JObj o => Ok (object_values o)
  | JArr l => Ok l
  | JUndef | JNull => Err (TypeError "Cannot convert undefined or null to object")
  | JStr s => Ok (map (fun c => JStr (String c EmptyString)) (list_ascii_of_string s))
  | _ => Ok []
  end.

Definition keys_count (v : jsval) : nat :=
  match v with
  | JObj o => length o
  | JArr l => length l
  | JStr s => String.length s
  | _ => 0
  end.

(** [arr.slice(0, n)] *)
Definition slice0 {A} (n : Z) (l : list A) : list A :=
  if Z.ltb n 0 then firstn (Z.to_nat (Z.of_nat (length l) + n)) l else firstn (Z.to_nat n) l.

Section Lookups.
Context `{Remote} `{JsonParse}.

(** The cached order-based index (lines 1082-1089 and 1122-1128): the
    build has no cap, its fuel is the number of pages it may fetch. *)
Definition cached_index (fuel : nat) : st (world _) jsval :=
  fun w => Cache.getOrFetch "serial_index"
             (fun w' => let '(w'', r) := buildSerialIndex fuel None None w' in (w'', res_map JObj r))
             (Some TTL_HOUR) (cacheDisabled w) w.

(** [searchSerial(serial)] (lines 1081-1106) *)
Definition searchSerial (fuel : nat) (serial : string) : st (world _) jsval :=
  index <- cached_index fuel ;;
  lift_res (lookup_serial msg_not_in_orders serial index).

(** [listSerials({limit, productId})] (lines 1118-1147) *)
Definition listSerials (fuel : nat) (limit : option Z) (productId : option string) :
    st (world _) jsval :=
  index <- cached_index fuel ;;
  serials <- lift_res (values_of index) ;;
  let serials :=
    match productId with
    | Some p => if truthy (JStr p) then List.filter (fun v => is_str (oprop v "productId") p) serials
                else serials
    | None => serials
    end in
  let serials :=
    match limit with
    | Some l => if negb (Z.eqb l 0) && Z.ltb l (Z.of_nat (length serials)) then slice0 l serials
                else serials
    | None => serials
    end in
  ret (JObj [("count", JNum (Z.of_nat (length serials)));
             ("totalInIndex", JNum (Z.of_nat (keys_count index)));
             ("serials", JArr serials)]).

(** ** The product-based index (lines 1220-1284) *)

Definition product_record (n : string) (serial : jsval) : jsval :=
  JObj [("serial", JStr n);
        ("productId", oprop serial "productId");
        ("productName", oprop serial "productName");
        ("locationId", oprop serial "locationId");
        ("quantityOnHand", oprop serial "quantityOnHand");
        ("sublocation", oprop serial "sublocation");
        ("inStock", oprop serial "inStock")].

(** The loop body: [serial.serial.trim().toUpperCase()], then a plain
    assignment. *)
Definition add_product_serial (idx : jsobj) (serial : jsval) : res jsobj :=
  res_bind (prop serial "serial") (fun s =>
    match s with
    | JStr str => let n := normalizeSerial str in Ok (obj_set idx n (product_record n serial))
    | _ => Err (TypeError "serial.serial.trim is not a function")
    end).

Definition buildSerialIndexFromProducts (maxProducts : option Z) : st (world _) jsobj :=
  result <- callTool "list_all_serials" [("maxProducts", js_or (num_opt maxProducts) (JNum 100))] ;;
  serials <- lift_res (res_bind (prop result "serials") iter_or_empty) ;;
  lift_res (fold_res add_product_serial [] serials).

(** [searchSerialByProduct(serial)] (lines 1260-1284) *)
Definition searchSerialByProduct (serial : string) : st (world _) jsval :=
  index <- (fun w => Cache.getOrFetch "serial_index_products"
                       (fun w' => let '(w'', r) := buildSerialIndexFromProducts None w' in
                                  (w'', res_map JObj r))
                       (Some TTL_FIFTEEN_MINUTES) (cacheDisabled w) w) ;;
  lift_res (lookup_serial msg_not_in_products serial index).

(** ** Serials of one order (lines 892-980) *)

(** [Map] keys compare primitives by value. *)
Definition same_key (a b : jsval) : bool :=
  match a, b with
  | JStr x, JStr y => String.eqb x y
  | JNum x, JNum y => Z.eqb x y
  | JBool x, JBool y => Bool.eqb x y
  | _, _ => false
  end.

(** The [serialMap] entries: serial, product id, sources. *)
Definition serial_entry : Type := jsval * jsval * list string.

Fixpoint map_add (m : list serial_entry) (serial productId : jsval) (source : string) :
    list serial_entry :=
  match m with
  | [] => [(serial, productId, [source])]
  | (s, p, srcs) :: m' =>
      if same_key s serial then (s, p, srcs ++ [source]) :: m'
      else (s, p, srcs) :: map_add m' serial productId source
  end.

Definition extract_serials_line (source : string) (m : list serial_entry) (line : jsval) :
    res (list serial_entry) :=
  res_bind (line_serials line) (fun sns =>
    Ok (fold_left (fun m serial =>
                     if truthy serial then map_add m serial (oprop line "productId") source else m)
                  sns m)).

(** [extractSerials(lines, source)] (lines 912-932) *)
Definition extractSerials (lines : jsval) (source : string) (m : list serial_entry) :
    res (list serial_entry) :=
  res_bind (iter_or_empty lines) (fold_res (extract_serials_line source) m).

Definition entry_json (e : serial_entry) : jsval :=
  let '(s, p, srcs) := e in
  JObj [("serial", s); ("productId", p); ("sources", JArr (map JStr srcs))].

Definition getSalesOrderSerials (orderId : string) : st (world _) jsval :=
  order <- getSalesOrder orderId (Some ["lines"; "pickLines"; "packLines"]) ;;
  lift_res (
    res_bind (prop order "packLines") (fun pl =>
    res_bind (extractSerials pl "pack" []) (fun m1 =>
    res_bind (prop order "pickLines") (fun pk =>
    res_bind (extractSerials pk "pick" m1) (fun m2 =>
    res_bind (prop order "lines") (fun ln =>
    res_bind (extractSerials ln "order" m2) (fun m3 =>
    Ok (JObj [("salesOrderId", oprop order "salesOrderId");
              ("orderNumber", oprop order "orderNumber");
              ("orderDate", oprop order "orderDate");
              ("status", oprop order "inventoryStatus");
              ("serialCount", JNum (Z.of_nat (length m3)));
              ("serials", JArr (map entry_json m3))])))))))).

(** [getPurchaseOrderSerials(orderId)] (lines 957-980): no filtering, no
    de-duplication. *)
Definition po_line_serials (line : jsval) : res (list jsval) :=
  res_bind (prop line "quantity") (fun q =>
  res_bind (iter_or_empty (oprop q "serialNumbers")) (fun sns =>
    Ok (map (fun s => JObj [("serial", s); ("productId", oprop line "productId");
                            ("lineId", oprop line "purchaseOrderLineId")]) sns))).

Definition getPurchaseOrderSerials (orderId : string) : st (world _) jsval :=
  order <- getPurchaseOrder orderId (Some ["lines"]) ;;
  lift_res (
    res_bind (prop order "lines") (fun ln =>
    res_bind (iter_or_empty ln) (fun lines =>
    res_bind (concat_res (map po_line_serials lines)) (fun serials =>
    Ok (JObj [("purchaseOrderId", oprop order "purchaseOrderId");
              ("orderNumber", oprop order "orderNumber");
              ("orderDate", oprop order "orderDate");
              ("status", oprop order "inventoryStatus");
              ("serialCount", JNum (Z.of_nat (length serials)));
              ("serials", JArr serials)]))))).

(** The deprecated aliases (lines 1293-1309). *)
Definition listSerialNumbers (fuel : nat) (productId : option string) (limit : option Z) :=
  listSerials fuel limit productId.
Definition getSerialNumber (fuel : nat) (serialNumber : string) := searchSerial fuel serialNumber.
Definition searchSerialNumbers (fuel : nat) (query : string) := searchSerial fuel query.

End Lookups.

(** ** Theorems on the lookups *)

Lemma normalizeSerial_idem s : normalizeSerial (normalizeSerial s) = normalizeSerial s.
Proof.
  unfold normalizeSerial.
  by rewrite JsString.trim_toUpperCase, JsString.trim_idem, JsString.toUpperCase_idem.
Qed.

(** [normalizeSerial_no_lower]: a normalised serial contains no
    lower-case ASCII letter.  Every property name of [Object.prototype]
    ([constructor], [toString], [__proto__], ...) contains one, so a
    lookup [serialIndex[normalizedSerial]] only ever reads the index's own
    properties, which is what [obj_get] models. *)
Theorem normalizeSerial_no_lower s c :
  In c (list_ascii_of_string (normalizeSerial s)) -> JsString.is_lower c = false.
Proof. apply JsString.toUpperCase_no_lower. Qed.

Section LookupTheorems.
Context `{Remote} `{JsonParse}.

(** [searchSerial_normalizes]: two queries with the same
    normalisation ([" abc123 "] and ["ABC123"]) give the same answer and
    the same world; in particular a query and its normalisation do. *)
Theorem searchSerial_normalizes fuel q1 q2 (w : world _) :
  normalizeSerial q1 = normalizeSerial q2 -> searchSerial fuel q1 w = searchSerial fuel q2 w.
Proof. intros Hn. unfold searchSerial, lookup_serial. by rewrite Hn. Qed.

Corollary searchSerial_normalized fuel q (w : world _) :
  searchSerial fuel (normalizeSerial q) w = searchSerial fuel q w.
Proof. unfold searchSerial, lookup_serial. by rewrite normalizeSerial_idem. Qed.

Lemma slice0_length {A} (n : Z) (l : list A) :
  (0 < n)%Z -> (length (slice0 n l) <= Z.to_nat n)%nat.
Proof. intros Hn. unfold slice0. destruct (Z.ltb_spec n 0); [lia|]. rewrite length_firstn. lia. Qed.

(** C25 [listSerials_limit_bound]: with a positive [limit], [listSerials]
    returns at most [limit] serials, and its [count] is their number. *)
Theorem listSerials_limit_bound fuel lim productId (w : world _) v :
  (0 < lim)%Z -> (listSerials fuel (Some lim) productId w).2 = Ok v ->
  exists serials, oprop v "serials" = JArr serials /\
                  oprop v "count" = JNum (Z.of_nat (length serials)) /\
                  (length serials <= Z.to_nat lim)%nat.
Proof.
  intros Hl. unfold listSerials, bind.
  destruct (cached_index fuel w) as [w1 [index|e]]; [|done]. unfold lift_res.
  destruct (values_of index) as [vals|e]; [|done]. simpl. intros [= <-].
  set (f := match productId with Some p => _ | None => _ end).
  eexists. split; [reflexivity|]. split; [reflexivity|].
  destruct (negb (Z.eqb lim 0) && Z.ltb lim (Z.of_nat (length f))) eqn:E.
  - by apply slice0_length.
  - apply andb_false_iff in E as [E|E]; [apply negb_false_iff, Z.eqb_eq in E; lia|].
    apply Z.ltb_ge in E. lia.
Qed.

End LookupTheorems.

(** ** The serials of one order, as a grouping of occurrences

    [getSalesOrderSerials] walks the pack, pick and order lines and adds
    every truthy serial to a [Map] keyed by the serial value.  The
    reference below lists the occurrences first, serial, product and
    source, in the same order and with the same errors; [serial_group]
    says what the [Map] holds for one string serial: nothing when it
    never occurs, else one entry with the product of its first occurrence
    and the sources of all its occurrences in order. *)

Definition raw_occurrence : Type := jsval * jsval * string.

Definition line_raw_occs (source : string) (line : jsval) : res (list raw_occurrence) :=
  res_bind (line_serials line) (fun sns =>
    Ok (map (fun s => (s, oprop line "productId", source)) (List.filter truthy sns))).

Definition lines_raw_occs (lines : jsval) (source : string) : res (list raw_occurrence) :=
  res_bind (iter_or_empty lines) (fun ls => concat_res (map (line_raw_occs source) ls)).

Definition order_raw_occs (order : jsval) : res (list raw_occurrence) :=
  res_bind (prop order "packLines") (fun pl =>
  res_bind (lines_raw_occs pl "pack") (fun a =>
  res_bind (prop order "pickLines") (fun pk =>
  res_bind (lines_raw_occs pk "pick") (fun b =>
  res_bind (prop order "lines") (fun ln =>
  res_bind (lines_raw_occs ln "order") (fun c => Ok (a ++ b ++ c))))))).

Definition has_serial (s : string) (e : serial_entry) : bool := same_key e.1.1 (JStr s).

Definition serial_group (occs : list raw_occurrence) (s : string) : list serial_entry :=
  match List.find (fun o => same_key o.1.1 (JStr s)) occs with
  | None => []
  | Some (_, p, _) => [(JStr s, p, map snd (List.filter (fun o => same_key o.1.1 (JStr s)) occs))]
  end.

Definition add_occ (m : list serial_entry) (o : raw_occurrence) : list serial_entry :=
  let '(s, p, src) := o in map_add m s p src.

Lemma same_key_str x s : same_key x (JStr s) = true -> x = JStr s.
Proof. destruct x; simpl; try discriminate. by intros ->%String.eqb_eq. Qed.

(** Two values with the same key agree on every string key. *)
Lemma same_key_trans_str e x s :
  same_key e x = true -> same_key e (JStr s) = same_key x (JStr s).
Proof. destruct e, x; simpl; try discriminate; intros ?%String.eqb_eq || intros _; by subst. Qed.

(** One [map.set] or source append, seen through one string key. *)
Lemma map_add_filter m x p src s :
  List.filter (has_serial s) (map_add m x p src) =
    if same_key x (JStr s) then
      match List.filter (has_serial s) m with
      | [] => [(x, p, [src])]
      | (a, b, c) :: r => (a, b, c ++ [src]) :: r
      end
    else List.filter (has_serial s) m.
Proof.
  unfold has_serial. induction m as [|[[e pe] srcs] m IH]; simpl.
  - by destruct (same_key x (JStr s)).
  - destruct (same_key e x) eqn:Hex; simpl.
    + rewrite (same_key_trans_str _ _ _ Hex).
      by destruct (same_key x (JStr s)).
    + rewrite IH. destruct (same_key e (JStr s)) eqn:Hes; [|done].
      destruct (same_key x (JStr s)) eqn:Hxs; [|done].
      apply same_key_str in Hxs as ->. by rewrite Hes in Hex.
Qed.

Lemma find_none_filter {A} (f : A -> bool) l : List.find f l = None -> List.filter f l = [].
Proof.
  induction l as [|a l IH]; simpl; [done|]. destruct (f a); [discriminate|exact IH].
Qed.

(** The [Map] built from the occurrences holds, for each string serial,
    exactly its group. *)
Lemma fold_add_occ_group occs s :
  List.filter (has_serial s) (fold_left add_occ occs []) = serial_group occs s.
Proof.
  induction occs as [|[[x p] src] occs IH] using rev_ind; [done|].
  rewrite fold_left_app. simpl. rewrite map_add_filter, IH. unfold serial_group.
  rewrite find_app, List.filter_app, map_app. simpl.
  match goal with |- context [List.find ?f occs] => destruct (List.find f occs) as [[[x0 p0] src0]|] eqn:Hf end.
  - destruct (same_key x (JStr s)); simpl; by rewrite ?app_nil_r.
  - destruct (same_key x (JStr s)) eqn:Hx; [|done].
    rewrite (find_none_filter (A := raw_occurrence) _ occs Hf).
    by apply same_key_str in Hx as ->.
Qed.

Lemma extractSerials_occs lines src m :
  extractSerials lines src m = res_map (fun occs => fold_left add_occ occs m) (lines_raw_occs lines src).
Proof.
  unfold extractSerials, lines_raw_occs.
  destruct (iter_or_empty lines) as [ls|e]; simpl; [|done].
  apply fold_res_concat. intros m' line. unfold extract_serials_line, line_raw_occs.
  destruct (line_serials line) as [sns|e]; simpl; [|done]. f_equal.
  generalize m'. induction sns as [|sn sns IH]; intros m0; simpl; [done|].
  by destruct (truthy sn).
Qed.

Section SerialMapTheorems.
Context `{Remote} `{JsonParse}.

(** C26 [getSalesOrderSerials_groups_raw]: when [getSalesOrderSerials]
    succeeds, its [serials] are the [Map] of the order's serial
    occurrences (pack lines, then pick lines, then order lines, falsy
    serials skipped) keyed by the raw serial value: for every string [s],
    the entries for [s] are exactly its group, one entry with the product
    of its first occurrence and the sources of all its occurrences, and
    none when [s] does not occur.  No trimming or upper-casing takes
    place, so [" abc"] and ["ABC"] are two entries and [serialCount]
    counts raw spellings, while the index keys both as ["ABC"]. *)
Theorem getSalesOrderSerials_groups_raw orderId (w w' : world _) v :
  getSalesOrderSerials orderId w = (w', Ok v) ->
  exists order occs m,
    getSalesOrder orderId (Some ["lines"; "pickLines"; "packLines"]) w = (w', Ok order) /\
    order_raw_occs order = Ok occs /\
    oprop v "serials" = JArr (map entry_json m) /\
    oprop v "serialCount" = JNum (Z.of_nat (length m)) /\
    (forall s, List.filter (has_serial s) m = serial_group occs s).
Proof.
  unfold getSalesOrderSerials, bind.
  destruct (getSalesOrder _ _ w) as [w1 [order|e]]; [|intros [=]].
  unfold lift_res.
  destruct (prop order "packLines") as [pl|e] eqn:E1; simpl; [|intros [=]].
  rewrite extractSerials_occs. destruct (lines_raw_occs pl "pack") as [a|e] eqn:E2; simpl; [|intros [=]].
  destruct (prop order "pickLines") as [pk|e] eqn:E3; simpl; [|intros [=]].
  rewrite extractSerials_occs. destruct (lines_raw_occs pk "pick") as [b|e] eqn:E4; simpl; [|intros [=]].
  destruct (prop order "lines") as [ln|e] eqn:E5; simpl; [|intros [=]].
  rewrite extractSerials_occs. destruct (lines_raw_occs ln "order") as [c|e] eqn:E6; simpl; [|intros [=]].
  intros [= <- <-]. exists order, (a ++ b ++ c), (fold_left add_occ (a ++ b ++ c) []).
  split; [done|]. split; [unfold order_raw_occs; by rewrite E1; simpl; rewrite E2, E3; simpl; rewrite E4, E5; simpl; rewrite E6|].
  rewrite !fold_left_app. split; [done|]. split; [done|].
  intros s. rewrite <- !fold_left_app. apply fold_add_occ_group.
Qed.

End SerialMapTheorems.


(** The record of the last serial whose [serial] field normalises to [n],
    starting from [d]. *)
Definition last_product_record (serials : list jsval) (n : string) (d : jsval) : jsval :=
  fold_left (fun acc s =>
               match prop s "serial" with
               | Ok (JStr str) => if String.eqb (normalizeSerial str) n then product_record n s else acc
               | _ => acc
               end) serials d.

(** C23 [product_index_last_writer_wins]: in the product-based index the
    entry of a serial is the record of its last occurrence in the server's
    list: a later copy overwrites an earlier one, unlike the order-based
    index where the first copy stays. *)
Theorem product_index_last_writer_wins serials idx idx' n :
  fold_res add_product_serial idx serials = Ok idx' ->
  obj_get idx' n = last_product_record serials n (obj_get idx n).
Proof.
  revert idx. induction serials as [|s serials IH]; intros idx Hf; simpl in *.
  - by injection Hf as <-.
  - unfold add_product_serial in Hf. destruct (prop s "serial") as [v|e]; simpl in Hf; [|done].
    destruct v; try discriminate. rewrite (IH _ Hf). f_equal.
    destruct (String.eqb_spec (normalizeSerial s0) n) as [<-|Hne].
    + by rewrite obj_get_set_eq.
    + by rewrite obj_get_set_ne.
Qed.

(** ** Concrete runs *)

Section Witnesses.
Import Gateway.Fixture.

Definition line_with (productId : string) (serials : list string) : jsval :=
  JObj [("productId", JStr productId);
        ("quantity", JObj [("serialNumbers", JArr (map JStr serials))])].

Definition order_with (id : string) (pack lines : list jsval) : jsval :=
  JObj [("salesOrderId", JStr id); ("orderNumber", JStr id);
        ("packLines", JArr pack); ("lines", JArr lines)].

(** An order whose pack line carries [" abc"] and whose order line
    carries ["ABC"]. *)
Definition mixed_case_order : jsval :=
  order_with "SO-1" [line_with "P1" [" abc"]] [line_with "P1" ["ABC"]].

(** Two orders that share the serial [X1]: the first lists it as ["x1"]
    on an order line, the second as ["X1 "] on a pack line. *)
Definition order_a : jsval := order_with "SO-A" [] [line_with "P1" ["x1"]].
Definition order_b : jsval := order_with "SO-B" [line_with "P2" ["X1 "; "Y2"]] [].

(** A page of 80 orders, and a full page of 100. *)
Definition short_page : list jsval := repeat (JObj [("salesOrderId", JStr "SO")]) 80.
Definition full_page : list jsval := repeat (JObj [("salesOrderId", JStr "SO")]) 100.

#[local] Instance witness_parser : JsonParse :=
  table_parser [("SO-1", mixed_case_order); ("short", JArr short_page); ("page", JArr full_page);
                ("ab", JArr [order_a; order_b])].

(** A server that answers every call with the full page. *)
#[local] Instance endless : Remote := {|
  rstate := unit;
  r_connect r := (r, Ok tt);
  r_listTools r := (r, Ok []);
  r_callTool r _ _ := (r, text_answer "page");
  r_close r := r
|}.

Definition endless_world : world endless :=
  mkWorld (Cache.create "inflow-inventory-manager" CacheKey.TTL_FIVE_MINUTES) false true tt
    (mkConfig "inflow-mcp" [] []) good_env 0 [].

(** The order with [" abc"] on a pack line and ["ABC"] on an order line:
    two entries, although both serials normalise to ["ABC"]. *)
Lemma getSalesOrderSerials_groups_raw_witness :
  exists w' v,
    getSalesOrderSerials "SO-1" (world0 [text_answer "SO-1"] good_env) = (w', Ok v) /\
    oprop v "serialCount" = JNum 2 /\ normalizeSerial " abc" = normalizeSerial "ABC" /\
    exists order occs m,
      getSalesOrder "SO-1" (Some ["lines"; "pickLines"; "packLines"])
        (world0 [text_answer "SO-1"] good_env) = (w', Ok order) /\
      order_raw_occs order = Ok occs /\
      oprop v "serials" = JArr (map entry_json m) /\
      oprop v "serialCount" = JNum (Z.of_nat (length m)) /\
      (forall s, List.filter (has_serial s) m = serial_group occs s).
Proof.
  do 2 eexists.
  assert (Hr : getSalesOrderSerials "SO-1" (world0 [text_answer "SO-1"] good_env) = (_, Ok _))
    by reflexivity.
  split; [exact Hr|]. split; [reflexivity|]. split; [reflexivity|].
  exact (getSalesOrderSerials_groups_raw _ _ _ _ Hr).
Defined.

Lemma index_orders_first_writer_wins_witness :
  exists idx, index_orders [order_b; order_a] = Ok idx /\
    (exists occs, collect [order_b; order_a] = Ok occs /\
       (forall n, obj_get idx n = first_record occs n) /\ NoDup (obj_keys idx)) /\
    oprop (obj_get idx "X1") "salesOrderId" = JStr "SO-B".
Proof.
  eexists. split; [reflexivity|]. split; [|reflexivity].
  apply index_orders_first_writer_wins. reflexivity.
Defined.

Lemma earlier_orders_win_witness :
  exists occs1 idx, collect [order_a] = Ok occs1 /\ In "X1" (map (fun o => o.1.1) occs1) /\
    index_orders ([order_a] ++ [order_b]) = Ok idx /\
    obj_get idx "X1" = first_record occs1 "X1" /\
    oprop (obj_get idx "X1") "salesOrderId" = JStr "SO-A".
Proof.
  do 2 eexists. split; [reflexivity|]. split; [vm_compute; auto|].
  split; [reflexivity|]. split; [|reflexivity].
  apply (earlier_orders_win [order_a] [order_b]); [reflexivity|vm_compute; auto|reflexivity].
Defined.

Lemma endless_full_pages :
  forall (w : world endless) skip, connected w = true ->
    exists l, (callTool "list_sales_orders" (page_args "Fulfilled" skip) w).2 = Ok (JArr l) /\
              (100 <= length l)%nat /\
              connected (callTool "list_sales_orders" (page_args "Fulfilled" skip) w).1 = true.
Proof.
  intros w skip Hc. exists full_page.
  unfold callTool, bind, connect. rewrite Hc. simpl. split; [done|]. split; [vm_compute; lia|done].
Qed.

(** A server that always answers full pages, and a cap of 150: the second
    page reaches the cap and the scan truncates to 150 orders, so three
    units of fuel give the same result as eight. *)
Lemma fetch_pages_capped_terminates_witness :
  (0 < 150)%Z /\ (Z.to_nat 150 <= length (@nil jsval) + 100 * 2)%nat /\
  fetch_pages (S 2 + 5) "Fulfilled" (Some 150%Z) 0 [] endless_world =
    fetch_pages (S 2) "Fulfilled" (Some 150%Z) 0 [] endless_world /\
  res_map (@length jsval) (fetch_pages (S 2) "Fulfilled" (Some 150%Z) 0 [] endless_world).2 = Ok 150%nat.
Proof.
  split; [lia|]. split; [vm_compute; lia|]. split; [|vm_compute; reflexivity].
  apply fetch_pages_capped_terminates; [lia|vm_compute; lia].
Defined.

Lemma fetch_pages_diverges_uncapped_witness :
  (fetch_pages 50 "Fulfilled" None 0 [] endless_world).2 = Err Diverged.
Proof. apply (fetch_pages_diverges_uncapped "Fulfilled" endless_full_pages); reflexivity. Defined.

Lemma short_page_ignores_cap_witness :
  exists w1, fetch_pages 3 "Fulfilled" (Some 50%Z) 0 [] (world0 [text_answer "short"] good_env) =
               (w1, Ok short_page) /\ length short_page = 80%nat.
Proof.
  eexists. split; [|reflexivity].
  apply short_page_ignores_cap; [reflexivity|vm_compute; lia].
Defined.

Lemma normalizeSerial_no_lower_witness :
  In "A"%char (list_ascii_of_string (normalizeSerial " a ")) /\ JsString.is_lower "A" = false.
Proof.
  split; [vm_compute; auto|].
  apply (normalizeSerial_no_lower " a "). vm_compute. auto.
Defined.

Lemma searchSerial_normalizes_witness :
  normalizeSerial " abc" = normalizeSerial "ABC" /\
  searchSerial 3 " abc" (world0 [] good_env) = searchSerial 3 "ABC" (world0 [] good_env).
Proof. split; [reflexivity|]. apply searchSerial_normalizes. reflexivity. Defined.

(** A full page then a page of 80, with a limit of 150: 180 orders. *)
Lemma fetch_pages_cap_bound_witness :
  exists w' l, fetch_pages 3 "Fulfilled" (Some 150%Z) 0 []
                 (world0 [text_answer "page"; text_answer "short"] good_env) = (w', Ok l) /\
               length l = 180%nat /\ (length l < Z.to_nat 150 + 100)%nat.
Proof.
  set (w0 := world0 [text_answer "page"; text_answer "short"] good_env).
  assert (Hr : fetch_pages 3 "Fulfilled" (Some 150%Z) 0 [] w0 =
                 ((fetch_pages 3 "Fulfilled" (Some 150%Z) 0 [] w0).1, Ok (full_page ++ short_page)))
    by (vm_compute; reflexivity).
  do 2 eexists. split; [exact Hr|]. split; [reflexivity|].
  eapply (@fetch_pages_cap_bound scripted witness_parser 3 "Fulfilled" 150 0 []); [lia|simpl; lia|exact Hr].
Defined.

(** A cache miss on the index: one short page holding [order_a] and
    [order_b], whose two serials are listed with a limit of one. *)
Lemma listSerials_limit_bound_witness :
  exists v, (listSerials 3 (Some 1%Z) None (world0 [text_answer "ab"] good_env)).2 = Ok v /\
    oprop v "totalInIndex" = JNum 2 /\
    exists serials, oprop v "serials" = JArr serials /\
                    oprop v "count" = JNum (Z.of_nat (length serials)) /\
                    (length serials <= Z.to_nat 1)%nat.
Proof.
  eexists. split; [reflexivity|]. split; [reflexivity|].
  apply (@listSerials_limit_bound scripted witness_parser 3 1 None (world0 [text_answer "ab"] good_env)); [lia|reflexivity].
Defined.

(** Two inventory lines for the same serial, in two products. *)
Definition product_serials : list jsval :=
  [JObj [("serial", JStr "x1"); ("productId", JStr "P1")];
   JObj [("serial", JStr "X1 "); ("productId", JStr "P2")]].

Lemma product_index_last_writer_wins_witness :
  exists idx', fold_res add_product_serial [] product_serials = Ok idx' /\
    obj_get idx' "X1" = last_product_record product_serials "X1" (obj_get [] "X1") /\
    oprop (obj_get idx' "X1") "productId" = JStr "P2".
Proof.
  eexists. split; [reflexivity|]. split; [|reflexivity].
  apply product_index_last_writer_wins. reflexivity.
Defined.

End Witnesses.

End SerialIndex.
