(* ===== verification/SerialProps.v ===== *)
(** * SerialProps: well-formedness and round trips of the serial index

    Properties of the definitions of [SerialIndex] that combine several
    of them:
    - the shape of an index ([wf_index]): every key is a normalised serial
      and every record carries its own key in its [serial] field, for both
      the order-based and the product-based builder; the order-based keys
      are distinct;
    - the round trip between building and searching: a serial that occurs
      in the indexed orders is found, with the record of its first
      occurrence, whichever spelling of it is searched, also through the
      cache by [searchSerial]; a serial that does not occur is reported
      as not found.
    The bounds of the paging loop and of [listSerials] are in
    [SerialIndex], beside the definitions they bound. *)

From S2P Require Import Prelude JsString Json Cache CacheKey Gateway Accessors SerialIndex.
Import Json CacheKey Gateway Accessors SerialIndex.

Module SerialProps.

(** ** The shape of an index *)

(** An entry [(k, record)]: [k] is a normalised serial and
    [record.serial === k]. *)
Definition wf_entry (kv : string * jsval) : Prop :=
  normalizeSerial kv.1 = kv.1 /\ oprop kv.2 "serial" = JStr kv.1.

Definition wf_index (idx : jsobj) : Prop := Forall wf_entry idx.

Lemma wf_entry_normalized s (r : jsval) :
  oprop r "serial" = JStr (normalizeSerial s) -> wf_entry (normalizeSerial s, r).
Proof. intros Hr. split; [apply normalizeSerial_idem|exact Hr]. Qed.

#[local] Hint Unfold wf_index : inflow.
#[local] Hint Resolve obj_set_Forall wf_entry_normalized : inflow.

Lemma add_serial_wf order line idx serial idx' :
  wf_index idx -> add_serial order line idx serial = Ok idx' -> wf_index idx'.
Proof.
  unfold add_serial. intros Hwf.
  destruct (negb (truthy serial)); [by intros [= <-]|].
  destruct serial; try discriminate.
  destruct (truthy (obj_get idx _)); intros [= <-]; [done|].
  auto with inflow.
Qed.

Lemma extractFromLines_wf lines order idx idx' :
  wf_index idx -> extractFromLines lines order idx = Ok idx' -> wf_index idx'.
Proof.
  unfold extractFromLines. intros Hwf. destruct (iter_or_empty lines) as [ls|e]; [|done].
  apply fold_res_inv; [|done]. intros a line a' Ha.
  unfold extract_line. destruct (line_serials line) as [sns|e]; [|done].
  apply fold_res_inv; [|done]. intros. by eapply add_serial_wf.
Qed.

Lemma index_order_wf idx order idx' :
  wf_index idx -> index_order idx order = Ok idx' -> wf_index idx'.
Proof.
  unfold index_order. intros Hwf.
  destruct (prop order "packLines"); [|done]. simpl.
  destruct (extractFromLines _ order idx) as [i1|] eqn:E1; [|done]. simpl.
  destruct (prop order "pickLines"); [|done]. simpl.
  destruct (extractFromLines _ order i1) as [i2|] eqn:E2; [|done]. simpl.
  destruct (prop order "lines"); [|done]. simpl.
  intros E3. eapply extractFromLines_wf, E3.
  eapply extractFromLines_wf, E2. eapply extractFromLines_wf, E1. exact Hwf.
Qed.

Lemma add_product_serial_wf idx serial idx' :
  wf_index idx -> add_product_serial idx serial = Ok idx' -> wf_index idx'.
Proof.
  unfold add_product_serial. intros Hwf.
  destruct (prop serial "serial") as [v|e]; [|done]. simpl.
  destruct v; try discriminate. intros [= <-]. auto with inflow.
Qed.

(** C13 [index_orders_wf]: the order-based index is well formed: its
    keys are distinct normalised serials, and each record's [serial] field
    is its key. *)
Theorem index_orders_wf orders idx :
  index_orders orders = Ok idx -> wf_index idx /\ NoDup (obj_keys idx).
Proof.
  intros Hidx. split.
  - revert Hidx. unfold index_orders. apply fold_res_inv; [apply index_order_wf|constructor].
  - by destruct (index_orders_lookup _ _ Hidx) as (? & _ & _ & ?).
Qed.

(** C24 [buildSerialIndexFromProducts_wf]: the product-based index is
    well formed too, whatever the server answers: its keys are distinct
    normalised serials, each record carrying its key. *)
Theorem buildSerialIndexFromProducts_wf `{Remote} `{JsonParse} maxProducts (w : world _) idx :
  (buildSerialIndexFromProducts maxProducts w).2 = Ok idx -> wf_index idx /\ NoDup (obj_keys idx).
Proof.
  unfold buildSerialIndexFromProducts, bind.
  destruct (callTool _ _ w) as [w1 [result|e]]; [|done]. unfold lift_res.
  destruct (res_bind _ _) as [serials|e]; [|done]. simpl.
  destruct (fold_res add_product_serial [] serials) as [i|e] eqn:E; simpl; [|done].
  intros [= <-]. split.
  - revert E. apply fold_res_inv; [apply add_product_serial_wf|constructor].
  - revert E. apply (fold_res_inv (fun i => NoDup (obj_keys i))); [|constructor].
    unfold add_product_serial. intros a x a' Ha.
    destruct (prop x "serial") as [[]|]; simpl; try discriminate.
    intros [= <-]. by apply obj_set_nodup.
Qed.

(** ** Building, then searching *)

Definition found_answer (record : jsval) : jsval := JObj (spread [("found", JBool true)] record).

Definition not_found_answer (msg n : string) : jsval :=
  JObj [("found", JBool false); ("serial", JStr n); ("message", JStr msg)].

(** Looking a serial up in a built index. *)
Lemma lookup_index msg s orders idx occs :
  index_orders orders = Ok idx -> collect orders = Ok occs ->
  lookup_serial msg s (JObj idx) =
    if truthy (first_record occs (normalizeSerial s))
    then Ok (found_answer (first_record occs (normalizeSerial s)))
    else Ok (not_found_answer msg (normalizeSerial s)).
Proof.
  intros Hidx Hc. destruct (index_orders_lookup _ _ Hidx) as (occs' & Hc' & Hget & _).
  rewrite Hc in Hc'. injection Hc' as <-. unfold lookup_serial. simpl. by rewrite Hget.
Qed.

Section Search.
Context `{Remote} `{JsonParse}.

(** C11 [searchSerial_finds_indexed]: with the cache enabled and holding
    a fresh index built from some orders, [searchSerial s] answers from
    the cache: found, with the record of the first occurrence, when [s]
    normalises to a serial occurring in those orders, however it is
    spelled; not found, with the normalised serial, otherwise. *)
Theorem searchSerial_finds_indexed fuel s (w : world _) orders idx occs :
  cacheDisabled w = false -> Cache.enabled (w_cache w) = true ->
  Cache.view (w_cache w) (clock w) !! "serial_index" = Some (JObj idx) ->
  index_orders orders = Ok idx -> collect orders = Ok occs ->
  (In (normalizeSerial s) (map (fun o => o.1.1) occs) ->
     searchSerial fuel s w =
       (set_cache (Cache.count_hit (w_cache w)) w,
        Ok (found_answer (first_record occs (normalizeSerial s))))) /\
  (~ In (normalizeSerial s) (map (fun o => o.1.1) occs) ->
     searchSerial fuel s w =
       (set_cache (Cache.count_hit (w_cache w)) w, Ok (not_found_answer msg_not_in_orders (normalizeSerial s)))).
Proof.
  intros Hd He Hv Hidx Hc.
  assert (Hs : searchSerial fuel s w =
                 (set_cache (Cache.count_hit (w_cache w)) w,
                  lookup_serial msg_not_in_orders s (JObj idx))).
  { unfold searchSerial, bind at 1, cached_index. rewrite Hd.
    rewrite (Cache.getOrFetch_hit_eq (W := world _) _ _ _ w (JObj idx)); [|exact He|exact Hv]. simpl.
    unfold lift_res. by destruct (lookup_serial _ _ _). }
  rewrite Hs, (lookup_index _ _ _ _ _ Hidx Hc). split.
  - intros Hin. by destruct (first_record_in _ _ Hin) as (n' & order & line & _ & ->).
  - intros Hnin. by rewrite first_record_notin.
Qed.

End Search.

(** ** Concrete runs *)

Section Witnesses.
Import Gateway.Fixture.

(** The index of [order_a] then [order_b], and their occurrences. *)
Definition ab_index : jsobj :=
  Eval vm_compute in match index_orders [order_a; order_b] with Ok i => i | Err _ => [] end.
Definition ab_occs : list occurrence :=
  Eval vm_compute in match collect [order_a; order_b] with Ok o => o | Err _ => [] end.

(** A client whose cache holds that index, fresh for an hour. *)
Definition indexed_world : world scripted :=
  set_cache (Cache.set (Cache.create "inflow-inventory-manager" TTL_FIVE_MINUTES)
               "serial_index" (JObj ab_index) (Some TTL_HOUR) 0) (world0 [] good_env).

#[local] Instance props_parser : JsonParse :=
  table_parser [("page", JArr full_page); ("short", JArr short_page);
                ("serials", JObj [("serials", JArr product_serials)])].

Lemma index_orders_wf_witness :
  exists idx, index_orders [order_b; order_a] = Ok idx /\ wf_index idx /\ NoDup (obj_keys idx).
Proof. eexists. split; [reflexivity|]. apply (index_orders_wf [order_b; order_a]). reflexivity. Defined.

Lemma buildSerialIndexFromProducts_wf_witness :
  exists idx, (buildSerialIndexFromProducts None (world0 [text_answer "serials"] good_env)).2 = Ok idx /\
              wf_index idx /\ NoDup (obj_keys idx).
Proof. eexists. split; [reflexivity|]. apply (buildSerialIndexFromProducts_wf None (world0 [text_answer "serials"] good_env)). reflexivity. Defined.

(** [" x1"] is found, with the record of [order_a]; ["Z9"] is not. *)
Lemma searchSerial_finds_indexed_witness :
  searchSerial 3 " x1" indexed_world =
    (set_cache (Cache.count_hit (w_cache indexed_world)) indexed_world,
     Ok (found_answer (first_record ab_occs (normalizeSerial " x1")))) /\
  oprop (first_record ab_occs (normalizeSerial " x1")) "salesOrderId" = JStr "SO-A" /\
  searchSerial 3 "Z9" indexed_world =
    (set_cache (Cache.count_hit (w_cache indexed_world)) indexed_world,
     Ok (not_found_answer msg_not_in_orders (normalizeSerial "Z9"))).
Proof.
  split; [|split; [reflexivity|]].
  - refine (proj1 (searchSerial_finds_indexed 3 " x1" indexed_world [order_a; order_b] ab_index ab_occs
                     _ _ _ _ _) _); try reflexivity. vm_compute. auto.
  - refine (proj2 (searchSerial_finds_indexed 3 "Z9" indexed_world [order_a; order_b] ab_index ab_occs
                     _ _ _ _ _) _); try reflexivity. vm_compute. intuition discriminate.
Defined.

End Witnesses.

End SerialProps.
