(* ===== verification/Cli.v ===== *)
(** * Cli: the command handlers of [src/scripts/cli.ts]

    The CLI maps each command name to a handler [(args, client) => ...]
    over one [InFlowMCPClient].  Argument parsing and validation with Zod,
    [createCommand], [runCli] and [cacheCommands] come from the package
    [@local/cli-utils], which is not in the repository; a handler is
    modelled here as a function of its already validated arguments (an
    optional argument is an [option]), in the monad [st (world _)] of the
    client.

    Most handlers forward to one client method; those are modelled by
    [Accessors.run_read] and [Mutations.run_write].  This file models the
    handlers that add logic of their own:
    - [fresh_read]: the bracket [client.disableCache(); await read;
      client.enableCache()] of [update-product], [add-po-item] and
      [update-purchase-order] (lines 338-340, 442-444, 470-472);
    - [update_product], [update_vendor], [add_po_item],
      [update_purchase_order]: read-modify-write flows;
    - [receive_po_items], [unreceive_po_items]: the mode checks;
    - [create_purchase_order]: the [JSON.parse] of the items, with its
      [catch]; [parse_opt]: the unguarded [JSON.parse] of the receive
      commands;
    - [build_serial_index]: the report of the index build.

    The theorems show that a failing read inside the bracket leaves the
    cache disabled for the rest of the process, that the bracket does read
    from the server, that the mode checks reject before any I/O, that an
    [--items] argument that is not JSON is rejected before any I/O (with a
    [SyntaxError] of [JSON.parse] in the receive commands), that a
    missing vendor stops [update-vendor] before the write, and that
    [build-serial-index] stores nothing in the cache although its message
    says the index is cached. *)

From S2P Require Import Prelude Json Cache CacheKey Gateway Accessors Mutations SerialIndex.
Import Json CacheKey Gateway Accessors Mutations SerialIndex.

Module Cli.

Section Commands.
Context `{Remote} `{JsonParse}.

(** [JSON.parse(s)] with no [try]: a parse failure propagates. *)
Definition parse_json (s : string) : res jsval :=
  match json_parse s with
  | Some v => Ok v
  | None => Err (SyntaxError "Unexpected token in JSON")
  end.

(** [s ? JSON.parse(s) : undefined] *)
Definition parse_opt (s : option string) : res jsval :=
  match s with
  | Some t => if truthy (JStr t) then parse_json t else Ok JUndef
  | None => Ok JUndef
  end.

(** [client.disableCache(); const current = await read; client.enableCache();]
    There is no [try]/[finally]: when [read] throws, [enableCache] is not
    reached. *)
Definition disabled (w : world _) : world _ :=
  set_cache (Cache.disable (w_cache w)) (set_cacheDisabled true w).

Definition reenabled (w : world _) : world _ :=
  set_cache (Cache.enable (w_cache w)) (set_cacheDisabled false w).

Definition fresh_read (read : st (world _) jsval) : st (world _) jsval :=
  disableCache ;;
  current <- read ;;
  enableCache ;;
  ret current.

(** ** [update-product] (lines 323-350) *)

(** The write after the read: [name || current.name] evaluates
    [current.name] only when [name] is falsy; [current.timestamp] is
    always read. *)
Definition update_product_body (id : string) (name sku description : option string)
    (cost price : option Z) (current : jsval) : st (world _) jsval :=
  nm <- lift_res (if truthy (str_opt name) then Ok (str_opt name) else prop current "name") ;;
  ts <- lift_res (prop current "timestamp") ;;
  upsertProduct [("id", JStr id); ("name", nm); ("sku", str_opt sku);
                 ("description", str_opt description); ("cost", num_opt cost);
                 ("defaultPrice", num_opt price); ("timestamp", ts)].

Definition update_product (id : string) (name sku description : option string)
    (cost price : option Z) : st (world _) jsval :=
  current <- fresh_read (getProduct id None) ;;
  update_product_body id name sku description cost price current.

(** ** [update-vendor] (lines 376-397) *)

Definition msg_vendor_not_found (id : string) : string := "Vendor " ++ id ++ " not found".

Definition update_vendor (id : string) (name email phone website : option string) :
    st (world _) jsval :=
  vendor <- getVendor id ;;
  if negb (truthy vendor) then throw (ValidationError (msg_vendor_not_found id))
  else
    nm <- lift_res (if truthy (str_opt name) then Ok (str_opt name) else prop vendor "name") ;;
    ts <- lift_res (prop vendor "timestamp") ;;
    upsertVendor [("id", JStr id); ("name", nm); ("email", str_opt email);
                  ("phone", str_opt phone); ("website", str_opt website); ("timestamp", ts)].

(** ** [create-purchase-order] (lines 400-427) *)

(** The double quote, which the messages below contain. *)
Definition dq : string := String "034"%char EmptyString.

Definition msg_invalid_items : string :=
  "Invalid items JSON. Format: [{" ++ dq ++ "productId" ++ dq ++ ":" ++ dq ++ "..." ++ dq ++
  ", " ++ dq ++ "quantity" ++ dq ++ ":5}]".

(** The [try { JSON.parse(items) } catch { throw ... }] of the items. *)
Definition parse_items (items : string) : res jsval :=
  match json_parse items with
  | Some v => Ok v
  | None => Err (ValidationError msg_invalid_items)
  end.

Definition create_purchase_order (vendorId : string)
    (orderNumber orderDate expectedDate locationId : option string) (items : string)
    (currency remarks : option string) : st (world _) jsval :=
  parsedItems <- lift_res (parse_items items) ;;
  upsertPurchaseOrder [("vendorId", JStr vendorId); ("orderNumber", str_opt orderNumber);
                       ("orderDate", str_opt orderDate); ("expectedDate", str_opt expectedDate);
                       ("locationId", str_opt locationId); ("items", parsedItems);
                       ("currencyCode", str_opt currency); ("remarks", str_opt remarks)].

(** ** [add-po-item] (lines 430-454) *)

(** [currentPO.lines] is read first; once it did not throw, [currentPO] is
    neither [undefined] nor [null] and the later reads are [oprop]. *)
Definition add_po_item (purchaseOrderId productId : string) (quantity : Z)
    (unitCost : option Z) : st (world _) jsval :=
  currentPO <- fresh_read (getPurchaseOrder purchaseOrderId (Some ["lines"])) ;;
  lines <- lift_res (prop currentPO "lines") ;;
  existingItems <- lift_res (iter_or_empty (js_or lines (JArr []))) ;;
  upsertPurchaseOrder
    [("id", JStr purchaseOrderId); ("vendorId", oprop currentPO "vendorId");
     ("items", JArr (existingItems ++
                     [JObj [("productId", JStr productId); ("quantity", JNum quantity);
                            ("unitCost", num_opt unitCost)]]));
     ("timestamp", oprop currentPO "timestamp")].

(** ** [receive-po-items] (lines 499-526) *)

Definition msg_receive_mode : string := "Provide --receiveAll=true or --items=[...]".
Definition msg_receive_both : string := "Cannot use both --receiveAll and --items".

Definition receive_po_items (purchaseOrderId : string) (receiveAll : option bool)
    (items : option string) (allowOverReceive : option bool) : st (world _) jsval :=
  if negb (truthy (bool_opt receiveAll)) && negb (truthy (str_opt items))
  then throw (ValidationError msg_receive_mode)
  else if truthy (bool_opt receiveAll) && truthy (str_opt items)
  then throw (ValidationError msg_receive_both)
  else
    parsedItems <- lift_res (parse_opt items) ;;
    receivePurchaseOrder [("purchaseOrderId", JStr purchaseOrderId);
                          ("receiveAll", bool_opt receiveAll); ("items", parsedItems);
                          ("allowOverReceive", bool_opt allowOverReceive)].

(** ** [unreceive-po-items] (lines 528-558) *)

(** [[receiveLineIds, items, unreceiveAll].filter(Boolean).length] *)
Definition unreceive_modes (receiveLineIds items : option string) (unreceiveAll : option bool) : nat :=
  length (List.filter truthy [str_opt receiveLineIds; str_opt items; bool_opt unreceiveAll]).

Definition msg_unreceive_none : string := "Provide --receiveLineIds, --items, or --unreceiveAll".
Definition msg_unreceive_many : string := "Use only one of --receiveLineIds, --items, or --unreceiveAll".

Definition unreceive_po_items (purchaseOrderId : string) (receiveLineIds items : option string)
    (unreceiveAll dryRun : option bool) : st (world _) jsval :=
  let modes := unreceive_modes receiveLineIds items unreceiveAll in
  if Nat.eqb modes 0 then throw (ValidationError msg_unreceive_none)
  else if Nat.ltb 1 modes then throw (ValidationError msg_unreceive_many)
  else
    rl <- lift_res (parse_opt receiveLineIds) ;;
    it <- lift_res (parse_opt items) ;;
    unreceivePurchaseOrder [("purchaseOrderId", JStr purchaseOrderId); ("receiveLineIds", rl);
                            ("items", it); ("unreceiveAll", bool_opt unreceiveAll);
                            ("dryRun", bool_opt dryRun)].

(** ** [build-serial-index] (lines 615-629) *)

Definition msg_index_built : string := "serial index built and cached for 1 hour".

Definition build_serial_index (fuel : nat) (limit : option Z) : st (world _) jsval :=
  serialIndex <- buildSerialIndex fuel None limit ;;
  ret (JObj [("success", JBool true);
             ("totalSerials", JNum (Z.of_nat (length (obj_keys serialIndex))));
             ("message", JStr msg_index_built)]).

End Commands.

(** ** [update-purchase-order] (lines 456-497)

    The line transform calls [parseFloat] on strings; JS number parsing is
    not modelled, so [parseFloat] is a variable of the section and the
    theorems hold for every choice of it. *)
Section UpdatePurchaseOrder.
Context `{Remote} `{JsonParse}.
Variable parseFloat : jsval -> jsval.

(** [typeof v === 'object'] *)
Definition is_object (v : jsval) : bool :=
  match v with JObj _ | JArr _ | JNull => true | _ => false end.

(** The [.map((line) => ({...}))] body, its properties read in order.  A
    [quantity] of [null] is an ['object'] and reading its
    [standardQuantity] throws. *)
Definition po_line_item (line : jsval) : res jsval :=
  res_bind (prop line "purchaseOrderLineId") (fun id =>
  res_bind (prop line "productId") (fun productId =>
  res_bind (prop line "description") (fun description =>
  res_bind (prop line "quantity") (fun q =>
  res_bind (if is_object q
            then res_bind (prop q "standardQuantity") (fun sq =>
                   if truthy sq then Ok (parseFloat sq)
                   else res_map (fun u => parseFloat (js_or u (JStr "1"))) (prop q "uomQuantity"))
            else Ok (parseFloat (js_or q (JStr "1")))) (fun quantity =>
  res_bind (prop line "unitPrice") (fun unitPrice =>
  Ok (JObj [("id", id); ("productId", productId); ("description", description);
            ("quantity", quantity); ("unitCost", parseFloat (js_or unitPrice (JStr "0")))]))))))).

(** [(currentPO.lines || []).map(...)]: [map] exists on arrays only. *)
Definition po_line_items (lines : jsval) : res (list jsval) :=
  match js_or lines (JArr []) with
  | JArr ls => concat_res (map (fun l => res_map (fun x => [x]) (po_line_item l)) ls)
  | _ => Err (TypeError "(currentPO.lines || []).map is not a function")
  end.

Definition update_purchase_order (id : string)
    (remarks orderDate expectedDate carrier currency : option string) : st (world _) jsval :=
  currentPO <- fresh_read (getPurchaseOrder id (Some ["lines"])) ;;
  lines <- lift_res (prop currentPO "lines") ;;
  existingItems <- lift_res (po_line_items lines) ;;
  upsertPurchaseOrder
    [("id", JStr id); ("vendorId", oprop currentPO "vendorId"); ("items", JArr existingItems);
     ("remarks", match remarks with Some r => JStr r | None => oprop currentPO "orderRemarks" end);
     ("orderDate", js_or (str_opt orderDate) (oprop currentPO "orderDate"));
     ("expectedDate", js_or (str_opt expectedDate) (oprop currentPO "expectedDate"));
     ("currencyCode", str_opt currency); ("timestamp", oprop currentPO "timestamp")].

End UpdatePurchaseOrder.

(** ** Theorems *)

Section CliTheorems.
Context `{Remote} `{JsonParse}.

(** The bracket around a cached read is a direct server read. *)
Lemma fresh_read_cached key tool args ttl (w : world _) :
  fresh_read (cached key (callTool tool args) ttl) w =
    match callTool tool args (disabled w) with
    | (w1, Ok v) => (reenabled w1, Ok v)
    | (w1, Err e) => (w1, Err e)
    end.
Proof.
  unfold fresh_read, bind at 1. simpl. unfold bind at 1.
  rewrite cached_bypass by reflexivity. fold (disabled w).
  by destruct (callTool tool args (disabled w)) as [w1 [v|e]].
Qed.

Lemma disabled_flag_after_call tool args (w : world _) :
  cacheDisabled (callTool tool args (disabled w)).1 = true /\
  Cache.enabled (w_cache (callTool tool args (disabled w)).1) = false.
Proof. by autorewrite with inflow_rw. Qed.

Lemma fetch_pages_cache fuel status m skip acc (w : world _) :
  w_cache (fetch_pages fuel status m skip acc w).1 = w_cache w.
Proof.
  revert skip acc w. induction fuel as [|fuel IH]; intros skip acc w; [done|].
  rewrite fetch_pages_S. pose proof (callTool_cache "list_sales_orders" (page_args status skip) w) as Hc.
  destruct (callTool _ _ w) as [w1 [result|e]]; simpl in Hc; [|done].
  destruct (page_orders result); [|done].
  destruct (Z.ltb _ _); [done|]. destruct (capped _ _); [done|]. by rewrite IH.
Qed.

(** C12 [update_product_failure_leaves_cache_disabled]: when the server
    read of [update-product] fails, the command fails with that error and
    leaves the client's [cacheDisabled] flag set and the cache store
    disabled: [enableCache] is skipped, so every later read of the process
    bypasses the cache.  The specification asks for a release that runs
    even when the read fails. *)
Theorem update_product_failure_leaves_cache_disabled id name sku description cost price
    (w : world _) e :
  (callTool "get_product" [("productId", JStr id)] (disabled w)).2 = Err e ->
  (update_product id name sku description cost price w).2 = Err e /\
  cacheDisabled (update_product id name sku description cost price w).1 = true /\
  Cache.enabled (w_cache (update_product id name sku description cost price w).1) = false.
Proof.
  intros He.
  assert (Hu : update_product id name sku description cost price w =
                 ((callTool "get_product" [("productId", JStr id)] (disabled w)).1, Err e)).
  { unfold update_product, bind at 1, getProduct.
    change (set_if "include" (arr_opt None) [("productId", JStr id)]) with [("productId", JStr id)].
    rewrite fresh_read_cached.
    destruct (callTool _ _ (disabled w)) as [w1 [v|e']]; simpl in *; [done|].
    by injection He as ->. }
  rewrite Hu. split; [done|apply disabled_flag_after_call].
Qed.

(** C20 [update_product_reads_server]: [update-product] takes the product
    it modifies from the server, whatever the cache holds, and performs
    the write with the cache enabled again. *)
Theorem update_product_reads_server id name sku description cost price (w : world _) :
  update_product id name sku description cost price w =
    match callTool "get_product" [("productId", JStr id)] (disabled w) with
    | (w1, Ok current) => update_product_body id name sku description cost price current (reenabled w1)
    | (w1, Err e) => (w1, Err e)
    end.
Proof.
  unfold update_product, bind at 1, getProduct.
  change (set_if "include" (arr_opt None) [("productId", JStr id)]) with [("productId", JStr id)].
  rewrite fresh_read_cached. by destruct (callTool _ _ (disabled w)) as [w1 [v|e]].
Qed.

(** C29 [receive_po_items_mode_check]: [receive-po-items] with both
    [--receiveAll] and [--items], or with neither, fails with a validation
    error before any I/O: the world is unchanged. *)
Theorem receive_po_items_mode_check poId receiveAll items allow (w : world _) :
  truthy (bool_opt receiveAll) = truthy (str_opt items) ->
  exists msg, receive_po_items poId receiveAll items allow w = (w, Err (ValidationError msg)).
Proof.
  intros Heq. unfold receive_po_items. rewrite Heq.
  destruct (truthy (str_opt items)); eexists; reflexivity.
Qed.

(** C28 [unreceive_po_items_mode_check]: [unreceive-po-items] runs only
    with exactly one of [--receiveLineIds], [--items] and [--unreceiveAll]
    set; otherwise it fails with a validation error before any I/O. *)
Theorem unreceive_po_items_mode_check poId receiveLineIds items unreceiveAll dryRun (w : world _) :
  unreceive_modes receiveLineIds items unreceiveAll <> 1%nat ->
  exists msg, unreceive_po_items poId receiveLineIds items unreceiveAll dryRun w =
                (w, Err (ValidationError msg)).
Proof.
  intros Hm. unfold unreceive_po_items.
  destruct (Nat.eqb_spec (unreceive_modes receiveLineIds items unreceiveAll) 0); [eexists; reflexivity|].
  destruct (Nat.ltb_spec 1 (unreceive_modes receiveLineIds items unreceiveAll)); [eexists; reflexivity|lia].
Qed.

(** C31 [update_vendor_not_found]: when [getVendor] answers a falsy value,
    [update-vendor] fails with ["Vendor <id> not found"] in the world the
    read left: no write is sent. *)
Theorem update_vendor_not_found id name email phone website (w w1 : world _) v :
  callTool "get_vendor" [("vendorId", JStr id)] w = (w1, Ok v) -> truthy v = false ->
  update_vendor id name email phone website w = (w1, Err (ValidationError (msg_vendor_not_found id))).
Proof. intros Hr Hv. unfold update_vendor, bind at 1, getVendor. by rewrite Hr, Hv. Qed.

(** C27 [build_serial_index_not_cached]: [build-serial-index] reports that
    the index was "built and cached for 1 hour", but the cache store after
    the command is the one before it: [buildSerialIndex] does not write
    the [serial_index] entry that [searchSerial] reads. *)
Theorem build_serial_index_not_cached fuel limit (w : world _) v :
  (build_serial_index fuel limit w).2 = Ok v ->
  oprop v "message" = JStr msg_index_built /\ w_cache (build_serial_index fuel limit w).1 = w_cache w.
Proof.
  unfold build_serial_index, buildSerialIndex, bind. pose proof (fetch_pages_cache fuel) as Hc.
  destruct (fetch_pages _ _ _ _ _ w) as [w1 [orders|e]] eqn:Hf; simpl; [|done].
  specialize (Hc (if truthy (str_opt None) then default "" None else "Fulfilled") limit 0%Z [] w).
  rewrite Hf in Hc. simpl in Hc. unfold lift_res.
  destruct (index_orders orders); simpl; [|done]. intros [= <-]. done.
Qed.

(** C30 [malformed_items_errors]: an [--items] argument that is not JSON
    is rejected before anything is sent, and the world is left as it was.
    [create-purchase-order] catches the parse error and throws its own
    message; [receive-po-items] and [unreceive-po-items] let the
    [SyntaxError] of [JSON.parse] escape, an error outside the taxonomy of
    section 7 of the specification. *)
Theorem malformed_items_errors vendorId orderNumber orderDate expectedDate locationId currency remarks
    poId allow dryRun items (w : world _) :
  json_parse items = None -> items <> "" ->
  create_purchase_order vendorId orderNumber orderDate expectedDate locationId items currency remarks w =
    (w, Err (ValidationError msg_invalid_items)) /\
  receive_po_items poId None (Some items) allow w = (w, Err (SyntaxError "Unexpected token in JSON")) /\
  unreceive_po_items poId None (Some items) None dryRun w = (w, Err (SyntaxError "Unexpected token in JSON")).
Proof.
  intros Hj Hne.
  apply String.eqb_neq in Hne.
  unfold create_purchase_order, receive_po_items, unreceive_po_items, unreceive_modes,
    parse_items, parse_opt, parse_json, bind, lift_res.
  rewrite Hj. split; [reflexivity|]. split; simpl; rewrite Hne; reflexivity.
Qed.

End CliTheorems.

(** ** Concrete runs *)

Section CliWitnesses.
Import Gateway.Fixture.

Definition one_order : jsval :=
  JObj [("salesOrderId", JStr "SO-1"); ("packLines", JArr []);
        ("lines", JArr [JObj [("productId", JStr "P1");
                              ("quantity", JObj [("serialNumbers", JArr [JStr "s1"; JStr "s2"])])]])].

#[local] Instance cli_parser : JsonParse :=
  table_parser [("null", JNull); ("orders", JArr [one_order])].

(** The server has no answer for [get_product]: the read fails. *)
Lemma update_product_failure_leaves_cache_disabled_witness :
  (callTool "get_product" [("productId", JStr "P1")] (disabled (world0 [] good_env))).2 =
    Err (OperationError "no answer") /\
  (update_product "P1" None None None None (Some 10%Z) (world0 [] good_env)).2 =
    Err (OperationError "no answer") /\
  cacheDisabled (update_product "P1" None None None None (Some 10%Z) (world0 [] good_env)).1 = true /\
  Cache.enabled (w_cache (update_product "P1" None None None None (Some 10%Z) (world0 [] good_env)).1) = false.
Proof. split; [reflexivity|]. apply update_product_failure_leaves_cache_disabled. reflexivity. Defined.

Lemma receive_po_items_mode_check_witness :
  exists msg, receive_po_items "PO-1" (Some true) (Some "[]") None (world0 [] good_env) =
                (world0 [] good_env, Err (ValidationError msg)).
Proof. apply receive_po_items_mode_check. reflexivity. Defined.

Lemma unreceive_po_items_mode_check_witness :
  unreceive_modes (Some "[1]") None (Some true) = 2%nat /\
  exists msg, unreceive_po_items "PO-1" (Some "[1]") None (Some true) None (world0 [] good_env) =
                (world0 [] good_env, Err (ValidationError msg)).
Proof. split; [reflexivity|]. apply unreceive_po_items_mode_check. vm_compute. discriminate. Defined.

(** The server answers [get_vendor] with [null]. *)
Lemma update_vendor_not_found_witness :
  exists w1, update_vendor "V1" (Some "Acme") None None None (world0 [text_answer "null"] good_env) =
               (w1, Err (ValidationError (msg_vendor_not_found "V1"))).
Proof.
  eexists. apply (update_vendor_not_found _ _ _ _ _ _ _ JNull); reflexivity.
Defined.

(** One short page with one order carrying two serials. *)
Lemma build_serial_index_not_cached_witness :
  exists v, (build_serial_index 3 None (world0 [text_answer "orders"] good_env)).2 = Ok v /\
    oprop v "totalSerials" = JNum 2 /\
    oprop v "message" = JStr msg_index_built /\
    w_cache (build_serial_index 3 None (world0 [text_answer "orders"] good_env)).1 =
      w_cache (world0 [text_answer "orders"] good_env).
Proof.
  eexists. assert (Hr : (build_serial_index 3 None (world0 [text_answer "orders"] good_env)).2 = Ok _)
    by reflexivity.
  split; [exact Hr|]. split; [reflexivity|]. exact (build_serial_index_not_cached _ _ _ _ Hr).
Defined.

(** An [--items] argument that is cut short: the table has no entry for it. *)
Lemma malformed_items_errors_witness :
  json_parse "[{" = None /\
  create_purchase_order "V1" None None None None "[{" None None (world0 [] good_env) =
    (world0 [] good_env, Err (ValidationError msg_invalid_items)).
Proof.
  split; [reflexivity|].
  apply (malformed_items_errors "V1" None None None None None None "PO-1" None None).
  - reflexivity.
  - discriminate.
Defined.

End CliWitnesses.

End Cli.
