(* ===== verification/CliCommands.v ===== *)
(** * CliCommands: the command table of [src/scripts/cli.ts]

    [commands] (lines 11-725) maps every command name to a handler.  The
    handlers with logic of their own are in [Cli]; the others unpack their
    validated arguments and call one client method, sometimes after
    reshaping them: [list-products] passes [--category] as
    [categoryName]; [create-stock-adjustment] and [create-stock-transfer]
    wrap one product into an [items] array; [create-vendor] builds an
    [address] only when a street, city or country is given; the order
    commands split [--include] on commas; [list-tools] keeps the name and
    description of each tool; [list-currencies] calls a tool directly.

    Each forwarding handler is a definition of its own, named after its
    command ([get-sales-order] is [get_sales_order]).  [command] lists
    the commands with their arguments and [run_command] runs one.  The theorems show that each query command is exactly one
    cached client read ([command_read]), so that a query whose key holds a
    fresh entry is answered from the cache without I/O, and that splitting
    [--include] on commas and joining it again in the client gives back
    the string typed, so the cache key of an order read holds it. *)

From S2P Require Import Prelude Json Cache CacheKey Gateway Accessors Mutations SerialIndex Cli.
Import Json CacheKey Gateway Accessors Mutations SerialIndex Cli.

Module CliCommands.

(** [s.split(",")]: the pieces between commas, [[""]] for the empty
    string. *)
Fixpoint split_on (c : ascii) (s : string) : list string :=
  match s with
  | EmptyString => [""]
  | String a s' =>
      if Ascii.eqb a c then "" :: split_on c s'
      else match split_on c s' with
           | x :: xs => String a x :: xs
           | [] => [String a EmptyString]
           end
  end.

Definition split_comma (s : string) : list string := split_on ","%char s.

(** [include?.split(",")] *)
Definition split_opt (s : option string) : option (list string) := option_map split_comma s.

Section Handlers.
Context `{Remote} `{JsonParse}.

(** [list-tools] (lines 13-23) *)
Definition list_tools : st (world _) jsval :=
  tools <- listTools ;;
  lift_res (res_map JArr (concat_res (map (fun t =>
    res_bind (prop t "name") (fun n =>
    res_bind (prop t "description") (fun d =>
    Ok [JObj [("name", n); ("description", d)]]))) tools))).

(** [list-products] (lines 26-42): [--category] is the category name. *)
Definition list_products (limit skip : option Z) (filter categoryId category : option string) :=
  listProducts (mkListProductsOpts limit skip filter categoryId category).

(** [create-stock-adjustment] (lines 114-133) *)
Definition create_stock_adjustment (productId locationId : string) (quantity : Z)
    (reasonId remarks : option string) : st (world _) jsval :=
  createStockAdjustment
    [("locationId", JStr locationId); ("reasonId", str_opt reasonId); ("remarks", str_opt remarks);
     ("items", JArr [JObj [("productId", JStr productId); ("quantity", JNum quantity)]])].

(** [create-stock-transfer] (lines 168-187) *)
Definition create_stock_transfer (productId fromLocationId toLocationId : string) (quantity : Z)
    (remarks : option string) : st (world _) jsval :=
  createStockTransfer
    [("fromLocationId", JStr fromLocationId); ("toLocationId", JStr toLocationId);
     ("remarks", str_opt remarks);
     ("items", JArr [JObj [("productId", JStr productId); ("quantity", JNum quantity)]])].

(** [create-stock-count] (lines 214-224) *)
Definition create_stock_count (locationId : string) (remarks : option string) : st (world _) jsval :=
  createStockCount [("locationId", JStr locationId); ("remarks", str_opt remarks)].

(** [create-product] (lines 300-321): [--price] is [defaultPrice]. *)
Definition create_product (name : string) (sku description categoryId : option string)
    (cost price : option Z) (barcode : option string) : st (world _) jsval :=
  upsertProduct [("name", JStr name); ("sku", str_opt sku); ("description", str_opt description);
                 ("categoryId", str_opt categoryId); ("cost", num_opt cost);
                 ("defaultPrice", num_opt price); ("barcode", str_opt barcode)].

(** [(street1 || city || country) ? {street1, city, postalCode, country} : undefined] *)
Definition vendor_address (street1 city postalCode country : option string) : jsval :=
  if truthy (js_or (js_or (str_opt street1) (str_opt city)) (str_opt country))
  then JObj [("street1", str_opt street1); ("city", str_opt city);
             ("postalCode", str_opt postalCode); ("country", str_opt country)]
  else JUndef.

(** [create-vendor] (lines 353-374) *)
Definition create_vendor (name : string) (email phone website street1 city postalCode country currency : option string) :
    st (world _) jsval :=
  upsertVendor [("name", JStr name); ("email", str_opt email); ("phone", str_opt phone);
                ("website", str_opt website);
                ("address", vendor_address street1 city postalCode country);
                ("currencyCode", str_opt currency)].

(** [list-currencies] (lines 714-721) *)
Definition list_currencies (limit : option Z) : st (world _) jsval :=
  callTool "list_currencies" [("count", num_opt limit)].

(** The handlers that unpack their arguments and call one client method
    with them. *)

(** [get-product] (lines 44-51): no [include]. *)
Definition get_product (id : string) : st (world _) jsval := getProduct id None.

(** [search-products] (lines 53-60) *)
Definition search_products (query : string) : st (world _) jsval := searchProducts query.

(** [get-bom] (lines 62-69) *)
Definition get_bom (id : string) : st (world _) jsval := getBillOfMaterials id.

(** [list-categories] (lines 71-75) *)
Definition list_categories : st (world _) jsval := listCategories.

(** [get-stock-levels] (lines 78-85) *)
Definition get_stock_levels (productId : option string) : st (world _) jsval := getStockLevels productId.

(** [get-stock-by-location] (lines 87-94) *)
Definition get_stock_by_location (locationId : option string) : st (world _) jsval :=
  getStockByLocation locationId.

(** [list-stock-adjustments] (lines 96-103) *)
Definition list_stock_adjustments (limit : option Z) : st (world _) jsval := listStockAdjustments limit.

(** [get-stock-adjustment] (lines 105-112) *)
Definition get_stock_adjustment (id : string) : st (world _) jsval := getStockAdjustment id.

(** [list-adjustment-reasons] (lines 135-139) *)
Definition list_adjustment_reasons : st (world _) jsval := listAdjustmentReasons.

(** [list-stock-transfers] (lines 142-157) *)
Definition list_stock_transfers (limit : option Z) (status fromLocationId toLocationId : option string) :
    st (world _) jsval :=
  listStockTransfers (mkListStockTransfersOpts limit status fromLocationId toLocationId).

(** [get-stock-transfer] (lines 159-166) *)
Definition get_stock_transfer (id : string) : st (world _) jsval := getStockTransfer id.

(** [list-stock-counts] (lines 190-203) *)
Definition list_stock_counts (limit : option Z) (status locationId : option string) : st (world _) jsval :=
  listStockCounts (mkListStockCountsOpts limit status locationId).

(** [get-stock-count] (lines 205-212) *)
Definition get_stock_count (id : string) : st (world _) jsval := getStockCount id.

(** [list-sales-orders] (lines 227-244): [include: include?.split(",")]. *)
Definition list_sales_orders (limit skip : option Z) (status include : option string) : st (world _) jsval :=
  listSalesOrders (mkListOrdersOpts limit skip status (split_opt include)).

(** [get-sales-order] (lines 246-256) *)
Definition get_sales_order (id : string) (include : option string) : st (world _) jsval :=
  getSalesOrder id (split_opt include).

(** [search-sales-orders] (lines 258-265) *)
Definition search_sales_orders (query : string) : st (world _) jsval := searchSalesOrders query.

(** [list-purchase-orders] (lines 268-285) *)
Definition list_purchase_orders (limit skip : option Z) (status include : option string) :
    st (world _) jsval :=
  listPurchaseOrders (mkListOrdersOpts limit skip status (split_opt include)).

(** [get-purchase-order] (lines 287-297) *)
Definition get_purchase_order (id : string) (include : option string) : st (world _) jsval :=
  getPurchaseOrder id (split_opt include).

(** [list-locations] (lines 560-564) *)
Definition list_locations : st (world _) jsval := listLocations.

(** [get-location] (lines 566-573) *)
Definition get_location (id : string) : st (world _) jsval := getLocation id.

(** [get-order-serials] (lines 576-583) *)
Definition get_order_serials (id : string) : st (world _) jsval := getSalesOrderSerials id.

(** [get-po-vins] (lines 585-592) *)
Definition get_po_vins (id : string) : st (world _) jsval := getPurchaseOrderSerials id.

(** [search-serial] (lines 594-601); [fuel] bounds the page loop of the
    index it may build. *)
Definition search_serial (fuel : nat) (query : string) : st (world _) jsval := searchSerial fuel query.

(** [list-vins] (lines 603-613) *)
Definition list_vins (fuel : nat) (limit : option Z) (productId : option string) : st (world _) jsval :=
  listSerials fuel limit productId.

(** [get-product-vins] (lines 631-638) *)
Definition get_product_vins (id : string) : st (world _) jsval := getProductSerials id.

(** [list-all-vins] (lines 640-650) *)
Definition list_all_vins (maxProducts : option Z) (inStockOnly : option bool) : st (world _) jsval :=
  listAllSerials maxProducts inStockOnly.

(** [search-serial-fast] (lines 652-659) *)
Definition search_serial_fast (query : string) : st (world _) jsval := searchSerialByProduct query.

(** [list-serial-numbers] (lines 662-669): an alias of [list-vins]. *)
Definition list_serial_numbers (fuel : nat) (productId : option string) (limit : option Z) :
    st (world _) jsval :=
  listSerials fuel limit productId.

(** [search-serial-numbers] (lines 671-678) and [get-serial-number]
    (lines 680-687): aliases of [search-serial]. *)
Definition search_serial_numbers (fuel : nat) (query : string) : st (world _) jsval := searchSerial fuel query.

Definition get_serial_number (fuel : nat) (id : string) : st (world _) jsval := searchSerial fuel id.

(** [list-customers] (lines 690-697) *)
Definition list_customers (limit : option Z) : st (world _) jsval := listCustomers limit.

(** [list-vendors] (lines 699-706) *)
Definition list_vendors (limit : option Z) : st (world _) jsval := listVendors limit.

(** [get-company-info] (lines 708-712) *)
Definition get_company_info : st (world _) jsval := getCompanyInfo.

End Handlers.

(** The command table: one constructor per entry of [commands], with the
    validated arguments of its schema. *)
Inductive command :=
| CListTools
| CListProducts (limit skip : option Z) (filter categoryId category : option string)
| CGetProduct (id : string)
| CSearchProducts (query : string)
| CGetBom (id : string)
| CListCategories
| CGetStockLevels (productId : option string)
| CGetStockByLocation (locationId : option string)
| CListStockAdjustments (limit : option Z)
| CGetStockAdjustment (id : string)
| CCreateStockAdjustment (productId locationId : string) (quantity : Z) (reasonId remarks : option string)
| CListAdjustmentReasons
| CListStockTransfers (limit : option Z) (status fromLocationId toLocationId : option string)
| CGetStockTransfer (id : string)
| CCreateStockTransfer (productId fromLocationId toLocationId : string) (quantity : Z) (remarks : option string)
| CListStockCounts (limit : option Z) (status locationId : option string)
| CGetStockCount (id : string)
| CCreateStockCount (locationId : string) (remarks : option string)
| CListSalesOrders (limit skip : option Z) (status include : option string)
| CGetSalesOrder (id : string) (include : option string)
| CSearchSalesOrders (query : string)
| CListPurchaseOrders (limit skip : option Z) (status include : option string)
| CGetPurchaseOrder (id : string) (include : option string)
| CCreateProduct (name : string) (sku description categoryId : option string) (cost price : option Z)
    (barcode : option string)
| CUpdateProduct (id : string) (name sku description : option string) (cost price : option Z)
| CCreateVendor (name : string) (email phone website street1 city postalCode country currency : option string)
| CUpdateVendor (id : string) (name email phone website : option string)
| CCreatePurchaseOrder (vendorId : string) (orderNumber orderDate expectedDate locationId : option string)
    (items : string) (currency remarks : option string)
| CAddPoItem (purchaseOrderId productId : string) (quantity : Z) (unitCost : option Z)
| CReceivePoItems (purchaseOrderId : string) (receiveAll : option bool) (items : option string)
    (allowOverReceive : option bool)
| CUnreceivePoItems (purchaseOrderId : string) (receiveLineIds items : option string)
    (unreceiveAll dryRun : option bool)
| CListLocations
| CGetLocation (id : string)
| CGetOrderSerials (id : string)
| CGetPoVins (id : string)
| CSearchSerial (query : string)
| CListVins (limit : option Z) (productId : option string)
| CBuildSerialIndex (limit : option Z)
| CGetProductVins (id : string)
| CListAllVins (maxProducts : option Z) (inStockOnly : option bool)
| CSearchSerialFast (query : string)
| CListSerialNumbers (productId : option string) (limit : option Z)
| CSearchSerialNumbers (query : string)
| CGetSerialNumber (id : string)
| CListCustomers (limit : option Z)
| CListVendors (limit : option Z)
| CGetCompanyInfo
| CListCurrencies (limit : option Z).

Section Table.
Context `{Remote} `{JsonParse}.

(** The handler of each command.  [fuel] bounds the page loops of the
    serial index ([SerialIndex.fetch_pages]); [update-purchase-order],
    whose handler needs [parseFloat], is run through [Cli] directly. *)
Definition run_command (fuel : nat) (c : command) : st (world _) jsval :=
  match c with
  | CListTools => list_tools
  | CListProducts l s f ci ca => list_products l s f ci ca
  | CGetProduct id => get_product id
  | CSearchProducts q => search_products q
  | CGetBom id => get_bom id
  | CListCategories => list_categories
  | CGetStockLevels p => get_stock_levels p
  | CGetStockByLocation l => get_stock_by_location l
  | CListStockAdjustments l => list_stock_adjustments l
  | CGetStockAdjustment id => get_stock_adjustment id
  | CCreateStockAdjustment p l q r rm => create_stock_adjustment p l q r rm
  | CListAdjustmentReasons => list_adjustment_reasons
  | CListStockTransfers l s f t => list_stock_transfers l s f t
  | CGetStockTransfer id => get_stock_transfer id
  | CCreateStockTransfer p f t q rm => create_stock_transfer p f t q rm
  | CListStockCounts l s loc => list_stock_counts l s loc
  | CGetStockCount id => get_stock_count id
  | CCreateStockCount loc rm => create_stock_count loc rm
  | CListSalesOrders l s st inc => list_sales_orders l s st inc
  | CGetSalesOrder id inc => get_sales_order id inc
  | CSearchSalesOrders q => search_sales_orders q
  | CListPurchaseOrders l s st inc => list_purchase_orders l s st inc
  | CGetPurchaseOrder id inc => get_purchase_order id inc
  | CCreateProduct n sk d ci co p b => create_product n sk d ci co p b
  | CUpdateProduct id n sk d co p => update_product id n sk d co p
  | CCreateVendor n e p ws s1 ci pc co cu => create_vendor n e p ws s1 ci pc co cu
  | CUpdateVendor id n e p ws => update_vendor id n e p ws
  | CCreatePurchaseOrder v n od ed l it cu r => create_purchase_order v n od ed l it cu r
  | CAddPoItem po p q u => add_po_item po p q u
  | CReceivePoItems po ra it ao => receive_po_items po ra it ao
  | CUnreceivePoItems po rl it ua dr => unreceive_po_items po rl it ua dr
  | CListLocations => list_locations
  | CGetLocation id => get_location id
  | CGetOrderSerials id => get_order_serials id
  | CGetPoVins id => get_po_vins id
  | CSearchSerial q => search_serial fuel q
  | CListVins l p => list_vins fuel l p
  | CBuildSerialIndex l => build_serial_index fuel l
  | CGetProductVins id => get_product_vins id
  | CListAllVins m i => list_all_vins m i
  | CSearchSerialFast q => search_serial_fast q
  | CListSerialNumbers p l => list_serial_numbers fuel p l
  | CSearchSerialNumbers q => search_serial_numbers fuel q
  | CGetSerialNumber id => get_serial_number fuel id
  | CListCustomers l => list_customers l
  | CListVendors l => list_vendors l
  | CGetCompanyInfo => get_company_info
  | CListCurrencies l => list_currencies l
  end.

End Table.

(** ** Which client read serves each query command *)

Definition command_read (c : command) : option read_op :=
  match c with
  | CListProducts l s f ci ca => Some (RListProducts (mkListProductsOpts l s f ci ca))
  | CGetProduct id => Some (RGetProduct id None)
  | CSearchProducts q => Some (RSearchProducts q)
  | CGetBom id => Some (RGetBillOfMaterials id)
  | CListCategories => Some RListCategories
  | CGetStockLevels p => Some (RGetStockLevels p)
  | CListStockAdjustments l => Some (RListStockAdjustments l)
  | CGetStockAdjustment id => Some (RGetStockAdjustment id)
  | CListAdjustmentReasons => Some RListAdjustmentReasons
  | CListStockTransfers l st f t => Some (RListStockTransfers (mkListStockTransfersOpts l st f t))
  | CGetStockTransfer id => Some (RGetStockTransfer id)
  | CListStockCounts l st loc => Some (RListStockCounts (mkListStockCountsOpts l st loc))
  | CGetStockCount id => Some (RGetStockCount id)
  | CListSalesOrders l sk st inc => Some (RListSalesOrders (mkListOrdersOpts l sk st (split_opt inc)))
  | CGetSalesOrder id inc => Some (RGetSalesOrder id (split_opt inc))
  | CSearchSalesOrders q => Some (RSearchSalesOrders q)
  | CListPurchaseOrders l sk st inc => Some (RListPurchaseOrders (mkListOrdersOpts l sk st (split_opt inc)))
  | CGetPurchaseOrder id inc => Some (RGetPurchaseOrder id (split_opt inc))
  | CListLocations => Some RListLocations
  | CGetLocation id => Some (RGetLocation id)
  | CGetProductVins id => Some (RGetProductSerials id)
  | CListAllVins m i => Some (RListAllSerials m i)
  | CListCustomers l => Some (RListCustomers l)
  | CListVendors l => Some (RListVendors l)
  | _ => None
  end.

(** ** Lemmas *)

Lemma split_on_cons c s : exists x xs, split_on c s = x :: xs.
Proof.
  destruct s as [|a s]; simpl; [by eexists _, _|].
  destruct (Ascii.eqb a c); [by eexists _, _|].
  destruct (split_on c s); by eexists _, _.
Qed.

Lemma concat_cons_string sep a x xs :
  String.concat sep (String a x :: xs) = String a (String.concat sep (x :: xs)).
Proof. by destruct xs. Qed.

(** Joining the pieces of a split with the separator gives the string
    back. *)
Lemma concat_split_on c s : String.concat (String c EmptyString) (split_on c s) = s.
Proof.
  induction s as [|a s IH]; [done|]. cbn [split_on].
  destruct (split_on_cons c s) as (x & xs & Hs). rewrite Hs in IH |- *.
  destruct (Ascii.eqb_spec a c) as [->|Hne]; rewrite <- IH.
  - reflexivity.
  - apply concat_cons_string.
Qed.

(** ** Theorems *)

(** [include_split_join]: [--include] goes through the CLI's
    [include?.split(",")] and the client's [options?.include?.join(",")]
    unchanged, so the cache key of an order read holds exactly the
    [--include] string typed, or no [include] at all. *)
Theorem include_split_join (inc : option string) : join_opt (split_opt inc) = str_opt inc.
Proof. destruct inc as [s|]; [|done]. simpl. f_equal. apply concat_split_on. Qed.

Section TableTheorems.
Context `{Remote} `{JsonParse}.

Lemma run_command_read fuel c r :
  command_read c = Some r -> run_command fuel c = run_read r.
Proof. destruct c; simpl; intros [= <-]; reflexivity. Qed.

(** [query_commands_refine]: every query command of the CLI runs
    exactly one cached client read, with the command's arguments passed on
    as [command_read] maps them ([--category] as [categoryName], [--include]
    split on commas). *)
Theorem query_commands_refine fuel c r :
  command_read c = Some r -> run_command fuel c = run_read r.
Proof. apply run_command_read. Qed.

(** [query_commands_hit_cache]: a query command whose key holds a
    fresh entry, with caching on, answers the stored value and counts a
    hit, and sends nothing to the server. *)
Theorem query_commands_hit_cache fuel c r p (w : world _) v :
  command_read c = Some r -> read_plan r = Ok p ->
  cacheDisabled w = false -> Cache.enabled (w_cache w) = true ->
  Cache.view (w_cache w) (clock w) !! p_key p = Some v ->
  run_command fuel c w = (set_cache (Cache.count_hit (w_cache w)) w, Ok v).
Proof.
  intros Hc Hp Hd He Hv.
  rewrite (run_command_read fuel c r Hc). by apply (run_read_hit r p).
Qed.

End TableTheorems.

(** ** Concrete runs *)

Section Witnesses.
Import Gateway.Fixture.

#[local] Instance commands_parser : JsonParse := table_parser [].

Lemma query_commands_refine_witness :
  command_read (CGetSalesOrder "SO-1" (Some "lines,packLines")) =
    Some (RGetSalesOrder "SO-1" (Some ["lines"; "packLines"])) /\
  run_command (H := scripted) 3 (CGetSalesOrder "SO-1" (Some "lines,packLines")) =
    run_read (RGetSalesOrder "SO-1" (Some ["lines"; "packLines"])).
Proof. split; [reflexivity|]. apply query_commands_refine. reflexivity. Defined.

(** [list-locations] with the locations cached an hour ago less one
    second. *)
Lemma query_commands_hit_cache_witness :
  let w := set_cache (Cache.set (Cache.create "inflow-inventory-manager" TTL_FIVE_MINUTES)
                        "locations" (JArr []) (Some TTL_HOUR) 0) (world0 [] good_env) in
  run_command 3 CListLocations w = (set_cache (Cache.count_hit (w_cache w)) w, Ok (JArr [])).
Proof. intros w. apply (query_commands_hit_cache 3 CListLocations RListLocations locations_plan); reflexivity. Defined.

End Witnesses.

End CliCommands.
