(* ===== verification/Client.v ===== *)
(** * Client: the client as a state machine

    A process holds one [InFlowMCPClient] and one module-level cache.  Any
    caller may run any method at any time, and time passes between calls.
    This file collects every operation the development models into
    [client_op]: the cached reads ([Accessors]), the writes ([Mutations]),
    the serial lookups ([SerialIndex]), the cache and connection methods
    ([Gateway]), the command flows of the CLI ([Cli]) and every command
    of the CLI's table ([OCommand], through [CliCommands.run_command]).  [step] is one
    operation, whatever its outcome (a thrown error keeps its effects), or
    the clock moving forward.

    [evolves w w'] is what no step can undo: the invariant [client_inv]
    (the flag [cacheDisabled] and the store's switch agree, and a
    connected client has both credentials) is kept, the hit and miss
    counters do not decrease, and the configuration and environment are
    unchanged.  [stable m] says an operation [m] relates every world to the
    one it leaves; the hint database [client] proves it for every
    operation from the lemmas on the primitives, composed through [bind].
    The theorems lift this to every sequence of steps. *)

From S2P Require Import Prelude Json Cache CacheKey Gateway Accessors Mutations SerialIndex Cli CliCommands.
Import Json CacheKey Gateway Accessors Mutations SerialIndex Cli CliCommands.

Module Client.

Create HintDb client discriminated.

Section Invariant.
Context `{Remote}.

(** [disableCache] and [enableCache] set the flag and the store switch
    together. *)
Definition flag_consistent (w : world _) : Prop :=
  Cache.enabled (w_cache w) = negb (cacheDisabled w).

(** [connect] sets [connected] only after both credential checks. *)
Definition credentials_checked (w : world _) : Prop :=
  connected w = true ->
  env_missing w "INFLOW_API_KEY" = false /\ env_missing w "INFLOW_COMPANY_ID" = false.

Definition client_inv (w : world _) : Prop := flag_consistent w /\ credentials_checked w.

Definition evolves (w w' : world _) : Prop :=
  (client_inv w -> client_inv w') /\
  (Cache.hits (w_cache w) <= Cache.hits (w_cache w'))%nat /\
  (Cache.misses (w_cache w) <= Cache.misses (w_cache w'))%nat /\
  w_config w' = w_config w /\ w_process_env w' = w_process_env w.

#[global] Instance evolves_preorder : PreOrder evolves.
Proof.
  split.
  - intros w. split; [done|]. repeat split; lia.
  - intros w1 w2 w3 (H1 & H2 & H3 & H4 & H5) (G1 & G2 & G3 & G4 & G5).
    split; [auto|]. repeat split; first [lia|congruence].
Qed.

Lemma env_missing_frame (w w' : world _) k :
  w_config w' = w_config w -> w_process_env w' = w_process_env w ->
  env_missing w' k = env_missing w k.
Proof. intros Hc He. unfold env_missing, env_lookup. by rewrite Hc, He. Qed.

(** A step that keeps the flags, the connection, the switch and the
    environment, and does not lower the counters. *)
Lemma evolves_frame (w w' : world _) :
  cacheDisabled w' = cacheDisabled w -> connected w' = connected w ->
  Cache.enabled (w_cache w') = Cache.enabled (w_cache w) ->
  (Cache.hits (w_cache w) <= Cache.hits (w_cache w'))%nat ->
  (Cache.misses (w_cache w) <= Cache.misses (w_cache w'))%nat ->
  w_config w' = w_config w -> w_process_env w' = w_process_env w ->
  evolves w w'.
Proof.
  intros Hd Hc He Hh Hm Hcf Hpe. split; [|by repeat split].
  intros [Hf Hcr]. split.
  - unfold flag_consistent in *. by rewrite He, Hd.
  - intros Hc'. rewrite !(env_missing_frame w w') by done. apply Hcr. by rewrite <- Hc.
Qed.

Lemma evolves_set_cache c (w : world _) :
  Cache.enabled c = Cache.enabled (w_cache w) ->
  (Cache.hits (w_cache w) <= Cache.hits c)%nat -> (Cache.misses (w_cache w) <= Cache.misses c)%nat ->
  evolves w (set_cache c w).
Proof. intros. by apply evolves_frame. Qed.

Lemma evolves_set_remote r (w : world _) : evolves w (set_remote r w).
Proof. by apply evolves_frame. Qed.

Lemma evolves_log_call name args (w : world _) : evolves w (log_call name args w).
Proof. by apply evolves_frame. Qed.

Lemma evolves_advance d (w : world _) : evolves w (advance d w).
Proof. by apply evolves_frame. Qed.

(** ** Operations that evolve the world *)

Definition stable {A} (m : st (world _) A) : Prop := forall w, evolves w (m w).1.

Lemma stable_ret {A} (a : A) : stable (ret a).
Proof. intros w. reflexivity. Qed.

Lemma stable_throw {A} e : stable (A := A) (throw e).
Proof. intros w. reflexivity. Qed.

Lemma stable_lift_res {A} (r : res A) : stable (lift_res r).
Proof. intros w. destruct r; reflexivity. Qed.

Lemma stable_bind {A B} (m : st (world _) A) (k : A -> st (world _) B) :
  stable m -> (forall a, stable (k a)) -> stable (bind m k).
Proof.
  intros Hm Hk w. unfold bind. specialize (Hm w).
  destruct (m w) as [w1 [a|e]]; simpl in *; [|done]. etransitivity; [exact Hm|apply Hk].
Qed.

Lemma stable_if {A} (b : bool) (m1 m2 : st (world _) A) :
  stable m1 -> stable m2 -> stable (if b then m1 else m2).
Proof. by destruct b. Qed.

End Invariant.

#[export] Hint Resolve stable_ret stable_throw stable_lift_res stable_bind stable_if : client.

(** ** The operations of each component *)

Section Components.
Context `{HR : Remote} `{JsonParse}.

Lemma stable_connect : stable connect.
Proof.
  intros w. unfold connect.
  destruct (connected w) eqn:Hc; [reflexivity|].
  destruct (env_missing w "INFLOW_API_KEY") eqn:Hk; [reflexivity|].
  destruct (env_missing w "INFLOW_COMPANY_ID") eqn:Hi; [reflexivity|].
  destruct (r_connect (w_remote w)) as [r [u|e]]; simpl; [|apply evolves_set_remote].
  split; [|by repeat split]. intros [Hf _]. split; [exact Hf|]. intros _. done.
Qed.

Lemma stable_send name args : stable (send name args).
Proof.
  intros w. unfold send. destruct (r_callTool _ _ _) as [r out]. simpl.
  etransitivity; [apply (evolves_log_call name args)|apply evolves_set_remote].
Qed.

Lemma stable_disconnect : stable disconnect.
Proof.
  intros w. unfold disconnect. destruct (connected w); [|reflexivity].
  split; [|by repeat split]. intros [Hf _]. split; [exact Hf|]. discriminate.
Qed.

Lemma stable_cache_switch (b : bool) : stable (modify (fun w : world HR => set_cache (if b then Cache.enable (w_cache w) else Cache.disable (w_cache w)) (set_cacheDisabled (negb b) w))).
Proof.
  intros w. split; [|by destruct b; repeat split].
  intros [_ Hcr]. split; [by destruct b|]. exact Hcr.
Qed.

Lemma stable_disableCache : stable disableCache.
Proof. exact (stable_cache_switch false). Qed.

Lemma stable_enableCache : stable enableCache.
Proof. exact (stable_cache_switch true). Qed.

Lemma stable_clearCache : stable clearCache.
Proof. intros w. unfold clearCache. simpl. by apply evolves_set_cache. Qed.

Lemma stable_invalidateCacheKey k : stable (invalidateCacheKey k).
Proof. intros w. unfold invalidateCacheKey. simpl. by apply evolves_set_cache. Qed.

Lemma stable_callTool name args : stable (callTool name args).
Proof. unfold callTool. eauto using stable_connect, stable_send with client. Qed.

(** [cache.getOrFetch] over a fetcher that evolves the world. *)
Lemma stable_getOrFetch key (f : st (world _) jsval) ttl :
  stable f -> forall b (w : world _), evolves w (Cache.getOrFetch key f ttl b w).1.
Proof.
  intros Hf b w. unfold Cache.getOrFetch. simpl.
  destruct (negb (Cache.enabled (w_cache w)) || b); [apply Hf|].
  pose proof (Cache.lookup_counters (w_cache w) key (clock w)) as (Hh & Hm & He).
  destruct (Cache.lookup _ _ _) as [[v|] c'] eqn:El; simpl in *.
  - apply evolves_set_cache; simpl; first [congruence|lia].
  - transitivity (set_cache (Cache.count_miss c') w); [apply evolves_set_cache; simpl; first [congruence|lia]|].
    specialize (Hf (set_cache (Cache.count_miss c') w)).
    destruct (f _) as [w2 [v|e]]; simpl in *; [|exact Hf].
    etransitivity; [exact Hf|]. unfold Cache.update_cache. simpl.
    apply evolves_set_cache; simpl; first [congruence|lia].
Qed.

Lemma stable_cached key f ttl : stable f -> stable (cached key f ttl).
Proof. intros Hf w. by apply stable_getOrFetch. Qed.

Lemma stable_map_res {A B} (g : A -> B) (m : st (world _) A) :
  stable m -> stable (fun w => let '(w', r) := m w in (w', res_map g r)).
Proof. intros Hm w. specialize (Hm w). by destruct (m w). Qed.

Lemma stable_invalidatePrefix p : stable (invalidatePrefix p).
Proof. intros w. by apply evolves_set_cache. Qed.

End Components.

#[export] Hint Resolve stable_connect stable_send stable_disconnect stable_disableCache
  stable_enableCache stable_clearCache stable_invalidateCacheKey stable_callTool stable_cached
  stable_map_res stable_invalidatePrefix : client.

Section Operations.
Context `{HR : Remote} `{JsonParse}.

Lemma stable_gets {A} (f : world HR -> A) : stable (gets f).
Proof. intros w. reflexivity. Qed.

Lemma stable_listTools : stable listTools.
Proof.
  unfold listTools. apply stable_bind; [apply stable_connect|]. intros _ w.
  destruct (r_listTools _) as [r out]. apply evolves_set_remote.
Qed.

(** The cached lookups of the serial index read through [getOrFetch]
    directly. *)
Lemma stable_getOrFetch_flag key (f : st (world HR) jsval) ttl :
  stable f -> stable (fun w => Cache.getOrFetch key f ttl (cacheDisabled w) w).
Proof. intros Hf w. by apply stable_getOrFetch. Qed.

Lemma stable_run_read r : stable (run_read r).
Proof.
  intros w. rewrite run_read_plan.
  destruct (read_plan r) as [p|e]; [by apply stable_cached, stable_callTool|reflexivity].
Qed.

Lemma stable_run_write op : stable (run_write op).
Proof.
  intros w. rewrite run_write_eq.
  pose proof (stable_callTool (write_tool op).1 (write_tool op).2 w) as Hc.
  destruct (callTool _ _ w) as [w1 [v|e]]; simpl in *; [|exact Hc].
  etransitivity; [exact Hc|].
  destruct (purge_cache_counters (write_prefixes op) (w_cache w1)) as (Hh & Hm & He).
  apply evolves_set_cache; first [congruence|lia].
Qed.

(** The write methods the CLI calls by name. *)
Lemma stable_writes d :
  stable (upsertProduct d) /\ stable (upsertVendor d) /\ stable (upsertPurchaseOrder d) /\
  stable (receivePurchaseOrder d) /\ stable (unreceivePurchaseOrder d).
Proof.
  exact (conj (stable_run_write (WUpsertProduct d)) (conj (stable_run_write (WUpsertVendor d))
        (conj (stable_run_write (WUpsertPurchaseOrder d)) (conj (stable_run_write (WReceivePurchaseOrder d))
        (stable_run_write (WUnreceivePurchaseOrder d)))))).
Qed.

End Operations.

#[export] Hint Resolve stable_gets stable_listTools stable_getOrFetch_flag stable_run_read
  stable_run_write : client.
#[export] Hint Extern 1 (stable (createStockAdjustment ?d)) =>
  exact (stable_run_write (WCreateStockAdjustment d)) : client.
#[export] Hint Extern 1 (stable (createStockTransfer ?d)) =>
  exact (stable_run_write (WCreateStockTransfer d)) : client.
#[export] Hint Extern 1 (stable (createStockCount ?d)) =>
  exact (stable_run_write (WCreateStockCount d)) : client.
#[export] Hint Extern 1 (stable (upsertProduct _)) => apply stable_writes : client.
#[export] Hint Extern 1 (stable (upsertVendor _)) => apply stable_writes : client.
#[export] Hint Extern 1 (stable (upsertPurchaseOrder _)) => apply stable_writes : client.
#[export] Hint Extern 1 (stable (receivePurchaseOrder _)) => apply stable_writes : client.
#[export] Hint Extern 1 (stable (unreceivePurchaseOrder _)) => apply stable_writes : client.

Section Serials.
Context `{HR : Remote} `{JsonParse}.

Lemma stable_fetch_pages fuel status m skip acc : stable (fetch_pages fuel status m skip acc).
Proof.
  revert skip acc. induction fuel as [|fuel IH]; intros skip acc; simpl; eauto with client.
Qed.

Lemma stable_buildSerialIndex fuel status limit : stable (buildSerialIndex fuel status limit).
Proof. unfold buildSerialIndex. eauto using stable_fetch_pages with client. Qed.

Lemma stable_cached_index fuel : stable (cached_index fuel).
Proof. unfold cached_index. eauto using stable_buildSerialIndex with client. Qed.

Lemma stable_buildSerialIndexFromProducts m : stable (buildSerialIndexFromProducts m).
Proof. unfold buildSerialIndexFromProducts. eauto with client. Qed.

End Serials.

#[export] Hint Resolve stable_fetch_pages stable_buildSerialIndex stable_cached_index
  stable_buildSerialIndexFromProducts : client.

(** ** The client as a state machine *)

(** Every operation a caller can run, with its arguments. *)
Inductive client_op :=
| ORead (r : read_op)
| OWrite (op : write_op)
| OSearchSerial (fuel : nat) (serial : string)
| OListSerials (fuel : nat) (limit : option Z) (productId : option string)
| OBuildSerialIndexFromProducts (maxProducts : option Z)
| OSearchSerialByProduct (serial : string)
| OSalesOrderSerials (orderId : string)
| OPurchaseOrderSerials (orderId : string)
| OConnect | ODisconnect | OListTools
| ODisableCache | OEnableCache | OGetCacheStats | OClearCache | OInvalidateCacheKey (key : string)
| OUpdateProduct (id : string) (name sku description : option string) (cost price : option Z)
| OUpdateVendor (id : string) (name email phone website : option string)
| OCreatePurchaseOrder (vendorId : string) (orderNumber orderDate expectedDate locationId : option string)
    (items : string) (currency remarks : option string)
| OAddPoItem (purchaseOrderId productId : string) (quantity : Z) (unitCost : option Z)
| OUpdatePurchaseOrder (parseFloat : jsval -> jsval) (id : string)
    (remarks orderDate expectedDate carrier currency : option string)
| OReceivePoItems (purchaseOrderId : string) (receiveAll : option bool) (items : option string)
    (allowOverReceive : option bool)
| OUnreceivePoItems (purchaseOrderId : string) (receiveLineIds items : option string)
    (unreceiveAll dryRun : option bool)
| OBuildSerialIndex (fuel : nat) (limit : option Z)
| OCommand (fuel : nat) (c : command).

Section Machine.
Context `{HR : Remote} `{JsonParse}.

(** The world an operation leaves, whatever it returns or throws. *)
Definition run_op (o : client_op) (w : world HR) : world HR :=
  match o with
  | ORead r => (run_read r w).1
  | OWrite op => (run_write op w).1
  | OSearchSerial fuel s => (searchSerial fuel s w).1
  | OListSerials fuel l p => (listSerials fuel l p w).1
  | OBuildSerialIndexFromProducts m => (buildSerialIndexFromProducts m w).1
  | OSearchSerialByProduct s => (searchSerialByProduct s w).1
  | OSalesOrderSerials id => (getSalesOrderSerials id w).1
  | OPurchaseOrderSerials id => (getPurchaseOrderSerials id w).1
  | OConnect => (connect w).1
  | ODisconnect => (disconnect w).1
  | OListTools => (listTools w).1
  | ODisableCache => (disableCache w).1
  | OEnableCache => (enableCache w).1
  | OGetCacheStats => (getCacheStats w).1
  | OClearCache => (clearCache w).1
  | OInvalidateCacheKey k => (invalidateCacheKey k w).1
  | OUpdateProduct id n s d c p => (update_product id n s d c p w).1
  | OUpdateVendor id n e p ws => (update_vendor id n e p ws w).1
  | OCreatePurchaseOrder v n od ed l it c r => (create_purchase_order v n od ed l it c r w).1
  | OAddPoItem po p q u => (add_po_item po p q u w).1
  | OUpdatePurchaseOrder pf id r od ed ca cu => (update_purchase_order pf id r od ed ca cu w).1
  | OReceivePoItems po ra it ao => (receive_po_items po ra it ao w).1
  | OUnreceivePoItems po rl it ua dr => (unreceive_po_items po rl it ua dr w).1
  | OBuildSerialIndex fuel l => (build_serial_index fuel l w).1
  | OCommand fuel c => (run_command fuel c w).1
  end.

(** One operation, or time passing between two. *)
Inductive step : world HR -> world HR -> Prop :=
| step_op o w : step w (run_op o w)
| step_tick d w : (0 <= d)%Z -> step w (advance d w).

(** A client as the constructor leaves it: not connected, caching on. *)
Definition initial (w : world HR) : Prop :=
  connected w = false /\ cacheDisabled w = false /\ Cache.enabled (w_cache w) = true.

(** Unfold the composite operations down to the primitives the hint
    database [client] knows. *)
Ltac unfold_ops :=
  unfold searchSerial, listSerials, searchSerialByProduct, getSalesOrderSerials,
    getPurchaseOrderSerials, getSalesOrder, getPurchaseOrder, update_product,
    update_product_body, fresh_read, getProduct, update_vendor, getVendor,
    create_purchase_order, add_po_item, update_purchase_order, receive_po_items,
    unreceive_po_items, build_serial_index, list_tools, list_products,
    create_stock_adjustment, create_stock_transfer, create_stock_count, create_product,
    create_vendor, list_currencies, searchProducts, getBillOfMaterials, listCategories,
    getStockLevels, getStockByLocation, listStockAdjustments, getStockAdjustment,
    listStockTransfers, getStockTransfer, listStockCounts, getStockCount,
    listAdjustmentReasons, listSalesOrders, searchSalesOrders, listPurchaseOrders,
    listLocations, getLocation, getProductSerials, listAllSerials, listCustomers,
    listVendors, getCompanyInfo, listProducts, get_product, search_products, get_bom,
    list_categories, get_stock_levels, get_stock_by_location, list_stock_adjustments,
    get_stock_adjustment, list_adjustment_reasons, list_stock_transfers, get_stock_transfer,
    list_stock_counts, get_stock_count, list_sales_orders, get_sales_order, search_sales_orders,
    list_purchase_orders, get_purchase_order, list_locations, get_location, get_order_serials,
    get_po_vins, search_serial, list_vins, get_product_vins, list_all_vins, search_serial_fast,
    list_serial_numbers, search_serial_numbers, get_serial_number, list_customers, list_vendors,
    get_company_info.

Lemma stable_run_command fuel c : stable (run_command fuel c).
Proof. destruct c; simpl; unfold_ops; eauto 7 with client. Qed.

Lemma run_op_evolves o w : evolves w (run_op o w).
Proof.
  revert w. destruct o; cbv beta iota delta [run_op];
    lazymatch goal with |- forall w, evolves w (?m w).1 => change (stable m) end;
    unfold_ops; eauto 7 using stable_run_command with client.
Qed.

Lemma steps_evolve w w' : rtc step w w' -> evolves w w'.
Proof.
  induction 1 as [|w1 w2 w3 Hs _ IH]; [reflexivity|].
  etransitivity; [|exact IH].
  destruct Hs; [apply run_op_evolves|apply evolves_advance].
Qed.

Lemma initial_inv w : initial w -> client_inv w.
Proof.
  intros (Hc & Hd & He). split.
  - unfold flag_consistent. by rewrite He, Hd.
  - intros Hc'. congruence.
Qed.

End Machine.

(** ** Invariants of every run *)

Section Runs.
Context `{HR : Remote} `{JsonParse}.

(** C8 [client_inv_reachable]: from a freshly constructed client, after
    any sequence of operations (each may fail) and of clock ticks, the
    flag [cacheDisabled] and the switch of the store agree, and a
    connected client has both credentials set. *)
Theorem client_inv_reachable (w0 w : world HR) :
  initial w0 -> rtc step w0 w -> client_inv w.
Proof. intros Hi Hs. apply (steps_evolve _ _ Hs), initial_inv, Hi. Qed.

(** [counters_never_decrease]: along any sequence of operations and
    clock ticks, [clearCache] and the purges of the writes included, the
    hit and miss counters of the cache never decrease, and the
    configuration and environment never change. *)
Theorem counters_never_decrease (w w' : world HR) :
  rtc step w w' ->
  (Cache.hits (w_cache w) <= Cache.hits (w_cache w'))%nat /\
  (Cache.misses (w_cache w) <= Cache.misses (w_cache w'))%nat /\
  w_config w' = w_config w /\ w_process_env w' = w_process_env w.
Proof. intros Hs. by destruct (steps_evolve _ _ Hs) as (_ & ?). Qed.

End Runs.

(** ** Concrete runs *)

Section Witnesses.
Import Gateway.Fixture.

#[local] Instance client_parser : JsonParse := table_parser [("[]", JArr [])].

(** [update-product] against a server with no answer: the read fails
    with the cache disabled, and the invariant still holds. *)
Lemma client_inv_reachable_witness :
  let w0 := world0 [] good_env in
  let w1 := run_op (OUpdateProduct "P1" None None None None None) w0 in
  initial w0 /\ rtc step w0 w1 /\ client_inv w1 /\ cacheDisabled w1 = true.
Proof.
  intros w0 w1.
  assert (Hi : initial w0) by (repeat split).
  assert (Hs : rtc step w0 w1) by (apply rtc_once, step_op).
  split; [exact Hi|]. split; [exact Hs|]. split; [|reflexivity].
  exact (client_inv_reachable w0 w1 Hi Hs).
Defined.

(** Two reads of the locations: a miss, then a hit. *)
Lemma counters_never_decrease_witness :
  let w0 := world0 [text_answer "[]"] good_env in
  let w2 := run_op (ORead RListLocations) (run_op (ORead RListLocations) w0) in
  rtc step w0 w2 /\
  Cache.hits (w_cache w2) = 1%nat /\ Cache.misses (w_cache w2) = 1%nat /\
  (Cache.hits (w_cache w0) <= Cache.hits (w_cache w2))%nat /\
  (Cache.misses (w_cache w0) <= Cache.misses (w_cache w2))%nat /\
  w_config w2 = w_config w0 /\ w_process_env w2 = w_process_env w0.
Proof.
  intros w0 w2.
  assert (Hs : rtc step w0 w2) by (eapply rtc_l; [apply step_op|apply rtc_once, step_op]).
  split; [exact Hs|]. split; [reflexivity|]. split; [reflexivity|].
  exact (counters_never_decrease w0 w2 Hs).
Defined.

End Witnesses.

End Client.
