(* ===== verification/Interleave.v ===== *)
(** * Interleave: client calls interleaved at their suspension points

    Section 5 of the specification: every operation of the client is an
    asynchronous task.  Nothing runs in parallel, but a task suspends where
    it awaits the transport and the tasks of several callers interleave
    there.  In [src/scripts/mcp-client.ts] a call to the server suspends
    twice at most:
    - in [connect] (lines 99-134), at [await this.client.connect(transport)],
      after the guard [if (this.connected) return], the credential checks
      and the creation of the transport and the client, and before
      [this.connected = true];
    - in [callTool] (line 166), at [await this.client!.callTool(...)],
      after the request is sent and before the answer is normalised; the
      store of [cache.getOrFetch] and the purges of a write run after it.

    A cached read or a write is cut at those points.  [start_read] and
    [start_write] run the code before the first await (the key, the lookup
    of [getOrFetch] with its hit or bypass, the miss counted, the guard of
    [connect]).  A [pending] call waits at a [stage]: [SConnect] for its
    connection, with its request still to send, or [SAnswer] for the answer
    the server fixed when it received the request.  [resume] runs the code
    after the await: the connection made and the request sent, or
    [normalize] followed by the store or the purges ([commit]).

    The state of the system, [sys], is the world and the pool of pending
    calls.  [cstep] starts a call, resumes any pending one (picked by its
    index in the pool), or runs any other operation of [Client.step] to
    completion.  Between the end of [connect] and the request there is no
    suspension in the model. *)

From S2P Require Import Prelude Json Cache CacheKey Gateway Accessors Mutations Client.
Import Json CacheKey Gateway Accessors Mutations Client.

Module Interleave.

(** What a call does with a successful answer: a read that missed stores
    it under its key with its TTL, a read that bypassed the cache stores
    nothing, a write purges its prefixes. *)
Inductive effect :=
| EStore (store : option (string * Z))
| EPurge (prefixes : list string).

(** Where a suspended call waits: for its connection, with the request
    [name(args)] still to send, or for the answer to its request. *)
Inductive stage :=
| SConnect (name : string) (args : jsobj)
| SAnswer (answer : res toolResult).

Record pending := mkPending { pd_effect : effect; pd_stage : stage }.

Definition is_connecting (p : pending) : bool :=
  match pd_stage p with SConnect _ _ => true | SAnswer _ => false end.

(** A call a caller starts: a cached read or a write of the client. *)
Inductive call :=
| CRead (r : read_op)
| CWrite (op : write_op).

Section Halves.
Context `{Remote} `{JsonParse}.

(** [await this.client!.callTool({ name, arguments: args })]: the request
    is sent and the call waits for its answer. *)
Definition request (name : string) (args : jsobj) (eff : effect) (w : world _) :
    world _ * (res jsval + pending) :=
  let '(w2, a) := send name args w in (w2, inr (mkPending eff (SAnswer a))).

(** [callTool] up to its first await.  [connect] returns at once on a
    connected client and the request is sent; it throws on a missing
    credential; otherwise it creates the transport and the client and
    waits for the connection. *)
Definition issue (name : string) (args : jsobj) (eff : effect) (w : world _) :
    world _ * (res jsval + pending) :=
  if connected w then request name args eff w
  else if env_missing w "INFLOW_API_KEY" then (w, inl (Err (ConfigurationError msg_no_api_key)))
  else if env_missing w "INFLOW_COMPANY_ID" then (w, inl (Err (ConfigurationError msg_no_company_id)))
  else (w, inr (mkPending eff (SConnect name args))).

(** A cached read up to its first await: [cached] and [getOrFetch] with
    the producer [callTool]. *)
Definition start_read (r : read_op) (w : world _) : world _ * (res jsval + pending) :=
  match read_plan r with
  | Err e => (w, inl (Err e))
  | Ok p =>
      if negb (Cache.enabled (w_cache w)) || cacheDisabled w then
        issue (p_tool p) (p_args p) (EStore None) w
      else
        match Cache.lookup (w_cache w) (p_key p) (clock w) with
        | (Some v, c') => (set_cache (Cache.count_hit c') w, inl (Ok v))
        | (None, c') =>
            issue (p_tool p) (p_args p) (EStore (Some (p_key p, p_ttl p)))
              (set_cache (Cache.count_miss c') w)
        end
  end.

(** A write up to its first await: [const result = await this.callTool(...)]. *)
Definition start_write (op : write_op) : world _ -> world _ * (res jsval + pending) :=
  issue (write_tool op).1 (write_tool op).2 (EPurge (write_prefixes op)).

Definition start (c : call) : world _ -> world _ * (res jsval + pending) :=
  match c with
  | CRead r => start_read r
  | CWrite op => start_write op
  end.

(** What the awaited [callTool] returns: a rejected transport call
    rethrows, an answer goes through [normalize]. *)
Definition answer_value (a : res toolResult) : res jsval := res_bind a normalize.

(** The [set] of [getOrFetch], or the purges of a write. *)
Definition commit (eff : effect) (v : jsval) (w : world _) : world _ :=
  match eff with
  | EStore (Some (k, ttl)) => set_cache (Cache.set (w_cache w) k v (Some ttl) (clock w)) w
  | EStore None => w
  | EPurge ps => set_cache (purge_cache ps (w_cache w)) w
  end.

(** The code after the await a call waits at.  After the connection:
    [this.connected = true], then the request.  After the answer: the
    normalisation, then the store or the purges. *)
Definition resume (p : pending) (w : world _) : world _ * (res jsval + pending) :=
  match pd_stage p with
  | SConnect name args =>
      let '(r, out) := r_connect (w_remote w) in
      match out with
      | Ok _ => request name args (pd_effect p) (set_connected true (set_remote r w))
      | Err e => (set_remote r w, inl (Err e))
      end
  | SAnswer a =>
      match answer_value a with
      | Ok v => (commit (pd_effect p) v w, inl (Ok v))
      | Err e => (w, inl (Err e))
      end
  end.

(** A call resumed as soon as it suspends, at most [n] times. *)
Fixpoint drive (n : nat) (wx : world _ * (res jsval + pending)) : world _ * res jsval :=
  match wx with
  | (w, inl x) => (w, x)
  | (w, inr p) => match n with O => (w, Err Diverged) | S n => drive n (resume p w) end
  end.

(** A call that no other call overlaps. *)
Definition run_alone (c : call) : st (world _) jsval := fun w => drive 2 (start c w).

(** The atomic method a call stands for. *)
Definition run_call (c : call) : st (world _) jsval :=
  match c with
  | CRead r => run_read r
  | CWrite op => run_write op
  end.

End Halves.

(** ** The system of interleaved calls *)

Section System.
Context `{HR : Remote} `{JsonParse}.

Record sys := mkSys { s_world : world HR; s_pool : list pending }.

Definition pool_of (x : res jsval + pending) : list pending :=
  match x with inl _ => [] | inr p => [p] end.

(** The pool after the call at index [i] resumed: gone if it ended,
    waiting at its next stage otherwise. *)
Definition pool_after (i : nat) (x : res jsval + pending) (ps : list pending) : list pending :=
  match x with inl _ => delete i ps | inr p => <[i := p]> ps end.

(** One step of the system: a caller starts a call (it joins the pool
    unless it ended before its first await), a pending call resumes, or an
    operation runs without suspending. *)
Inductive cstep : sys -> sys -> Prop :=
| cstep_start c w ps :
    cstep (mkSys w ps) (mkSys (start c w).1 (ps ++ pool_of (start c w).2))
| cstep_resume i p w ps :
    ps !! i = Some p ->
    cstep (mkSys w ps) (mkSys (resume p w).1 (pool_after i (resume p w).2 ps))
| cstep_atomic w w' ps :
    step w w' -> cstep (mkSys w ps) (mkSys w' ps).

(** Both credentials are set: what [connect] checks before it awaits. *)
Definition credentials_set (w : world HR) : Prop :=
  env_missing w "INFLOW_API_KEY" = false /\ env_missing w "INFLOW_COMPANY_ID" = false.

(** The invariant of the system: the client's, and a call waits for its
    connection only if the credentials are set. *)
Definition sys_inv (s : sys) : Prop :=
  client_inv (s_world s) /\
  Forall (fun p => is_connecting p = true -> credentials_set (s_world s)) (s_pool s).

End System.

Arguments sys : clear implicits.

(** ** The halves compose to the atomic methods *)

Section Refinement.
Context `{Remote} `{JsonParse}.

(** A request driven to its end is [send] and [normalize] followed by the
    effect. *)
Lemma request_alone n name args eff (w : world _) :
  drive (S n) (request name args eff w) =
    match send name args w with
    | (w2, Ok t) => match normalize t with
                    | Ok v => (commit eff v w2, Ok v)
                    | Err e => (w2, Err e)
                    end
    | (w2, Err e) => (w2, Err e)
    end.
Proof.
  unfold request. destruct (send name args w) as [w2 [t|e]]; simpl; [|destruct n; reflexivity].
  unfold resume, answer_value. simpl. destruct (normalize t); destruct n; reflexivity.
Qed.

(** A call waiting for its connection, driven on: [this.connected = true]
    and the request, or the failed connection. *)
Lemma drive_connect n eff name args (w : world _) :
  drive (S (S n)) (w, inr (mkPending eff (SConnect name args))) =
    let '(r, out) := r_connect (w_remote w) in
    match out with
    | Ok _ => drive (S n) (request name args eff (set_connected true (set_remote r w)))
    | Err e => (set_remote r w, Err e)
    end.
Proof. cbn [drive]. unfold resume. simpl. by destruct (r_connect (w_remote w)) as [r [u|e]]. Qed.

(** A call's first await and everything after it, resumed at once, is
    [callTool] followed by the effect. *)
Lemma issue_alone name args eff (w : world _) :
  drive 2 (issue name args eff w) =
    match callTool name args w with
    | (w2, Ok v) => (commit eff v w2, Ok v)
    | (w2, Err e) => (w2, Err e)
    end.
Proof.
  unfold issue, callTool, bind, connect.
  destruct (connected w).
  - rewrite request_alone. destruct (send name args w) as [w2 [t|e]]; [|reflexivity].
    simpl. by destruct (normalize t).
  - destruct (env_missing w _); [reflexivity|]. destruct (env_missing w _); [reflexivity|].
    rewrite drive_connect. destruct (r_connect (w_remote w)) as [r [u|e]]; [|reflexivity].
    rewrite request_alone. destruct (send _ _ _) as [w2 [t|e]]; [|reflexivity].
    simpl. by destruct (normalize t).
Qed.

Lemma run_alone_read r (w : world _) : run_alone (CRead r) w = run_read r w.
Proof.
  rewrite run_read_plan. unfold run_alone, start, start_read.
  destruct (read_plan r) as [p|e]; [|reflexivity].
  unfold cached, Cache.getOrFetch. cbn -[issue drive callTool].
  destruct (negb _ || _).
  - rewrite issue_alone. by destruct (callTool _ _ w) as [w2 [v|e]].
  - destruct (Cache.lookup _ _ _) as [[v|] c']; [reflexivity|].
    rewrite issue_alone. by destruct (callTool _ _ _) as [w2 [v|e]].
Qed.

Lemma run_alone_write op (w : world _) : run_alone (CWrite op) w = run_write op w.
Proof.
  rewrite run_write_eq. unfold run_alone, start, start_write.
  rewrite issue_alone. by destruct (callTool _ _ w) as [w2 [v|e]].
Qed.

End Refinement.

(** ** Every interleaving keeps the invariant *)

Section Evolution.
Context `{HR : Remote} `{JsonParse}.

Lemma credentials_evolve (w w' : world HR) : evolves w w' -> credentials_set w -> credentials_set w'.
Proof.
  intros (_ & _ & _ & Hc & He) [H1 H2].
  split; by rewrite (env_missing_frame w w').
Qed.

Lemma pool_evolve (w w' : world HR) ps :
  evolves w w' ->
  Forall (fun p => is_connecting p = true -> credentials_set w) ps ->
  Forall (fun p => is_connecting p = true -> credentials_set w') ps.
Proof. intros He Hp. apply (Forall_impl _ _ _ Hp). eauto using credentials_evolve. Qed.

(** [this.connected = true] after the checks of [connect]. *)
Lemma evolves_connected r (w : world HR) :
  credentials_set w -> evolves w (set_connected true (set_remote r w)).
Proof.
  intros Hcr. split; [|by repeat split].
  intros [Hf _]. split; [exact Hf|]. intros _. exact Hcr.
Qed.

Lemma evolves_request name args eff (w : world HR) : evolves w (request name args eff w).1.
Proof.
  unfold request. pose proof (stable_send name args w) as Hs.
  destruct (send name args w) as [w2 a]. exact Hs.
Qed.

Lemma evolves_issue name args eff (w : world HR) : evolves w (issue name args eff w).1.
Proof.
  unfold issue. destruct (connected w); [apply evolves_request|].
  destruct (env_missing w _); [reflexivity|]. destruct (env_missing w _); reflexivity.
Qed.

Lemma evolves_start c (w : world HR) : evolves w (start c w).1.
Proof.
  destruct c as [r|op]; [|apply evolves_issue]. simpl. unfold start_read.
  destruct (read_plan r) as [p|e]; [|reflexivity].
  destruct (negb _ || _); [apply evolves_issue|].
  pose proof (Cache.lookup_counters (w_cache w) (p_key p) (clock w)) as (Hh & Hm & He).
  destruct (Cache.lookup _ _ _) as [[v|] c']; simpl in *.
  - apply evolves_set_cache; simpl; first [congruence|lia].
  - etransitivity; [|apply evolves_issue]. apply evolves_set_cache; simpl; first [congruence|lia].
Qed.

Lemma evolves_commit eff v (w : world HR) : evolves w (commit eff v w).
Proof.
  destruct eff as [[[k ttl]|]|ps]; simpl; [by apply evolves_set_cache|reflexivity|].
  destruct (purge_cache_counters ps (w_cache w)) as (Hh & Hm & He).
  apply evolves_set_cache; first [congruence|lia].
Qed.

Lemma evolves_resume p (w : world HR) :
  (is_connecting p = true -> credentials_set w) -> evolves w (resume p w).1.
Proof.
  unfold resume, is_connecting. intros Hc. destruct (pd_stage p) as [name args|a].
  - destruct (r_connect (w_remote w)) as [r [u|e]]; [|apply evolves_set_remote].
    etransitivity; [apply evolves_connected, Hc, eq_refl|apply evolves_request].
  - destruct (answer_value a) as [v|e]; [apply evolves_commit|reflexivity].
Qed.

(** A call waits for its connection only after the checks of [connect]. *)
Lemma issue_connecting name args eff (w : world HR) p :
  (issue name args eff w).2 = inr p -> is_connecting p = true -> credentials_set w.
Proof.
  unfold issue. destruct (connected w).
  - unfold request. destruct (send _ _ _). intros [= <-]. discriminate.
  - destruct (env_missing w "INFLOW_API_KEY") eqn:H1; [discriminate|].
    destruct (env_missing w "INFLOW_COMPANY_ID") eqn:H2; [discriminate|]. intros _ _. by split.
Qed.

Lemma start_connecting c (w : world HR) p :
  (start c w).2 = inr p -> is_connecting p = true -> credentials_set w.
Proof.
  destruct c as [r|op]; simpl; [|apply issue_connecting].
  unfold start_read. destruct (read_plan r) as [pl|e]; [|discriminate].
  destruct (negb _ || _); [apply issue_connecting|].
  destruct (Cache.lookup _ _ _) as [[v|] c']; [discriminate|].
  intros Hx. exact (issue_connecting _ _ _ _ _ Hx).
Qed.

(** A resumed call waits, if at all, for its answer. *)
Lemma resume_answers p (w : world HR) p' : (resume p w).2 = inr p' -> is_connecting p' = false.
Proof.
  unfold resume. destruct (pd_stage p).
  - destruct (r_connect _) as [r [u|e]]; [|discriminate].
    unfold request. destruct (send _ _ _). intros [= <-]. reflexivity.
  - destruct (answer_value _); discriminate.
Qed.

Lemma cstep_inv s s' : sys_inv s -> cstep s s' -> sys_inv s' /\ evolves (s_world s) (s_world s').
Proof.
  intros [Hi Hp]. destruct 1 as [c w ps|i p w ps Hl|w w' ps Hs]; simpl in *.
  - pose proof (evolves_start c w) as He. pose proof (start_connecting c w) as Hn.
    destruct (start c w) as [w1 x]. simpl in *. split; [|exact He]. split; [by apply He|].
    apply Forall_app. split; [by apply (pool_evolve w)|].
    destruct x as [y|q]; constructor; [|constructor]. intros Hq. eauto using credentials_evolve.
  - pose proof (evolves_resume p w (Forall_lookup_1 _ _ _ _ Hp Hl)) as He.
    pose proof (resume_answers p w) as Hn.
    destruct (resume p w) as [w1 x]. simpl in *. split; [|exact He]. split; [by apply He|].
    apply (pool_evolve w); [exact He|]. destruct x as [y|q]; simpl.
    + by apply Forall_delete.
    + apply Forall_insert; [exact Hp|]. by rewrite (Hn q eq_refl).
  - pose proof (steps_evolve w w' (rtc_once _ _ Hs)) as He.
    split; [|exact He]. split; [by apply He|]. by apply (pool_evolve w).
Qed.

Lemma csteps_inv s s' : rtc cstep s s' -> sys_inv s -> sys_inv s' /\ evolves (s_world s) (s_world s').
Proof.
  induction 1 as [s|s1 s2 s3 Hs _ IH]; intros Hi; [split; [exact Hi|reflexivity]|].
  destruct (cstep_inv s1 s2 Hi Hs) as [Hi2 He2]. destruct (IH Hi2) as [Hi3 He3].
  split; [exact Hi3|by etransitivity].
Qed.

End Evolution.

(** ** Lemmas on the halves *)

Section HalfLemmas.
Context `{HR : Remote} `{JsonParse}.

(** The first half of a call changes the transport and the log at most. *)
Section Frame.
Context {A : Type} (f : world HR -> A).
Hypothesis f_remote : forall r w, f (set_remote r w) = f w.
Hypothesis f_log : forall name args w, f (log_call name args w) = f w.

Lemma issue_frame name args eff w : f (issue name args eff w).1 = f w.
Proof.
  unfold issue, request, send. destruct (connected w).
  - destruct (r_callTool _ _ _). simpl. by rewrite f_remote, f_log.
  - destruct (env_missing w _); [done|]. by destruct (env_missing w _).
Qed.

End Frame.

Lemma issue_cache name args eff (w : world HR) : w_cache (issue name args eff w).1 = w_cache w.
Proof. by apply issue_frame. Qed.

Lemma issue_flag name args eff (w : world HR) : cacheDisabled (issue name args eff w).1 = cacheDisabled w.
Proof. by apply issue_frame. Qed.

Lemma issue_clock name args eff (w : world HR) : clock (issue name args eff w).1 = clock w.
Proof. by apply issue_frame. Qed.

Lemma issue_effect name args eff (w : world HR) p : (issue name args eff w).2 = inr p -> pd_effect p = eff.
Proof.
  unfold issue, request. destruct (connected w).
  - destruct (send _ _ _). by intros [= <-].
  - destruct (env_missing w _); [done|]. destruct (env_missing w _); [done|]. by intros [= <-].
Qed.

(** On a connected client the first half sends the request and waits for
    the answer. *)
Lemma issue_connected name args eff (w : world HR) :
  connected w = true ->
  exists a, issue name args eff w = ((issue name args eff w).1, inr (mkPending eff (SAnswer a))) /\
    connected (issue name args eff w).1 = true /\
    w_log (issue name args eff w).1 = w_log w ++ [(name, args)].
Proof.
  intros Hc. unfold issue, request. rewrite Hc.
  unfold send. destruct (r_callTool _ _ _) as [r a]. by exists a.
Qed.

(** On a client not yet connected whose credentials are set, the first
    half passes the guard of [connect] and waits for the connection,
    leaving the world as it was. *)
Lemma issue_disconnected name args eff (w : world HR) :
  connected w = false -> credentials_set w ->
  issue name args eff w = (w, inr (mkPending eff (SConnect name args))).
Proof. intros Hc [H1 H2]. unfold issue. by rewrite Hc, H1, H2. Qed.

(** A read that waits with a key to store under took the miss path of
    [getOrFetch]: caching was on, and it still is. *)
Lemma start_read_store r (w w1 : world HR) kt st :
  start_read r w = (w1, inr (mkPending (EStore (Some kt)) st)) ->
  cacheDisabled w1 = false /\ Cache.enabled (w_cache w1) = true /\ clock w1 = clock w.
Proof.
  unfold start_read. destruct (read_plan r) as [p|e]; [|done].
  destruct (negb (Cache.enabled (w_cache w)) || cacheDisabled w) eqn:Hb.
  - intros Hi. pose proof (f_equal snd Hi) as Hx. simpl in Hx.
    apply issue_effect in Hx. discriminate.
  - apply orb_false_iff in Hb as [He%negb_false_iff Hd].
    pose proof (Cache.lookup_counters (w_cache w) (p_key p) (clock w)) as (_ & _ & Hen).
    destruct (Cache.lookup _ _ _) as [[v|] c']; [discriminate|].
    intros Hi. pose proof (f_equal fst Hi) as Hw. simpl in Hw, Hen. subst w1.
    rewrite issue_cache, issue_flag, issue_clock. simpl. by rewrite Hen.
Qed.

(** On a miss of a connected client with caching on, the read counts the
    miss, sends its request and waits for the answer; the view is
    unchanged. *)
Lemma start_read_miss r p (w : world HR) :
  read_plan r = Ok p -> cacheDisabled w = false -> Cache.enabled (w_cache w) = true ->
  connected w = true -> Cache.view (w_cache w) (clock w) !! p_key p = None ->
  exists a, start_read r w =
              ((start_read r w).1, inr (mkPending (EStore (Some (p_key p, p_ttl p))) (SAnswer a))) /\
    cacheDisabled (start_read r w).1 = false /\ Cache.enabled (w_cache (start_read r w).1) = true /\
    connected (start_read r w).1 = true /\ clock (start_read r w).1 = clock w /\
    Cache.view (w_cache (start_read r w).1) (clock w) = Cache.view (w_cache w) (clock w) /\
    w_log (start_read r w).1 = w_log w ++ [(p_tool p, p_args p)] /\
    Cache.misses (w_cache (start_read r w).1) = S (Cache.misses (w_cache w)).
Proof.
  intros Hp Hd He Hc Hv. unfold start_read. rewrite Hp, He, Hd. simpl.
  pose proof (Cache.lookup_result (w_cache w) (p_key p) (clock w)) as Hl.
  pose proof (Cache.lookup_view (w_cache w) (p_key p) (clock w)) as Hlv.
  pose proof (Cache.lookup_counters (w_cache w) (p_key p) (clock w)) as (_ & Hm & Hen).
  destruct (Cache.lookup _ _ _) as [o c']. simpl in *. rewrite Hv in Hl. subst o.
  destruct (issue_connected (p_tool p) (p_args p) (EStore (Some (p_key p, p_ttl p)))
              (set_cache (Cache.count_miss c') w) Hc) as (a & Hi & Hc' & Hlog).
  exists a. split; [exact Hi|].
  rewrite issue_cache, issue_flag, issue_clock, Hc', Hlog. simpl.
  repeat split; first [exact Hlv|congruence].
Qed.

(** [cstep_start] and [cstep_resume] read off the equations of a run. *)
Lemma cstep_start_eq c (w w' : world HR) ps x :
  start c w = (w', x) -> cstep (mkSys w ps) (mkSys w' (ps ++ pool_of x)).
Proof. intros Hs. pose proof (cstep_start c w ps) as Hc. by rewrite Hs in Hc. Qed.

Lemma cstep_resume_eq i p (w w' : world HR) ps x :
  ps !! i = Some p -> resume p w = (w', x) -> cstep (mkSys w ps) (mkSys w' (pool_after i x ps)).
Proof. intros Hi Hr. pose proof (cstep_resume i p w ps Hi) as Hc. by rewrite Hr in Hc. Qed.

Lemma resume_ok eff a v (w : world HR) :
  answer_value a = Ok v -> resume (mkPending eff (SAnswer a)) w = (commit eff v w, inl (Ok v)).
Proof. intros Ha. unfold resume. simpl. by rewrite Ha. Qed.

(** A call waiting for its answer ends when it resumes, and touches
    neither the connection nor the transport. *)
Lemma resume_answer eff a (w : world HR) :
  exists w' x, resume (mkPending eff (SAnswer a)) w = (w', inl x) /\
    w_remote w' = w_remote w /\ connected w' = connected w.
Proof.
  unfold resume. simpl. destruct (answer_value a) as [v|e]; [|by eexists _, _].
  eexists _, _. split; [reflexivity|]. by destruct eff as [[[k ttl]|]|ps].
Qed.

End HalfLemmas.

(** ** Theorems *)

Section Theorems.
Context `{HR : Remote} `{JsonParse}.

(** [run_alone_refines]: a call that no other call overlaps, resumed
    as soon as it suspends, is the atomic method of the client: two
    resumptions always suffice, and it leaves the same world and returns
    the same result as [run_read] or [run_write], on every branch (hit,
    bypass, miss, fresh or existing connection, missing credentials,
    failed connection, rejected request, error answer). *)
Theorem run_alone_refines c (w : world HR) : run_alone c w = run_call c w.
Proof. destruct c; [apply run_alone_read|apply run_alone_write]. Qed.

(** C33 [interleaved_inv_reachable]: from a freshly constructed client,
    in every interleaving of calls suspended at their awaits with the
    other operations and clock ticks, [cacheDisabled] and the store switch
    agree, a connected client has its credentials, and the hit and miss
    counters never decrease. *)
Theorem interleaved_inv_reachable (w0 : world HR) s :
  initial w0 -> rtc cstep (mkSys w0 []) s ->
  client_inv (s_world s) /\
  (Cache.hits (w_cache w0) <= Cache.hits (w_cache (s_world s)))%nat /\
  (Cache.misses (w_cache w0) <= Cache.misses (w_cache (s_world s)))%nat.
Proof.
  intros Hi Hs. destruct (csteps_inv _ _ Hs) as [[Hinv _] (_ & Hh & Hm & _)].
  - split; [apply initial_inv, Hi|constructor].
  - by split.
Qed.

(** C34 [concurrent_misses_both_fetch]: two callers start the same cached
    read on a key that holds no fresh entry, the second before the first
    has its answer: both count a miss and both send the request, and both
    wait to store their answer under the key.  The cache does not coalesce
    concurrent misses, the limitation section 5 of the specification
    accepts. *)
Theorem concurrent_misses_both_fetch r p (w : world HR) :
  read_plan r = Ok p -> cacheDisabled w = false -> Cache.enabled (w_cache w) = true ->
  connected w = true -> Cache.view (w_cache w) (clock w) !! p_key p = None ->
  exists w2 a1 a2,
    rtc cstep (mkSys w []) (mkSys w2 [mkPending (EStore (Some (p_key p, p_ttl p))) (SAnswer a1);
                                       mkPending (EStore (Some (p_key p, p_ttl p))) (SAnswer a2)]) /\
    w_log w2 = w_log w ++ [(p_tool p, p_args p); (p_tool p, p_args p)] /\
    Cache.misses (w_cache w2) = S (S (Cache.misses (w_cache w))).
Proof.
  intros Hp Hd He Hc Hv.
  destruct (start_read_miss r p w Hp Hd He Hc Hv) as (a1 & Hs1 & Hd1 & He1 & Hc1 & Hk1 & Hv1 & Hl1 & Hm1).
  set (w1 := (start_read r w).1) in *.
  assert (Hv' : Cache.view (w_cache w1) (clock w1) !! p_key p = None) by (rewrite Hk1, Hv1; exact Hv).
  destruct (start_read_miss r p w1 Hp Hd1 He1 Hc1 Hv') as (a2 & Hs2 & _ & _ & _ & _ & _ & Hl2 & Hm2).
  exists (start_read r w1).1, a1, a2. split; [|split].
  - eapply rtc_l; [apply (cstep_start_eq (CRead r)); exact Hs1|].
    eapply rtc_l; [apply (cstep_start_eq (CRead r)); exact Hs2|]. apply rtc_refl.
  - rewrite Hl2, Hl1. by rewrite <- app_assoc.
  - by rewrite Hm2, Hm1.
Qed.

(** C35 [inflight_read_undoes_purge]: a cached read misses and sends its
    request; before its answer arrives a write whose prefixes cover the
    read's key is sent, succeeds and purges the key; then the read resumes
    and stores the answer the server gave before the write.  After the
    interleaving every other key of the write's families is gone, but the
    read's key is back: the next identical read is answered from the
    cache, without I/O, with the pre-write answer, for the read's whole
    TTL. *)
Theorem inflight_read_undoes_purge r p op (w w1 w2 : world HR) a b v u :
  read_plan r = Ok p -> purged (write_prefixes op) (p_key p) = true -> (0 < p_ttl p)%Z ->
  start_read r w = (w1, inr (mkPending (EStore (Some (p_key p, p_ttl p))) (SAnswer a))) ->
  answer_value a = Ok v ->
  start_write op w1 = (w2, inr (mkPending (EPurge (write_prefixes op)) (SAnswer b))) ->
  answer_value b = Ok u ->
  let w3 := commit (EPurge (write_prefixes op)) u w2 in
  let w4 := commit (EStore (Some (p_key p, p_ttl p))) v w3 in
  rtc cstep (mkSys w []) (mkSys w4 []) /\
  (forall k, k <> p_key p -> purged (write_prefixes op) k = true ->
     Cache.view (w_cache w4) (clock w4) !! k = None) /\
  run_read r w4 = (set_cache (Cache.count_hit (w_cache w4)) w4, Ok v).
Proof.
  intros Hp Hpg Ht Hs1 Ha Hs2 Hb w3 w4.
  destruct (start_read_store r w w1 _ _ Hs1) as (Hd1 & He1 & _).
  pose proof (f_equal fst Hs2) as Hw2. unfold start_write in Hw2. simpl in Hw2.
  assert (Hc2 : w_cache w2 = w_cache w1) by (rewrite <- Hw2; apply issue_cache).
  assert (Hd2 : cacheDisabled w2 = false) by (rewrite <- Hw2, issue_flag; exact Hd1).
  destruct (purge_cache_counters (write_prefixes op) (w_cache w2)) as (_ & _ & Hen).
  split; [|split].
  - eapply rtc_l; [apply (cstep_start_eq (CRead r)); exact Hs1|].
    eapply rtc_l; [apply (cstep_start_eq (CWrite op)); exact Hs2|]. simpl.
    eapply rtc_l; [eapply (cstep_resume_eq 1); [reflexivity|apply resume_ok, Hb]|]. simpl.
    eapply rtc_l; [eapply (cstep_resume_eq 0); [reflexivity|apply resume_ok, Ha]|]. apply rtc_refl.
  - intros k Hne Hk. simpl. rewrite Cache.view_set. unfold Cache.ttl_of.
    destruct (Z.ltb_spec (clock w2) (clock w2 + p_ttl p)) as [_|]; [|lia].
    rewrite lookup_insert_ne by congruence.
    rewrite Cache.view_lookup, purge_cache_entries, Hk. reflexivity.
  - apply (run_read_hit r p); [exact Hd2| |exact Hp|].
    + simpl. rewrite Hen, Hc2. exact He1.
    + simpl. rewrite Cache.view_set. unfold Cache.ttl_of.
      destruct (Z.ltb_spec (clock w2) (clock w2 + p_ttl p)) as [_|]; [|lia].
      apply lookup_insert_eq.
Qed.

End Theorems.

(** ** Two first calls race through [connect] *)

Section ConnectRace.
Context `{HR : Remote} `{JsonParse}.

(** A server that accepts every connection and counts them. *)
Variable connections : rstate -> nat.
Hypothesis connections_connect : forall r, connections (r_connect r).1 = S (connections r).
Hypothesis connections_call : forall r name args, connections (r_callTool r name args).1 = connections r.
Hypothesis connect_accepts : forall r, (r_connect r).2 = Ok tt.

(** A call waiting for its connection connects, sends its request and
    waits for the answer. *)
Lemma resume_connect eff name args (w : world HR) :
  exists w' a, resume (mkPending eff (SConnect name args)) w = (w', inr (mkPending eff (SAnswer a))) /\
    connected w' = true /\ connections (w_remote w') = S (connections (w_remote w)).
Proof.
  unfold resume. simpl.
  pose proof (connect_accepts (w_remote w)) as Ha. pose proof (connections_connect (w_remote w)) as Hn.
  destruct (r_connect (w_remote w)) as [r out]. simpl in Ha, Hn. subst out.
  unfold request, send. simpl. pose proof (connections_call r name args) as Hc.
  destruct (r_callTool r name args) as [r' a]. simpl in Hc.
  eexists _, a. split; [reflexivity|]. simpl. split; [reflexivity|]. congruence.
Qed.

(** C36 [concurrent_first_calls_both_connect]: two writes started on a
    client that is not yet connected, the second before the first has
    connected, both pass the guard [if (this.connected) return] of
    [connect]: each creates a transport and a client and waits for its
    connection, the world unchanged.  When they resume, both connections
    are made: the server is connected to twice for one client, whose
    second transport and client replace the first ones, which
    [disconnect] never closes. *)
Theorem concurrent_first_calls_both_connect op1 op2 (w : world HR) :
  connected w = false -> credentials_set w ->
  let p1 := mkPending (EPurge (write_prefixes op1)) (SConnect (write_tool op1).1 (write_tool op1).2) in
  let p2 := mkPending (EPurge (write_prefixes op2)) (SConnect (write_tool op2).1 (write_tool op2).2) in
  rtc cstep (mkSys w []) (mkSys w [p1; p2]) /\
  exists s, rtc cstep (mkSys w [p1; p2]) s /\ s_pool s = [] /\ connected (s_world s) = true /\
    connections (w_remote (s_world s)) = S (S (connections (w_remote w))).
Proof.
  intros Hc Hcr p1 p2. split.
  - eapply rtc_l; [apply (cstep_start_eq (CWrite op1)); exact (issue_disconnected _ _ _ w Hc Hcr)|].
    eapply rtc_l; [apply (cstep_start_eq (CWrite op2)); exact (issue_disconnected _ _ _ w Hc Hcr)|].
    apply rtc_refl.
  - destruct (resume_connect (pd_effect p1) (write_tool op1).1 (write_tool op1).2 w)
      as (w1 & a1 & E1 & _ & N1).
    destruct (resume_connect (pd_effect p2) (write_tool op2).1 (write_tool op2).2 w1)
      as (w2 & a2 & E2 & C2 & N2).
    destruct (resume_answer (pd_effect p1) a1 w2) as (w3 & x3 & E3 & R3 & C3).
    destruct (resume_answer (pd_effect p2) a2 w3) as (w4 & x4 & E4 & R4 & C4).
    exists (mkSys w4 []). split; [|split; [reflexivity|split]].
    + eapply rtc_l; [eapply (cstep_resume_eq 0); [reflexivity|exact E1]|]. simpl.
      eapply rtc_l; [eapply (cstep_resume_eq 1); [reflexivity|exact E2]|]. simpl.
      eapply rtc_l; [eapply (cstep_resume_eq 0); [reflexivity|exact E3]|]. simpl.
      eapply rtc_l; [eapply (cstep_resume_eq 0); [reflexivity|exact E4]|]. apply rtc_refl.
    + simpl. congruence.
    + simpl. by rewrite R4, R3, N2, N1.
Qed.

End ConnectRace.

(** ** Concrete runs *)

Section Witnesses.
Import Gateway.Fixture.

#[local] Instance interleave_parser : JsonParse :=
  table_parser [("[]", JArr []); ("old", JObj [("name", JStr "Old")]); ("ok", JObj [("id", JStr "P1")])].

(** Two reads of the locations start on a fresh client: both pass the
    guard of [connect].  Then the second connects and sends its request;
    both are still pending. *)
Definition two_reads : sys scripted :=
  Eval vm_compute in
    let w0 := world0 [text_answer "[]"; text_answer "[]"] good_env in
    let x1 := start (CRead RListLocations) w0 in
    let x2 := start (CRead RListLocations) x1.1 in
    let ps := pool_of x1.2 ++ pool_of x2.2 in
    match ps !! 1 with
    | Some p => mkSys (resume p x2.1).1 (pool_after 1 (resume p x2.1).2 ps)
    | None => mkSys x2.1 ps
    end.

Lemma interleaved_inv_reachable_witness :
  let w0 := world0 [text_answer "[]"; text_answer "[]"] good_env in
  initial w0 /\ rtc cstep (mkSys w0 []) two_reads /\ length (s_pool two_reads) = 2%nat /\
  connected (s_world two_reads) = true /\
  client_inv (s_world two_reads) /\
  (Cache.hits (w_cache w0) <= Cache.hits (w_cache (s_world two_reads)))%nat /\
  (Cache.misses (w_cache w0) <= Cache.misses (w_cache (s_world two_reads)))%nat.
Proof.
  intros w0.
  assert (Hi : initial w0) by (repeat split).
  assert (Hs : rtc cstep (mkSys w0 []) two_reads).
  { eapply rtc_l; [apply (cstep_start (CRead RListLocations))|].
    eapply rtc_l; [apply (cstep_start (CRead RListLocations))|].
    eapply rtc_l; [eapply (cstep_resume 1); reflexivity|]. vm_compute. apply rtc_refl. }
  split; [exact Hi|]. split; [exact Hs|]. split; [reflexivity|]. split; [reflexivity|].
  exact (interleaved_inv_reachable w0 two_reads Hi Hs).
Defined.

Lemma concurrent_misses_both_fetch_witness :
  let w := set_connected true (world0 [text_answer "[]"; text_answer "[]"] good_env) in
  exists w2 a1 a2,
    rtc cstep (mkSys w []) (mkSys w2 [mkPending (EStore (Some ("locations", TTL_HOUR))) (SAnswer a1);
                                       mkPending (EStore (Some ("locations", TTL_HOUR))) (SAnswer a2)]) /\
    w_log w2 = w_log w ++ [("list_locations", []); ("list_locations", [])] /\
    Cache.misses (w_cache w2) = S (S (Cache.misses (w_cache w))).
Proof.
  intros w. exact (concurrent_misses_both_fetch RListLocations locations_plan w
                     eq_refl eq_refl eq_refl eq_refl eq_refl).
Defined.

(** [getProduct("P1")] misses and waits for the old product; meanwhile
    [upsertProduct] succeeds and purges [product:]; then the read stores
    the old product, which the next [getProduct("P1")] returns from the
    cache. *)
Definition product_plan : plan :=
  Eval vm_compute in
    match read_plan (RGetProduct "P1" None) with Ok p => p | Err _ => locations_plan end.

Definition stale_w0 : world scripted :=
  set_connected true (world0 [text_answer "old"; text_answer "ok"] good_env).
Definition stale_op : write_op := WUpsertProduct [("id", JStr "P1"); ("name", JStr "New")].
Definition stale_w1 : world scripted := (start_read (RGetProduct "P1" None) stale_w0).1.
Definition stale_w2 : world scripted := (start_write stale_op stale_w1).1.

Lemma inflight_read_undoes_purge_witness :
  let w3 := commit (EPurge (write_prefixes stale_op)) (JObj [("id", JStr "P1")]) stale_w2 in
  let w4 := commit (EStore (Some (p_key product_plan, p_ttl product_plan)))
              (JObj [("name", JStr "Old")]) w3 in
  rtc cstep (mkSys stale_w0 []) (mkSys w4 []) /\
  (forall k, k <> p_key product_plan -> purged (write_prefixes stale_op) k = true ->
     Cache.view (w_cache w4) (clock w4) !! k = None) /\
  run_read (RGetProduct "P1" None) w4 =
    (set_cache (Cache.count_hit (w_cache w4)) w4, Ok (JObj [("name", JStr "Old")])).
Proof.
  exact (inflight_read_undoes_purge (RGetProduct "P1" None) product_plan stale_op stale_w0
           stale_w1 stale_w2 (text_answer "old") (text_answer "ok")
           (JObj [("name", JStr "Old")]) (JObj [("id", JStr "P1")])
           eq_refl eq_refl eq_refl eq_refl eq_refl eq_refl eq_refl).
Defined.

(** A server that counts its connections and answers from a script. *)
#[local] Instance counting : Remote := {|
  rstate := nat * list (res toolResult);
  r_connect r := ((S r.1, r.2), Ok tt);
  r_listTools r := (r, Ok []);
  r_callTool r _ _ :=
    match r.2 with
    | [] => ((r.1, []), Err (OperationError "no answer"))
    | a :: rest => ((r.1, rest), a)
    end;
  r_close r := r
|}.

Definition counting_world : world counting :=
  mkWorld (Cache.create "inflow-inventory-manager" TTL_FIVE_MINUTES) false false
    (0%nat, [text_answer "ok"; text_answer "ok"]) (mkConfig "inflow-mcp" [] []) good_env 0 [].

(** An [upsertProduct] and a [createStockCount] on a fresh client: two
    connections to the server. *)
Lemma concurrent_first_calls_both_connect_witness :
  let op1 := WUpsertProduct [] in
  let op2 := WCreateStockCount [] in
  let p1 := mkPending (EPurge (write_prefixes op1)) (SConnect (write_tool op1).1 (write_tool op1).2) in
  let p2 := mkPending (EPurge (write_prefixes op2)) (SConnect (write_tool op2).1 (write_tool op2).2) in
  rtc cstep (mkSys counting_world []) (mkSys counting_world [p1; p2]) /\
  exists s, rtc cstep (mkSys counting_world [p1; p2]) s /\ s_pool s = [] /\
    connected (s_world s) = true /\ fst (w_remote (s_world s)) = 2%nat.
Proof.
  intros op1 op2 p1 p2.
  refine (concurrent_first_calls_both_connect fst _ _ _ op1 op2 counting_world eq_refl (conj eq_refl eq_refl)).
  - intros r. reflexivity.
  - intros [n [|a rest]] name args; reflexivity.
  - intros r. reflexivity.
Defined.

End Witnesses.

End Interleave.
