(* ===== verification/Readme.v ===== *)
(** * Readme: the documented commands against the schemas of [src/scripts/cli.ts]

    The README ([src/unnamed/part_000]) names five commands under
    Features (lines 10-14), documents them with their options in the table
    of Available Commands (lines 47-53), marking the required ones, and
    shows eleven command lines under Usage Examples (lines 57-92).
    [cli_schema] is the other side: the key and the fields of the
    [z.object] schema of every entry of [commands] in [cli.ts]
    (lines 11-721), each field with whether it is required (no
    [.optional()]); [command_name] is the key under which each
    [CliCommands.command] is registered.

    An option is written [--category-id] in the README and declared
    [categoryId] in the schema: [flag_field] reads a flag in camelCase.
    The translation of flags into schema fields is done by
    [@local/cli-utils], which is not in the repository; the theorem states
    that the README is right under that reading.  It shows that the README
    names only commands the CLI has and only options their schema
    declares, that what it marks as required is required, and that it
    documents every required field of the commands of its table. *)

From S2P Require Import Prelude CliCommands.
Import CliCommands.

Module Readme.

(** ** The schemas of [commands] *)

(** [commands]: every key with the fields of its [z.object] schema, each
    field [true] when it is required. *)
Definition cli_schema : list (string * list (string * bool)) := [
    ("list-tools", []);
    ("list-products", [("limit", false); ("skip", false); ("filter", false); ("categoryId", false); ("category", false)]);
    ("get-product", [("id", true)]);
    ("search-products", [("query", true)]);
    ("get-bom", [("id", true)]);
    ("list-categories", []);
    ("get-stock-levels", [("productId", false)]);
    ("get-stock-by-location", [("locationId", false)]);
    ("list-stock-adjustments", [("limit", false)]);
    ("get-stock-adjustment", [("id", true)]);
    ("create-stock-adjustment", [("productId", true); ("locationId", true); ("quantity", true); ("reasonId", false); ("remarks", false)]);
    ("list-adjustment-reasons", []);
    ("list-stock-transfers", [("limit", false); ("status", false); ("fromLocationId", false); ("toLocationId", false)]);
    ("get-stock-transfer", [("id", true)]);
    ("create-stock-transfer", [("productId", true); ("fromLocationId", true); ("toLocationId", true); ("quantity", true); ("remarks", false)]);
    ("list-stock-counts", [("limit", false); ("status", false); ("locationId", false)]);
    ("get-stock-count", [("id", true)]);
    ("create-stock-count", [("locationId", true); ("remarks", false)]);
    ("list-sales-orders", [("limit", false); ("skip", false); ("status", false); ("include", false)]);
    ("get-sales-order", [("id", true); ("include", false)]);
    ("search-sales-orders", [("query", true)]);
    ("list-purchase-orders", [("limit", false); ("skip", false); ("status", false); ("include", false)]);
    ("get-purchase-order", [("id", true); ("include", false)]);
    ("create-product", [("name", true); ("sku", false); ("description", false); ("categoryId", false); ("cost", false); ("price", false); ("barcode", false)]);
    ("update-product", [("id", true); ("name", false); ("sku", false); ("description", false); ("cost", false); ("price", false)]);
    ("create-vendor", [("name", true); ("email", false); ("phone", false); ("website", false); ("street1", false); ("city", false); ("postalCode", false); ("country", false); ("currency", false)]);
    ("update-vendor", [("id", true); ("name", false); ("email", false); ("phone", false); ("website", false)]);
    ("create-purchase-order", [("vendorId", true); ("orderNumber", false); ("orderDate", false); ("expectedDate", false); ("locationId", false); ("items", true); ("currency", false); ("remarks", false)]);
    ("add-po-item", [("purchaseOrderId", true); ("productId", true); ("quantity", true); ("unitCost", false)]);
    ("update-purchase-order", [("id", true); ("remarks", false); ("orderDate", false); ("expectedDate", false); ("carrier", false); ("currency", false)]);
    ("receive-po-items", [("purchaseOrderId", true); ("receiveAll", false); ("items", false); ("allowOverReceive", false)]);
    ("unreceive-po-items", [("purchaseOrderId", true); ("receiveLineIds", false); ("items", false); ("unreceiveAll", false); ("dryRun", false)]);
    ("list-locations", []);
    ("get-location", [("id", true)]);
    ("get-order-serials", [("id", true)]);
    ("get-po-vins", [("id", true)]);
    ("search-serial", [("query", true)]);
    ("list-vins", [("limit", false); ("productId", false)]);
    ("build-serial-index", [("limit", false)]);
    ("get-product-vins", [("id", true)]);
    ("list-all-vins", [("maxProducts", false); ("inStockOnly", false)]);
    ("search-serial-fast", [("query", true)]);
    ("list-serial-numbers", [("productId", false); ("limit", false)]);
    ("search-serial-numbers", [("query", true)]);
    ("get-serial-number", [("id", true)]);
    ("list-customers", [("limit", false)]);
    ("list-vendors", [("limit", false)]);
    ("get-company-info", []);
    ("list-currencies", [("limit", false)])

  ].

Definition schema_of (name : string) : option (list (string * bool)) :=
  option_map snd (List.find (fun kv => String.eqb kv.1 name) cli_schema).

(** The key of [commands] that runs each command. *)
Definition command_name (c : command) : string :=
  match c with
  | CListTools => "list-tools"
  | CListProducts _ _ _ _ _ => "list-products"
  | CGetProduct _ => "get-product"
  | CSearchProducts _ => "search-products"
  | CGetBom _ => "get-bom"
  | CListCategories => "list-categories"
  | CGetStockLevels _ => "get-stock-levels"
  | CGetStockByLocation _ => "get-stock-by-location"
  | CListStockAdjustments _ => "list-stock-adjustments"
  | CGetStockAdjustment _ => "get-stock-adjustment"
  | CCreateStockAdjustment _ _ _ _ _ => "create-stock-adjustment"
  | CListAdjustmentReasons => "list-adjustment-reasons"
  | CListStockTransfers _ _ _ _ => "list-stock-transfers"
  | CGetStockTransfer _ => "get-stock-transfer"
  | CCreateStockTransfer _ _ _ _ _ => "create-stock-transfer"
  | CListStockCounts _ _ _ => "list-stock-counts"
  | CGetStockCount _ => "get-stock-count"
  | CCreateStockCount _ _ => "create-stock-count"
  | CListSalesOrders _ _ _ _ => "list-sales-orders"
  | CGetSalesOrder _ _ => "get-sales-order"
  | CSearchSalesOrders _ => "search-sales-orders"
  | CListPurchaseOrders _ _ _ _ => "list-purchase-orders"
  | CGetPurchaseOrder _ _ => "get-purchase-order"
  | CCreateProduct _ _ _ _ _ _ _ => "create-product"
  | CUpdateProduct _ _ _ _ _ _ => "update-product"
  | CCreateVendor _ _ _ _ _ _ _ _ _ => "create-vendor"
  | CUpdateVendor _ _ _ _ _ => "update-vendor"
  | CCreatePurchaseOrder _ _ _ _ _ _ _ _ => "create-purchase-order"
  | CAddPoItem _ _ _ _ => "add-po-item"
  | CReceivePoItems _ _ _ _ => "receive-po-items"
  | CUnreceivePoItems _ _ _ _ _ => "unreceive-po-items"
  | CListLocations => "list-locations"
  | CGetLocation _ => "get-location"
  | CGetOrderSerials _ => "get-order-serials"
  | CGetPoVins _ => "get-po-vins"
  | CSearchSerial _ => "search-serial"
  | CListVins _ _ => "list-vins"
  | CBuildSerialIndex _ => "build-serial-index"
  | CGetProductVins _ => "get-product-vins"
  | CListAllVins _ _ => "list-all-vins"
  | CSearchSerialFast _ => "search-serial-fast"
  | CListSerialNumbers _ _ => "list-serial-numbers"
  | CSearchSerialNumbers _ => "search-serial-numbers"
  | CGetSerialNumber _ => "get-serial-number"
  | CListCustomers _ => "list-customers"
  | CListVendors _ => "list-vendors"
  | CGetCompanyInfo => "get-company-info"
  | CListCurrencies _ => "list-currencies"
  end.

(** ** What the README documents *)

(** Features (lines 10-14). *)
Definition readme_features : list string :=
  ["list-products"; "get-product"; "search-products"; "get-bom"; "list-categories"].

(** Available Commands (lines 47-53): each command with its options, an
    option [true] when the table marks it required. *)
Definition readme_table : list (string * list (string * bool)) := [
    ("list-products", [("--limit", false); ("--category", false); ("--category-id", false)]);
    ("get-product", [("--id", true)]);
    ("search-products", [("--query", true)]);
    ("get-bom", [("--id", true)]);
    ("list-categories", [])
  ].

(** Usage Examples (lines 57-92): the arguments after [node
    scripts/dist/cli.js], as the shell passes them. *)
Definition readme_examples : list (string * list string) := [
    ("list-products", ["--limit"; "10"]);
    ("list-categories", []);
    ("list-products", ["--category"; "Parts"; "--limit"; "20"]);
    ("list-products", ["--category-id"; "00000000-0000-0000-0000-000000000001"]);
    ("search-products", ["--query"; "Ranger Product"]);
    ("get-bom", ["--id"; "00000000-0000-0000-0000-000000000002"]);
    ("get-stock-levels", ["--product-id"; "00000000-0000-0000-0000-000000000003"]);
    ("list-sales-orders", ["--status"; "Open"; "--limit"; "10"]);
    ("list-locations", []);
    ("list-adjustment-reasons", []);
    ("list-stock-transfers", ["--status"; "Open"]);
    ("list-stock-counts", ["--status"; "InProgress"])
  ].

(** ** Reading a flag as a schema field *)

Definition upper (c : ascii) : ascii :=
  let n := nat_of_ascii c in
  if (97 <=? n)%nat && (n <=? 122)%nat then ascii_of_nat (n - 32) else c.

(** [category-id] is [categoryId]. *)
Fixpoint camel (s : string) : string :=
  match s with
  | String "-"%char (String c rest) => String (upper c) (camel rest)
  | String c rest => String c (camel rest)
  | EmptyString => EmptyString
  end.

Definition flag_field (flag : string) : option string :=
  match flag with
  | String "-"%char (String "-"%char name) => Some (camel name)
  | _ => None
  end.

Definition is_flag (arg : string) : bool := String.prefix "--" arg.

(** A documented option names a field of the schema, required exactly
    when the README says so. *)
Definition documents_option (fs : list (string * bool)) (o : string * bool) : Prop :=
  Exists (fun fr => flag_field o.1 = Some fr.1 /\ fr.2 = o.2) fs.

(** A required field of the schema is documented, marked required. *)
Definition documents_required (opts : list (string * bool)) (fr : string * bool) : Prop :=
  fr.2 = true -> Exists (fun o => flag_field o.1 = Some fr.1 /\ o.2 = true) opts.

Definition documents_row (row : string * list (string * bool)) : Prop :=
  match schema_of row.1 with
  | Some fs => Forall (documents_option fs) row.2 /\ Forall (documents_required row.2) fs
  | None => False
  end.

Definition documents_example (ex : string * list string) : Prop :=
  match schema_of ex.1 with
  | Some fs => Forall (fun a => Exists (fun fr => flag_field a = Some fr.1) fs) (filter is_flag ex.2)
  | None => False
  end.

#[global] Instance documents_row_dec row : Decision (documents_row row).
Proof. unfold documents_row, documents_option, documents_required. destruct (schema_of _); apply _. Defined.

#[global] Instance documents_example_dec ex : Decision (documents_example ex).
Proof. unfold documents_example. destruct (schema_of _); apply _. Defined.

(** ** Theorems *)

(** Every command has its own key: the keys of [commands] are distinct and
    each [command] is registered under [command_name]. *)
Lemma command_name_registered c : is_Some (schema_of (command_name c)).
Proof. destruct c; eexists; reflexivity. Qed.

Lemma cli_schema_keys_distinct : NoDup (map fst cli_schema).
Proof. apply (bool_decide_unpack _). vm_compute. exact I. Qed.

(** [readme_matches_cli]: the README documents the CLI that
    [cli.ts] builds: every command it names under Features, in its table
    or in its examples is a key of [commands]; every option of the table
    is a field of that command's schema, required exactly when the table
    says so; every required field of a command of the table is in the
    table; and every flag of the examples is a field of its command's
    schema. *)
Theorem readme_matches_cli :
  Forall (fun n => is_Some (schema_of n)) readme_features /\
  Forall documents_row readme_table /\
  Forall documents_example readme_examples.
Proof.
  split; [|split]; apply (bool_decide_unpack _); vm_compute; exact I.
Qed.

End Readme.
